(** * Gimbal wire protocol and virtual PTZ pipeline

    A shallow embedding of [scripts/rpi/test.py] (frame codec, command
    channel, session loop), [source/vision/ptz.py] (joystick handling, target
    selection, crop geometry, frame rate), [scripts/rpi/yolo_tracker.py]
    (primary target), [source/hardware/buttons.py] (joystick events) and
    [source/hardware/display.py] (radar matrix).

    Python values are modelled as follows: [int] is [Z]; [bytes] is a list of
    [Byte.byte]; [float] is the primitive binary64 [float] of the standard
    library, so that every arithmetic step rounds as CPython's does; an
    exception is an explicit [Raised] result. *)

From Stdlib Require Import ZArith List Bool Lia Floats.
From Stdlib.Strings Require Import Byte.
From Stdlib Require String.
Import String.StringSyntax.
Import ListNotations.
Local Open Scope Z_scope.
Delimit Scope string_scope with string.
Bind Scope string_scope with String.string.

(** ** Exceptions *)

Inductive exn : Set :=
| StructError
| IndexError
| ValueError
| OverflowError
| ZeroDivisionError.

Inductive result (A : Type) : Type :=
| Ok (a : A)
| Raised (e : exn).
Arguments Ok {A} a.
Arguments Raised {A} e.

Definition bind {A B : Type} (r : result A) (k : A -> result B) : result B :=
  match r with
  | Ok a => k a
  | Raised e => Raised e
  end.

Notation "x <- r ;; k" := (bind r (fun x => k))
  (at level 61, r at next level, right associativity).

(** ** Bytes, slices and [struct] *)

Definition bytes := list byte.

Definition byte_val (b : byte) : Z := Z.of_N (Byte.to_N b).

Definition byte_of (z : Z) : byte :=
  match Byte.of_N (Z.to_N z) with
  | Some b => b
  | None => x00
  end.

Fixpoint bytes_eqb (a b : bytes) : bool :=
  match a, b with
  | [], [] => true
  | x :: a', y :: b' => Byte.eqb x y && bytes_eqb a' b'
  | _, _ => false
  end.

(** [l[lo:hi]] for [0 <= lo], [0 <= hi]. *)
Definition slice {A} (lo hi : nat) (l : list A) : list A :=
  firstn (hi - lo) (skipn lo l).

(** [l[-n:]] *)
Definition suffix {A} (n : nat) (l : list A) : list A :=
  skipn (length l - n) l.

(** [l[:-n]] *)
Definition drop_last {A} (n : nat) (l : list A) : list A :=
  firstn (length l - n) l.

(** [l[i]] for [0 <= i]. *)
Definition index {A} (l : list A) (i : nat) : result A :=
  match nth_error l i with
  | Some a => Ok a
  | None => Raised IndexError
  end.

Definition pack_B (v : Z) : result bytes :=
  if (0 <=? v) && (v <=? 255) then Ok [byte_of v] else Raised StructError.

Definition pack_H (v : Z) : result bytes :=
  if (0 <=? v) && (v <=? 65535)
  then Ok [byte_of (Z.land v 255); byte_of (Z.shiftr v 8)]
  else Raised StructError.

Definition pack_h (v : Z) : result bytes :=
  if (-32768 <=? v) && (v <=? 32767)
  then Ok [byte_of (Z.land v 255); byte_of (Z.land (Z.shiftr v 8) 255)]
  else Raised StructError.

Definition unpack_H (bs : bytes) : result Z :=
  match bs with
  | [b0; b1] => Ok (Z.lor (byte_val b0) (Z.shiftl (byte_val b1) 8))
  | _ => Raised StructError
  end.

Definition to_signed16 (u : Z) : Z := if u <? 32768 then u else u - 65536.

Definition unpack_h (bs : bytes) : result Z :=
  u <- unpack_H bs ;; Ok (to_signed16 u).

(** [struct.pack("<BHHB", a, b, c, d)] *)
Definition pack_BHHB (a b c d : Z) : result bytes :=
  a' <- pack_B a ;;
  b' <- pack_H b ;;
  c' <- pack_H c ;;
  d' <- pack_B d ;;
  Ok (a' ++ b' ++ c' ++ d').

(** [struct.pack("<hh", a, b)] *)
Definition pack_hh (a b : Z) : result bytes :=
  a' <- pack_h a ;;
  b' <- pack_h b ;;
  Ok (a' ++ b').

(** [struct.unpack("<hhh", bs)] *)
Definition unpack_hhh (bs : bytes) : result (Z * Z * Z) :=
  if negb (length bs =? 6)%nat then Raised StructError else
  a <- unpack_h (slice 0 2 bs) ;;
  b <- unpack_h (slice 2 4 bs) ;;
  c <- unpack_h (slice 4 6 bs) ;;
  Ok (a, b, c).

(** [struct.unpack("<hhhhhh", bs)], of which the callers keep the first
    three values. *)
Definition unpack_hhhhhh (bs : bytes) : result (Z * Z * Z) :=
  if negb (length bs =? 12)%nat then Raised StructError else
  a <- unpack_h (slice 0 2 bs) ;;
  b <- unpack_h (slice 2 4 bs) ;;
  c <- unpack_h (slice 4 6 bs) ;;
  Ok (a, b, c).

(** ** The frame codec of [scripts/rpi/test.py] *)

Definition STX : bytes := [x55; x66].

Definition crc_shift (crc : Z) : Z :=
  if negb (Z.land crc 0x8000 =? 0)
  then Z.lxor (Z.land (Z.shiftl crc 1) 0xFFFF) 0x1021
  else Z.land (Z.shiftl crc 1) 0xFFFF.

Definition crc_byte (crc : Z) (b : byte) : Z :=
  Nat.iter 8 crc_shift (Z.lxor crc (Z.land (Z.shiftl (byte_val b) 8) 0xFFFF)).

Definition crc16_xmodem (data : bytes) (init : Z) : Z :=
  Z.land (fold_left crc_byte data (Z.land init 0xFFFF)) 0xFFFF.

Definition build_packet (cmd_id : Z) (data : bytes) (seq : Z) (need_ack : bool)
  : result bytes :=
  let ctrl := if need_ack then 0x01 else 0x00 in
  fields <- pack_BHHB ctrl (Z.of_nat (length data)) seq cmd_id ;;
  let header := STX ++ fields in
  let body := header ++ data in
  let crc := crc16_xmodem body 0 in
  tail <- pack_H crc ;;
  Ok (body ++ tail).

(** The locals of [parse_packet] once the frame passed the three checks. *)
Record fields : Type := {
  f_ctrl : Z;
  f_data_len : Z;
  f_seq : Z;
  f_cmd_id : Z;
  f_data : bytes
}.

Definition parse_fields (raw : bytes) : result (option fields) :=
  if (length raw <? 10)%nat || negb (bytes_eqb (slice 0 2 raw) STX)
  then Ok None
  else
    recv_crc <- unpack_H (suffix 2 raw) ;;
    let calc_crc := crc16_xmodem (drop_last 2 raw) 0 in
    if negb (recv_crc =? calc_crc) then Ok None
    else
      ctrl <- index raw 2 ;;
      data_len <- unpack_H (slice 3 5 raw) ;;
      seq <- unpack_H (slice 5 7 raw) ;;
      cmd_id <- index raw 7 ;;
      let data := slice 8 (8 + Z.to_nat data_len) raw in
      Ok (Some {| f_ctrl := byte_val ctrl; f_data_len := data_len;
                  f_seq := seq; f_cmd_id := byte_val cmd_id;
                  f_data := data |}).

(** The three reasons for which [parse_packet] rejects a buffer. *)
Definition not_a_frame (raw : bytes) : Prop :=
  (length raw < 10)%nat \/
  slice 0 2 raw <> STX \/
  unpack_H (suffix 2 raw) <> Ok (crc16_xmodem (drop_last 2 raw) 0).

(** A buffer that passes the three checks while its length field announces
    five bytes of payload and it carries none. *)
Definition short_frame : bytes :=
  [x55; x66; x00; x05; x00; x07; x00; x0d; x8f; xe6].

(** The frame of an attitude request with sequence number 7. *)
Definition sample_frame : bytes :=
  [x55; x66; x01; x00; x00; x07; x00; x0d; x78; x80].

(** [parse_packet] returns the tuple [(ctrl, seq, cmd_id, data)]. *)
Definition parse_packet (raw : bytes) : result (option (Z * Z * Z * bytes)) :=
  r <- parse_fields raw ;;
  Ok (option_map (fun f => (f_ctrl f, f_seq f, f_cmd_id f, f_data f)) r).

(** ** Python arithmetic on [float] and [int] *)

(** [min(x, y)] keeps [x] unless [y < x]; [max(x, y)] keeps [x] unless
    [y > x].  With a NaN operand every comparison is false. *)
Definition py_min (x y : float) : float := if (y <? x)%float then y else x.
Definition py_max (x y : float) : float := if (x <? y)%float then y else x.

(** [float(n)] for an [int]: the nearest binary64 value, ties to even;
    [OverflowError] when it would be infinite. *)
Definition float_of_int (n : Z) : result float :=
  match binary_normalize prec emax n 0 false with
  | S754_infinity _ => Raised OverflowError
  | sf => Ok (SF2Prim sf)
  end.

(** [n / 2] for an [int] [n]: the quotient, correctly rounded. *)
Definition int_half (n : Z) : result float :=
  match binary_normalize prec emax n (-1) false with
  | S754_infinity _ => Raised OverflowError
  | sf => Ok (SF2Prim sf)
  end.

(** [x / y] on floats. *)
Definition truediv (x y : float) : result float :=
  if (y =? 0)%float then Raised ZeroDivisionError else Ok (x / y)%float.

(** [int(x)]: truncation toward zero. *)
Definition py_int (x : float) : result Z :=
  match Prim2SF x with
  | S754_nan => Raised ValueError
  | S754_infinity _ => Raised OverflowError
  | S754_zero _ => Ok 0
  | S754_finite s m e => Ok (cond_Zopp s (Z.shiftl (Zpos m) e))
  end.

(** The integer nearest to [m * 2^e], ties to the even one. *)
Definition round_half_even (m : positive) (e : Z) : Z :=
  if 0 <=? e then Z.shiftl (Zpos m) e
  else
    let q := Z.shiftr (Zpos m) (- e) in
    let r := Zpos m - Z.shiftl q (- e) in
    let half := Z.shiftl 1 (- e - 1) in
    if r <? half then q
    else if half <? r then q + 1
    else if Z.even q then q else q + 1.

(** [round(x)] with one argument. *)
Definition py_round (x : float) : result Z :=
  match Prim2SF x with
  | S754_nan => Raised ValueError
  | S754_infinity _ => Raised OverflowError
  | S754_zero _ => Ok 0
  | S754_finite s m e => Ok (cond_Zopp s (round_half_even m e))
  end.

(** ** The command channel of [scripts/rpi/test.py] *)

(** 0.35 *)
Definition TIMEOUT_S : float := 0x1.6666666666666p-2%float.

Definition YAW_MIN : float := (-135)%float.
Definition YAW_MAX : float := 135%float.
Definition PITCH_MIN : float := (-90)%float.
Definition PITCH_MAX : float := 45%float.

Definition clamp (v a b : float) : float := py_max a (py_min b v).

(** One turn of a polling loop as the environment decides it: the clock
    read by the loop test, and what [recvfrom] does if it is called. *)
Inductive recv : Type :=
| Datagram (raw : bytes)
| SocketTimeout.

Record turn : Type := { now : float; rx : recv }.

(** How a polling loop ends; [Pending] is a loop that consumed every turn
    it was given and is still polling. *)
Inductive outcome (A : Type) : Type :=
| Reply (a : A)
| NoReply
| Pending.
Arguments Reply {A} a.
Arguments NoReply {A}.
Arguments Pending {A}.

(** [i / 10.0] for an [int] [i]. *)
Definition tenths (i : Z) : result float :=
  f <- float_of_int i ;; Ok (f / 10)%float.

Definition angles : Type := float * float * float.

Definition decode_angles (v : Z * Z * Z) : result angles :=
  let '(a, b, c) := v in
  a' <- tenths a ;; b' <- tenths b ;; c' <- tenths c ;; Ok (a', b', c').

(** The body of the loop of [request_attitude] after a successful parse. *)
Definition attitude_reply (p : Z * Z * Z * bytes) : result (option angles) :=
  let '(ctrl, rseq, cmd_id, data) := p in
  if (cmd_id =? 0x0D) && (12 <=? length data)%nat then
    v <- unpack_hhhhhh (slice 0 12 data) ;;
    a <- decode_angles v ;;
    Ok (Some a)
  else Ok None.

(** The body of the loop of [set_angles_with_ack] after a successful
    parse. *)
Definition angles_ack (p : Z * Z * Z * bytes) : result (option angles) :=
  let '(ctrl, rseq, cmd_id, rdata) := p in
  let is_ack := negb (Z.land ctrl 0x02 =? 0) in
  if (cmd_id =? 0x0E) && is_ack && (6 <=? length rdata)%nat then
    v <- unpack_hhh (slice 0 6 rdata) ;;
    a <- decode_angles v ;;
    Ok (Some a)
  else Ok None.

(** [while time.time() - t0 < TIMEOUT_S: ...], one turn per iteration. *)
Fixpoint poll {A} (body : Z * Z * Z * bytes -> result (option A))
  (t0 : float) (turns : list turn) : result (outcome A) :=
  match turns with
  | [] => Ok Pending
  | t :: rest =>
    if (now t - t0 <? TIMEOUT_S)%float then
      match rx t with
      | SocketTimeout => Ok NoReply
      | Datagram raw =>
        p <- parse_packet raw ;;
        match p with
        | None => poll body t0 rest
        | Some f =>
          a <- body f ;;
          match a with
          | Some x => Ok (Reply x)
          | None => poll body t0 rest
          end
        end
      end
    else Ok NoReply
  end.

(** The loop test, and what one iteration decides about one datagram:
    [Ok None] is [continue], [Ok (Some a)] is [return a]. *)
Definition in_window (t0 : float) (t : turn) : bool :=
  (now t - t0 <? TIMEOUT_S)%float.

Definition verdict {A} (body : Z * Z * Z * bytes -> result (option A))
  (raw : bytes) : result (option A) :=
  p <- parse_packet raw ;;
  match p with
  | None => Ok None
  | Some f => body f
  end.

(** A turn that an unfinished loop goes through without returning. *)
Definition skipped {A} (body : Z * Z * Z * bytes -> result (option A))
  (t0 : float) (t : turn) : Prop :=
  in_window t0 t = true /\
  exists raw, rx t = Datagram raw /\ verdict body raw = Ok None.

(** The frames that each request takes as its answer. *)
Definition answers_attitude (raw : bytes) : Prop :=
  exists ctrl rseq data,
    parse_packet raw = Ok (Some (ctrl, rseq, 0x0D, data)) /\
    (12 <= length data)%nat.

Definition answers_angles (raw : bytes) : Prop :=
  exists ctrl rseq data,
    parse_packet raw = Ok (Some (ctrl, rseq, 0x0E, data)) /\
    Z.testbit ctrl 1 = true /\
    (6 <= length data)%nat.

(** An attitude frame with the ack bit clear (control byte 0), as the
    gimbal streams them: yaw 10.0, pitch -5.0, roll 0.0. *)
Definition stream_frame : bytes :=
  [x55; x66; x00; x0c; x00; x03; x00; x0d;
   x64; x00; xce; xff; x00; x00; x00; x00; x00; x00; x00; x00;
   x75; x81].

(** An acknowledgement of the angle command (control byte 2) that carries
    four payload bytes instead of six. *)
Definition short_ack_frame : bytes :=
  [x55; x66; x02; x04; x00; x09; x00; x0e; x46; x05; x7c; xfc; xb9; x9c].

(** What a request did: the datagram handed to [sendto] and how the wait
    for an answer ended. *)
Record exchange (A : Type) : Type := { sent : bytes; answer : outcome A }.
Arguments sent {A} e.
Arguments answer {A} e.

Definition request_attitude (seq : Z) (t0 : float) (turns : list turn)
  : result (exchange angles) :=
  pkt <- build_packet 0x0D [] seq true ;;
  r <- poll attitude_reply t0 turns ;;
  Ok {| sent := pkt; answer := r |}.

(** [set_angles_with_ack] also returns [(yaw_deg, pitch_deg)], the third
    component of its tuple, on both exits. *)
Definition set_angles_with_ack (seq : Z) (yaw_deg pitch_deg : float)
  (t0 : float) (turns : list turn)
  : result (exchange angles * (float * float)) :=
  let yaw_deg := clamp yaw_deg YAW_MIN YAW_MAX in
  let pitch_deg := clamp pitch_deg PITCH_MIN PITCH_MAX in
  y <- py_round (yaw_deg * 10)%float ;;
  p <- py_round (pitch_deg * 10)%float ;;
  data <- pack_hh y p ;;
  pkt <- build_packet 0x0E data seq true ;;
  r <- poll angles_ack t0 turns ;;
  Ok ({| sent := pkt; answer := r |}, (yaw_deg, pitch_deg)).

(** A single bit of a buffer inverted: bit [k] of the byte at [pos]. *)
Definition flip_in_byte (b : byte) (k : nat) : byte :=
  byte_of (Z.lxor (byte_val b) (Z.shiftl 1 (Z.of_nat k))).

Fixpoint flip_bit (raw : bytes) (pos k : nat) : bytes :=
  match raw with
  | [] => []
  | b :: rest =>
    match pos with
    | O => flip_in_byte b k :: rest
    | S pos' => b :: flip_bit rest pos' k
    end
  end.

(** ** The pipeline state of [source/vision/ptz.py] *)

(** A target dict: ["id"] (possibly [None]), ["bbox"], ["confidence"] and
    ["class"]. *)
Record target : Type := {
  t_id : option Z;
  t_bbox : list float;
  t_confidence : float;
  t_class : Z
}.

(** The fields of [PTZPipeline] that the selection and the zoom use. *)
Record ptz : Type := {
  zoom_min : float;
  zoom_max : float;
  zoom_step : float;
  zoom : float;
  force_wide : bool;
  active_target_id : option Z
}.

(** The dict returned by [joystick.poll()]. *)
Record updates : Type := {
  target_delta : Z;
  zoom_delta : Z;
  wide : bool
}.

(** [__init__], from the three floats read from the configuration. *)
Definition init (zmin zmax zstep : float) : ptz :=
  {| zoom_min := zmin; zoom_max := zmax; zoom_step := zstep;
     zoom := zmin; force_wide := false; active_target_id := None |}.

Definition set_zoom (z : float) (self : ptz) : ptz :=
  {| zoom_min := zoom_min self; zoom_max := zoom_max self;
     zoom_step := zoom_step self; zoom := z;
     force_wide := force_wide self;
     active_target_id := active_target_id self |}.

Definition set_force_wide (b : bool) (self : ptz) : ptz :=
  {| zoom_min := zoom_min self; zoom_max := zoom_max self;
     zoom_step := zoom_step self; zoom := zoom self;
     force_wide := b;
     active_target_id := active_target_id self |}.

Definition set_active_target_id (a : option Z) (self : ptz) : ptz :=
  {| zoom_min := zoom_min self; zoom_max := zoom_max self;
     zoom_step := zoom_step self; zoom := zoom self;
     force_wide := force_wide self;
     active_target_id := a |}.

(** The invariant of the zoom state. *)
Definition zoom_in_range (self : ptz) : Prop :=
  (zoom_min self <=? zoom self)%float = true /\
  (zoom self <=? zoom_max self)%float = true.

(** A method that mutates [self] and may raise: the state it leaves, and
    how it ended. *)
Definition method (A : Type) : Type := ptz -> ptz * result A.

Definition ret {A} (a : A) : method A := fun self => (self, Ok a).

Definition seq {A B} (m : method A) (k : A -> method B) : method B :=
  fun self =>
    match m self with
    | (self', Ok a) => k a self'
    | (self', Raised e) => (self', Raised e)
    end.

Definition lift {A} (r : result A) : method A := fun self => (self, r).

Definition assign (f : ptz -> ptz) : method unit :=
  fun self => (f self, Ok tt).

Definition read {A} (f : ptz -> A) : method A :=
  fun self => (self, Ok (f self)).

Definition when (b : bool) (m : method unit) : method unit :=
  if b then m else ret tt.

Notation "x <~ m ;; k" := (seq m (fun x => k))
  (at level 61, m at next level, right associativity).
Notation "m ;;; k" := (seq m (fun _ => k))
  (at level 61, right associativity).

(** The identity of each target: its ["id"], or its position when the id
    is [None]. *)
Fixpoint identities_from (idx : Z) (targets : list target) : list Z :=
  match targets with
  | [] => []
  | t :: rest =>
    match t_id t with
    | Some tid => tid
    | None => idx
    end :: identities_from (idx + 1) rest
  end.

Definition identities (targets : list target) : list Z :=
  identities_from 0 targets.

(** [x in ids] *)
Definition contains (x : option Z) (ids : list Z) : bool :=
  match x with
  | Some a => existsb (Z.eqb a) ids
  | None => false
  end.

(** [ids.index(x)] *)
Fixpoint position (a : Z) (ids : list Z) : result nat :=
  match ids with
  | [] => Raised ValueError
  | b :: rest =>
    if b =? a then Ok O else (i <- position a rest ;; Ok (S i))
  end.

Definition index_of (x : option Z) (ids : list Z) : result nat :=
  match x with
  | Some a => position a ids
  | None => Raised ValueError
  end.

(** Lines 67-69: the wide reset. *)
Definition joystick_wide (u : updates) : method unit :=
  when (wide u)
    (assign (set_force_wide true) ;;;
     zmin <~ read zoom_min ;;
     assign (set_zoom zmin)).

(** Lines 71-74: the zoom adjustment. *)
Definition joystick_zoom (u : updates) : method unit :=
  when (negb (zoom_delta u =? 0))
    (assign (set_force_wide false) ;;;
     d <~ lift (float_of_int (zoom_delta u)) ;;
     z <~ read zoom ;;
     step <~ read zoom_step ;;
     assign (set_zoom (z + d * step)%float) ;;;
     z <~ read zoom ;;
     zmin <~ read zoom_min ;;
     zmax <~ read zoom_max ;;
     assign (set_zoom (py_max zmin (py_min zmax z)))).

(** Lines 76-91: target cycling. *)
Definition joystick_target (u : updates) (targets : list target)
  : method unit :=
  when (negb (target_delta u =? 0) && negb (length targets =? 0)%nat)
    (let ids := identities targets in
     active <~ read active_target_id ;;
     if negb (contains active ids) then
       first <~ lift (index ids 0) ;;
       assign (set_active_target_id (Some first))
     else
       current_idx <~ lift (index_of active ids) ;;
       let new_idx :=
         (Z.of_nat current_idx + target_delta u) mod Z.of_nat (length ids) in
       tid <~ lift (index ids (Z.to_nat new_idx)) ;;
       assign (set_active_target_id (Some tid)) ;;;
       assign (set_force_wide false)).

(** [_apply_joystick(targets)]; [joystick] is [None] when the pipeline has
    no joystick, and else what [joystick.poll()] returns. *)
Definition _apply_joystick (targets : list target) (joystick : option updates)
  : method unit :=
  match joystick with
  | None => ret tt
  | Some u =>
    joystick_wide u ;;;
    joystick_zoom u ;;;
    joystick_target u targets
  end.

(** A target with a track id and a box, as [results_to_target_list] builds
    them; used for the examples. *)
Definition tracked (tid : Z) (x1 y1 x2 y2 : float) : target :=
  {| t_id := Some tid; t_bbox := [x1; y1; x2; y2];
     t_confidence := 0.5%float; t_class := 0 |}.

(** The default configuration, following [tid]. *)
Definition following (tid : Z) : ptz :=
  set_active_target_id (Some tid) (init 1 3 0x1.999999999999ap-4).

(** One press to the right: the next target. *)
Definition next_target : updates :=
  {| target_delta := 1; zoom_delta := 0; wide := false |}.

(** One press up: zoom in. *)
Definition zoom_in : updates :=
  {| target_delta := 0; zoom_delta := 1; wide := false |}.

(** Three tracked targets with ids 3, 7, 9, and two with ids 2, 5. *)
Definition three_targets : list target :=
  [tracked 3 10 10 50 90; tracked 7 100 20 160 120; tracked 9 200 30 240 80].

Definition two_targets : list target :=
  [tracked 2 10 10 50 90; tracked 5 100 20 160 120].

(** Two targets whose boxes have the same area. *)
Definition tied_targets : list target :=
  [tracked 1 0 0 10 10; tracked 2 20 20 30 30].

(** [get_primary_target] of [scripts/rpi/yolo_tracker.py]. *)
Definition bbox_area (bbox : list float) : result float :=
  x2 <- index bbox 2 ;;
  x0 <- index bbox 0 ;;
  x3 <- index bbox 3 ;;
  x1 <- index bbox 1 ;;
  Ok ((x2 - x0) * (x3 - x1))%float.

Fixpoint primary_loop (objs : list target) (largest_area : float)
  (primary_target : option target) : result (option target) :=
  match objs with
  | [] => Ok primary_target
  | obj :: rest =>
    area <- bbox_area (t_bbox obj) ;;
    if (largest_area <? area)%float
    then primary_loop rest area (Some obj)
    else primary_loop rest largest_area primary_target
  end.

Definition get_primary_target (tracked_objects : list target)
  : result (option target) :=
  match tracked_objects with
  | [] => Ok None
  | _ => primary_loop tracked_objects 0%float None
  end.

(** The area of a box in the words of the specification: the width times
    the height of [(x1, y1, x2, y2)]; nothing for a list that has fewer than
    four coordinates. *)
Definition spec_area (bbox : list float) : option float :=
  match bbox with
  | x1 :: y1 :: x2 :: y2 :: _ => Some ((x2 - x1) * (y2 - y1))%float
  | _ => None
  end.

(** A wide flat box before a narrower box of larger area. *)
Definition flat_and_tall : list target :=
  [tracked 1 0 0 10 1; tracked 2 0 0 9 100].

(** A box without width, and a box of positive width and height whose
    area underflows to zero. *)
Definition empty_box : list target := [tracked 1 5 5 5 9].

Definition tiny_box : list target := [tracked 1 0 0 0x1p-600 0x1p-600].

(** The loop of [_select_active_target], [idx] counting from the head. *)
Fixpoint find_active (active : option Z) (idx : Z) (targets : list target)
  : option target :=
  match targets with
  | [] => None
  | t :: rest =>
    let tid := match t_id t with Some tid => tid | None => idx end in
    if match active with Some a => tid =? a | None => false end
    then Some t
    else find_active active (idx + 1) rest
  end.

Definition _select_active_target (self : ptz) (targets : list target)
  : result (option target) :=
  match targets with
  | [] => Ok None
  | _ =>
    match find_active (active_target_id self) 0 targets with
    | Some t => Ok (Some t)
    | None => get_primary_target targets
    end
  end.

(** ** Crop geometry *)

(** [frame.shape[:2]]; the pixels play no part in the geometry. *)
Record frame : Type := { height : Z; width : Z }.

(** What [_crop_and_zoom] returns for a frame that is not [None]: the frame
    itself, or [cv2.resize(frame[y1:y2, x1:x2], (w, h))]. *)
Inductive rendered : Type :=
| Unmodified
| Resized (x1 y1 x2 y2 : Z) (w h : Z).

(** The extent of [a[lo:hi]] along an axis of size [n], [0 <= lo, hi]. *)
Definition extent (n lo hi : Z) : Z := Z.max 0 (Z.min hi n - Z.min lo n).

(** 1.01 *)
Definition NO_ZOOM : float := 0x1.028f5c28f5c29p+0%float.

Definition _crop_and_zoom (self : ptz) (frame : option frame)
  (target : option target) : result (option rendered) :=
  match frame with
  | None => Ok None
  | Some frame =>
    match target with
    | None => Ok (Some Unmodified)
    | Some target =>
      if force_wide self || (zoom self <=? NO_ZOOM)%float
      then Ok (Some Unmodified)
      else
        let h := height frame in
        let w := width frame in
        let bbox := t_bbox target in
        if (length bbox <? 4)%nat then Ok (Some Unmodified)
        else
          b0 <- index bbox 0 ;; b2 <- index bbox 2 ;;
          let cx := ((b0 + b2) / 2)%float in
          b1 <- index bbox 1 ;; b3 <- index bbox 3 ;;
          let cy := ((b1 + b3) / 2)%float in
          wf <- float_of_int w ;;
          qw <- truediv wf (zoom self) ;;
          crop_w <- py_int qw ;;
          hf <- float_of_int h ;;
          qh <- truediv hf (zoom self) ;;
          crop_h <- py_int qh ;;
          let crop_w := Z.max 1 (Z.min w crop_w) in
          let crop_h := Z.max 1 (Z.min h crop_h) in
          half_w <- int_half crop_w ;;
          x1 <- py_int (cx - half_w)%float ;;
          half_h <- int_half crop_h ;;
          y1 <- py_int (cy - half_h)%float ;;
          let x1 := Z.max 0 (Z.min (w - crop_w) x1) in
          let y1 := Z.max 0 (Z.min (h - crop_h) y1) in
          let x2 := x1 + crop_w in
          let y2 := y1 + crop_h in
          if (extent h y1 y2 =? 0) || (extent w x1 x2 =? 0)
          then Ok (Some Unmodified)
          else Ok (Some (Resized x1 y1 x2 y2 w h))
    end
  end.

(** The default configuration with the zoom at [z], following [tid]. *)
Definition zoomed (z : float) (tid : Z) : ptz := set_zoom z (following tid).

(** A 640x480 frame and a target whose box is centred in it. *)
Definition vga : frame := {| height := 480; width := 640 |}.

Definition centred : target := tracked 7 270 190 370 290.

(** The crop rectangle in the words of the specification, which rounds
    where the code truncates:
    [crop_w = clamp(round(w/zoom), 1, w)], [crop_h] likewise, and
    [x1 = clamp(round(cx - crop_w/2), 0, w - crop_w)], [y1] likewise. *)
Definition spec_crop (w h : Z) (zoom cx cy : float)
  : result (Z * Z * Z * Z) :=
  wf <- float_of_int w ;;
  qw <- truediv wf zoom ;;
  crop_w <- py_round qw ;;
  hf <- float_of_int h ;;
  qh <- truediv hf zoom ;;
  crop_h <- py_round qh ;;
  let crop_w := Z.max 1 (Z.min w crop_w) in
  let crop_h := Z.max 1 (Z.min h crop_h) in
  half_w <- int_half crop_w ;;
  x1 <- py_round (cx - half_w)%float ;;
  half_h <- int_half crop_h ;;
  y1 <- py_round (cy - half_h)%float ;;
  let x1 := Z.max 0 (Z.min (w - crop_w) x1) in
  let y1 := Z.max 0 (Z.min (h - crop_h) y1) in
  Ok (x1, y1, x1 + crop_w, y1 + crop_h).

(** ** The order of binary64 values

    [sf_key] sends a value that is not a NaN to an integer in such a way
    that comparing floats is comparing keys. *)

Definition sf_key (x : spec_float) : option Z :=
  match x with
  | S754_nan => None
  | S754_zero _ => Some 0
  | S754_infinity s => Some (cond_Zopp s (2047 * 2 ^ 53))
  | S754_finite s m e => Some (cond_Zopp s ((e + 1075) * 2 ^ 53 + Zpos m))
  end.

Definition fkey (x : float) : option Z := sf_key (Prim2SF x).

(** The key of a positive finite value. *)
Definition mag_key (m : positive) (e : Z) : Z := (e + 1075) * 2 ^ 53 + Zpos m.

(** What [binary_round_aux] returns for a mantissa [m2] already rounded at
    exponent [e1]: a zero, or the same value with at most 53 digits. *)
Definition rounds_to (s : bool) (m2 e1 : Z) (r : spec_float) : Prop :=
  (m2 = 0 /\ r = S754_zero s) \/
  (exists (m : positive) (e : Z),
      Zpos m * 2 ^ (e - e1) = m2 /\ e1 <= e /\
      Zpos m < 2 ^ 53 /\ (e = -1074 \/ 2 ^ 52 <= Zpos m) /\
      r = if e <=? 971 then S754_finite s m e else S754_infinity s).

(** Values, on a common scale.

    Every exponent at hand is above -2200, so that [m * 2^e] can be
    compared through the integer [m * 2^(e + 2200)]. *)

Definition scaled (m e : Z) : Z := m * 2 ^ (e + 2200).

(** ** The session loop of [scripts/rpi/test.py] *)

(** [seq = (seq + 1) & 0xFFFF] *)
Definition next_seq (seq : Z) : Z := Z.land (seq + 1) 0xFFFF.

(** What the socket does during one request: the clock when the request is
    sent, and the turns of the polling loop. *)
Record wait : Type := { w_t0 : float; w_turns : list turn }.

(** What one pass of the loop of [main] computes before it prints:
    [before], [ok, ack_angles] (as one outcome), [sent], [after] and, when
    both attitudes were read, [(dy, dp)]. *)
Record pass : Type := {
  before : outcome angles;
  ack_angles : outcome angles;
  sent_angles : float * float;
  after : outcome angles;
  delta : option (float * float)
}.

(** One pass of the [while True] loop of [main] for a yaw and a pitch that
    [ask_float] returned: the three requests, each followed by the
    increment of [seq]. *)
Definition main_pass (seq : Z) (yaw pitch : float) (w1 w2 w3 : wait)
  : result (Z * pass) :=
  before <- request_attitude seq (w_t0 w1) (w_turns w1) ;;
  let seq := next_seq seq in
  s <- set_angles_with_ack seq yaw pitch (w_t0 w2) (w_turns w2) ;;
  let seq := next_seq seq in
  after <- request_attitude seq (w_t0 w3) (w_turns w3) ;;
  let seq := next_seq seq in
  let delta :=
    match answer after, answer before with
    | Reply (ay, ap, _), Reply (by_, bp, _) =>
      Some ((ay - by_)%float, (ap - bp)%float)
    | _, _ => None
    end in
  Ok (seq, {| before := answer before; ack_angles := answer (fst s);
              sent_angles := snd s; after := answer after;
              delta := delta |}).

(** The passes of a session, [seq] threaded through them. *)
Fixpoint main_passes (seq : Z)
  (inputs : list (float * float * (wait * wait * wait)))
  : result (Z * list pass) :=
  match inputs with
  | [] => Ok (seq, [])
  | (yaw, pitch, (w1, w2, w3)) :: rest =>
    r <- main_pass seq yaw pitch w1 w2 w3 ;;
    rs <- main_passes (fst r) rest ;;
    Ok (fst rs, snd r :: snd rs)
  end.

(** ** The joystick of [source/hardware/buttons.py] *)

Module JoystickController.

(** An input event of the Sense HAT stick, as [poll] reads it:
    [getattr(event, "action", "")] and [getattr(event, "direction", "")]. *)
Record event : Type := {
  action : String.string;
  direction : String.string
}.

(** The three locals of [poll] before the loop. *)
Definition idle : updates :=
  {| target_delta := 0; zoom_delta := 0; wide := false |}.

(** The body of the [for] loop. *)
Definition handle (st : updates) (e : event) : updates :=
  if negb (String.eqb (action e) "pressed"%string) then st
  else if String.eqb (direction e) "left"%string then
    {| target_delta := target_delta st - 1; zoom_delta := zoom_delta st;
       wide := wide st |}
  else if String.eqb (direction e) "right"%string then
    {| target_delta := target_delta st + 1; zoom_delta := zoom_delta st;
       wide := wide st |}
  else if String.eqb (direction e) "up"%string then
    {| target_delta := target_delta st; zoom_delta := zoom_delta st + 1;
       wide := wide st |}
  else if String.eqb (direction e) "down"%string then
    {| target_delta := target_delta st; zoom_delta := zoom_delta st - 1;
       wide := wide st |}
  else if String.eqb (direction e) "middle"%string then
    {| target_delta := target_delta st; zoom_delta := zoom_delta st;
       wide := true |}
  else st.

(** [poll()]; [hat] is [None] when the controller has no Sense HAT, and
    else the events that [hat.stick.get_events()] returns. *)
Definition poll (enabled : bool) (hat : option (list event)) : updates :=
  match hat with
  | None => idle
  | Some events =>
    if negb enabled then idle else fold_left handle events idle
  end.

End JoystickController.

(** The number of events of a batch that are presses in direction [d]. *)
Definition presses (d : String.string)
  (events : list JoystickController.event) : Z :=
  Z.of_nat
    (length
       (filter (fun e =>
                  String.eqb (JoystickController.action e) "pressed"%string &&
                  String.eqb (JoystickController.direction e) d) events)).

(** ** The radar of [source/hardware/display.py] *)

Module VisualRadar.

(** An RGB colour. *)
Definition colour : Type := (Z * Z * Z)%type.

Definition black : colour := (0, 0, 0).
Definition white : colour := (255, 255, 255).
Definition red : colour := (255, 0, 0).

(** [_map_to_matrix(x, y, frame_w, frame_h)], for float coordinates and
    the integer size of the frame. *)
Definition _map_to_matrix (x y : float) (frame_w frame_h : Z)
  : result (Z * Z) :=
  if (frame_w <=? 0) || (frame_h <=? 0) then Ok (0, 0)
  else
    wf <- float_of_int frame_w ;;
    qx <- truediv x wf ;;
    col <- py_int (qx * 7)%float ;;
    hf <- float_of_int frame_h ;;
    qy <- truediv y hf ;;
    row <- py_int (qy * 7)%float ;;
    let col := Z.max 0 (Z.min 7 col) in
    let row := Z.max 0 (Z.min 7 row) in
    Ok (col, row).

(** [pixels[i] = c] on a list: a negative index counts from the end, and
    an index that is out of range raises [IndexError]. *)
Fixpoint replace_nth {A} (l : list A) (n : nat) (c : A) : list A :=
  match l, n with
  | [], _ => []
  | _ :: rest, O => c :: rest
  | a :: rest, S n' => a :: replace_nth rest n' c
  end.

Definition setitem {A} (l : list A) (i : Z) (c : A) : result (list A) :=
  let len := Z.of_nat (length l) in
  if (0 <=? i) && (i <? len) then Ok (replace_nth l (Z.to_nat i) c)
  else if (- len <=? i) && (i <? 0) then
    Ok (replace_nth l (Z.to_nat (len + i)) c)
  else Raised IndexError.

(** The loop of [update], [idx] counting the targets. *)
Fixpoint draw (targets : list target) (idx : Z) (active_id : option Z)
  (frame_w frame_h : Z) (pixels : list colour) : result (list colour) :=
  match targets with
  | [] => Ok pixels
  | target :: rest =>
    let bbox := t_bbox target in
    if (length bbox <? 4)%nat
    then draw rest (idx + 1) active_id frame_w frame_h pixels
    else
      b0 <- index bbox 0 ;; b2 <- index bbox 2 ;;
      let cx := ((b0 + b2) / 2)%float in
      b1 <- index bbox 1 ;; b3 <- index bbox 3 ;;
      let cy := ((b1 + b3) / 2)%float in
      cell <- _map_to_matrix cx cy frame_w frame_h ;;
      let '(col, row) := cell in
      let key := match t_id target with Some k => k | None => idx end in
      let color :=
        if match active_id with Some a => key =? a | None => false end
        then red else white in
      pixels <- setitem pixels (row * 8 + col) color ;;
      draw rest (idx + 1) active_id frame_w frame_h pixels
  end.

(** [update(targets, active_id, frame_w, frame_h)]: [None] when the radar
    is disabled or has no hat, and else the list handed to
    [hat.set_pixels]. *)
Definition update (enabled has_hat : bool) (targets : list target)
  (active_id : option Z) (frame_w frame_h : Z)
  : result (option (list colour)) :=
  if negb enabled || negb has_hat then Ok None
  else
    pixels <- draw targets 0 active_id frame_w frame_h (repeat black 64) ;;
    Ok (Some pixels).

End VisualRadar.

(** The three colours of the radar. *)
Definition shown (c : VisualRadar.colour) : Prop :=
  c = VisualRadar.black \/ c = VisualRadar.white \/ c = VisualRadar.red.

(** ** The frame rate of [source/vision/ptz.py] *)

(** The two fields of [PTZPipeline] that [_update_fps] reads and writes. *)
Record fps_state : Type := {
  _fps : float;
  _last_ts : option float
}.

(** [__init__]: [self._fps = 0.0] and [self._last_ts = None]. *)
Definition fps_init : fps_state := {| _fps := 0; _last_ts := None |}.

(** [_update_fps()], [now] being what [time.time()] returns; 0.9 and 0.1
    are the binary64 values of the two literals. *)
Definition _update_fps (now : float) (self : fps_state) : result fps_state :=
  match _last_ts self with
  | None => Ok {| _fps := _fps self; _last_ts := Some now |}
  | Some last =>
    let dt := (now - last)%float in
    if (dt <=? 0)%float then Ok self
    else
      instant <- truediv 1 dt ;;
      if (_fps self <=? 0)%float
      then Ok {| _fps := instant; _last_ts := Some now |}
      else Ok {| _fps := (_fps self * 0x1.ccccccccccccdp-1
                          + instant * 0x1.999999999999ap-4)%float;
                 _last_ts := Some now |}
  end.

(** A reading of the clock: a float that is neither a NaN nor infinite. *)
Definition clock (x : float) : Prop :=
  match Prim2SF x with
  | S754_zero _ | S754_finite _ _ _ => True
  | _ => False
  end.

(** The invariant of the frame rate: it is a number, not below zero, and
    the last timestamp is a reading of the clock. *)
Definition fps_ok (self : fps_state) : Prop :=
  (0 <=? _fps self)%float = true /\
  forall last, _last_ts self = Some last -> clock last.

(** A value with its sign bit clear, or a zero. *)
Definition nonneg_sf (x : spec_float) : Prop :=
  match x with
  | S754_zero _ | S754_infinity false | S754_finite false _ _ => True
  | _ => False
  end.

(** [P i] for the [n] integers from [i] on. *)
Fixpoint all_from (P : Z -> bool) (i : Z) (n : nat) : bool :=
  match n with
  | O => true
  | S n' => P i && all_from P (i + 1) n'
  end.

(* ================================================================== *)
(** * Properties *)

(** ** Bytes and [struct] *)

Lemma byte_val_range (b : byte) : 0 <= byte_val b < 256.
Proof.
  unfold byte_val. pose proof (Byte.to_N_bounded b). lia.
Qed.

Lemma byte_val_of (z : Z) : 0 <= z < 256 -> byte_val (byte_of z) = z.
Proof.
  intros Hz. unfold byte_val, byte_of.
  destruct (Byte.of_N (Z.to_N z)) as [b|] eqn:E.
  - apply Byte.to_of_N in E. rewrite E. lia.
  - apply Byte.of_N_None_iff in E. lia.
Qed.

Lemma byte_of_val (b : byte) : byte_of (byte_val b) = b.
Proof.
  unfold byte_val, byte_of. rewrite N2Z.id, Byte.of_to_N. reflexivity.
Qed.

Lemma bytes_eqb_eq (a b : bytes) : bytes_eqb a b = true <-> a = b.
Proof.
  revert b. induction a as [|x a IH]; intros [|y b]; simpl; try easy.
  rewrite andb_true_iff, IH. split.
  - intros [H1 ->]. apply Byte.byte_dec_bl in H1. now subst.
  - intros H. inversion H; subst. split; [now apply Byte.byte_dec_lb|easy].
Qed.

Lemma land_255_range (v : Z) : 0 <= Z.land v 255 < 256.
Proof.
  change 255 with (Z.ones 8). rewrite Z.land_ones by lia.
  apply Z.mod_pos_bound. lia.
Qed.

Lemma shiftr_8_range (v : Z) : 0 <= v <= 65535 -> 0 <= Z.shiftr v 8 < 256.
Proof.
  intros H. rewrite Z.shiftr_div_pow2 by lia. change (2 ^ 8) with 256.
  split; [apply Z.div_pos; lia | apply Z.div_lt_upper_bound; lia].
Qed.

Lemma lor_split_16 (v : Z) :
  Z.lor (Z.land v 255) (Z.shiftl (Z.shiftr v 8) 8) = v.
Proof.
  change 255 with (Z.ones 8).
  rewrite <- Z.ldiff_ones_r by lia.
  rewrite Z.lor_comm. apply Z.lor_ldiff_and.
Qed.

Lemma pack_H_ok (v : Z) :
  0 <= v <= 65535 ->
  pack_H v = Ok [byte_of (Z.land v 255); byte_of (Z.shiftr v 8)].
Proof.
  intros H. unfold pack_H.
  replace ((0 <=? v) && (v <=? 65535)) with true; [reflexivity|].
  symmetry. apply andb_true_iff. split; apply Z.leb_le; lia.
Qed.

Lemma unpack_pack_H (v : Z) :
  0 <= v <= 65535 ->
  unpack_H [byte_of (Z.land v 255); byte_of (Z.shiftr v 8)] = Ok v.
Proof.
  intros H. unfold unpack_H.
  rewrite !byte_val_of by (apply land_255_range || now apply shiftr_8_range).
  now rewrite lor_split_16.
Qed.

Lemma pack_B_ok (v : Z) : 0 <= v <= 255 -> pack_B v = Ok [byte_of v].
Proof.
  intros H. unfold pack_B.
  replace ((0 <=? v) && (v <=? 255)) with true; [reflexivity|].
  symmetry. apply andb_true_iff. split; apply Z.leb_le; lia.
Qed.

(** ** The checksum *)

Lemma crc16_xmodem_range (data : bytes) (init : Z) :
  0 <= crc16_xmodem data init <= 65535.
Proof.
  unfold crc16_xmodem. generalize (fold_left crc_byte data (Z.land init 0xFFFF)).
  intros c. change (Z.land c 0xFFFF) with (Z.land c (Z.ones 16)).
  rewrite (Z.land_ones _ 16) by lia. change (2 ^ 16) with 65536.
  pose proof (Z.mod_pos_bound c 65536). lia.
Qed.

(** ** Encoding then decoding *)

Lemma build_packet_ok (cmd_id : Z) (data : bytes) (seq : Z) (need_ack : bool) :
  0 <= cmd_id <= 255 -> Z.of_nat (length data) <= 65535 -> 0 <= seq <= 65535 ->
  let n := Z.of_nat (length data) in
  let body :=
    [x55; x66; byte_of (if need_ack then 1 else 0);
     byte_of (Z.land n 255); byte_of (Z.shiftr n 8);
     byte_of (Z.land seq 255); byte_of (Z.shiftr seq 8);
     byte_of cmd_id] ++ data in
  let crc := crc16_xmodem body 0 in
  build_packet cmd_id data seq need_ack
  = Ok (body ++ [byte_of (Z.land crc 255); byte_of (Z.shiftr crc 8)]).
Proof.
  intros Hc Hd Hs n body crc. unfold build_packet, pack_BHHB. fold n.
  rewrite pack_B_ok by (destruct need_ack; lia).
  rewrite (pack_H_ok n) by (unfold n; lia).
  rewrite (pack_H_ok seq), (pack_B_ok cmd_id) by lia.
  cbn [bind app STX]. fold body. fold crc.
  rewrite pack_H_ok by apply crc16_xmodem_range.
  reflexivity.
Qed.

Lemma suffix_app {A} (l t : list A) : suffix (length t) (l ++ t) = t.
Proof.
  unfold suffix. rewrite length_app, Nat.add_sub.
  rewrite skipn_app, Nat.sub_diag, skipn_all. reflexivity.
Qed.

Lemma drop_last_app {A} (l t : list A) : drop_last (length t) (l ++ t) = l.
Proof.
  unfold drop_last. rewrite length_app, Nat.add_sub.
  rewrite firstn_app, Nat.sub_diag, firstn_all. cbn. apply app_nil_r.
Qed.

Lemma parse_fields_build (cmd_id : Z) (data : bytes) (seq : Z) (need_ack : bool) :
  0 <= cmd_id <= 255 -> Z.of_nat (length data) <= 65535 -> 0 <= seq <= 65535 ->
  exists pkt,
    build_packet cmd_id data seq need_ack = Ok pkt /\
    parse_fields pkt
    = Ok (Some {| f_ctrl := if need_ack then 1 else 0;
                  f_data_len := Z.of_nat (length data);
                  f_seq := seq; f_cmd_id := cmd_id; f_data := data |}).
Proof.
  intros Hc Hd Hs. eexists. split; [now apply build_packet_ok|].
  set (n := Z.of_nat (length data)).
  set (body := _ ++ data).
  set (crc := crc16_xmodem body 0).
  assert (Hcrc : 0 <= crc <= 65535) by apply crc16_xmodem_range.
  unfold parse_fields.
  assert (Hlen : (length (body ++ [byte_of (Z.land crc 255); byte_of (Z.shiftr crc 8)]) <? 10)%nat = false).
  { apply Nat.ltb_ge. rewrite length_app. unfold body. rewrite length_app. cbn. lia. }
  rewrite Hlen. cbn [orb].
  replace (bytes_eqb _ STX) with true by reflexivity. cbn [negb].
  rewrite (suffix_app body [_; _]), (drop_last_app body [_; _]).
  rewrite unpack_pack_H by assumption. cbn [bind]. fold crc.
  rewrite Z.eqb_refl. cbn [negb].
  unfold body. cbn [app index nth_error bind slice skipn firstn Nat.sub].
  rewrite (unpack_pack_H n) by (unfold n; lia).
  rewrite (unpack_pack_H seq) by lia. cbn [bind].
  rewrite !byte_val_of by (destruct need_ack; lia).
  repeat f_equal.
  unfold slice. cbn [skipn].
  replace (8 + Z.to_nat n - 8)%nat with (length data) by (unfold n; lia).
  rewrite firstn_app, Nat.sub_diag, firstn_all. cbn. apply app_nil_r.
Qed.

(** ** Comparing floats through their keys *)

Lemma digits2_pos_size (m : positive) : digits2_pos m = Pos.size m.
Proof. induction m; simpl; congruence. Qed.

Lemma valid_finite_bounds (s : bool) (m : positive) (e : Z) :
  valid_binary (S754_finite s m e) = true ->
  -1074 <= e <= 971 /\ Zpos m < 2 ^ 53.
Proof.
  cbn [SpecFloat.valid_binary]. unfold bounded, canonical_mantissa, fexp, SpecFloat.emin.
  rewrite andb_true_iff, Z.eqb_eq, Z.leb_le, digits2_pos_size.
  change (3 - emax - prec) with (-1074). change (emax - prec) with 971.
  change prec with 53.
  intros [Hc He].
  assert (Hd : Zpos (Pos.size m) <= 53) by lia.
  split; [lia|].
  pose proof (Pos.size_gt m) as Hg.
  apply Pos2Z.pos_lt_pos in Hg. rewrite Pos2Z.inj_pow in Hg.
  eapply Z.lt_le_trans; [exact Hg|].
  apply Z.pow_le_mono_r; lia.
Qed.

Lemma sf_compare_key (x y : spec_float) :
  valid_binary x = true -> valid_binary y = true ->
  SFcompare x y =
  match sf_key x, sf_key y with
  | Some a, Some b => Some (a ?= b)
  | _, _ => None
  end.
Proof.
  intros Hx Hy.
  assert (P53 : 2 ^ 53 = 9007199254740992) by reflexivity.
  destruct x as [sx|sx| |sx mx ex], y as [sy|sy| |sy my ey];
    try (apply valid_finite_bounds in Hx); try (apply valid_finite_bounds in Hy);
    cbn [SFcompare sf_key]; try reflexivity;
    repeat match goal with s : bool |- _ => destruct s end;
    cbn [cond_Zopp]; rewrite ?P53 in *;
    try (f_equal; symmetry;
         first [ apply Z.compare_eq_iff; lia
               | apply Z.compare_lt_iff; lia
               | apply Z.compare_gt_iff; lia ]).
  - (* both negative: the larger magnitude is the smaller value *)
    f_equal. destruct (Z.compare_spec ex ey) as [E|E|E]; symmetry.
    + subst. change (Pos.compare_cont Eq mx my) with (Pos.compare mx my).
      destruct (Pos.compare_spec mx my); unfold CompOpp;
        [apply Z.compare_eq_iff | apply Z.compare_gt_iff | apply Z.compare_lt_iff]; lia.
    + apply Z.compare_gt_iff. lia.
    + apply Z.compare_lt_iff. lia.
  - (* both positive: exponent first, then mantissa *)
    f_equal. destruct (Z.compare_spec ex ey) as [E|E|E]; symmetry.
    + subst. change (Pos.compare_cont Eq mx my) with (Pos.compare mx my).
      destruct (Pos.compare_spec mx my);
        [apply Z.compare_eq_iff | apply Z.compare_lt_iff | apply Z.compare_gt_iff]; lia.
    + apply Z.compare_lt_iff. lia.
    + apply Z.compare_gt_iff. lia.
Qed.

Lemma ltb_key (x y : float) :
  (x <? y)%float =
  match fkey x, fkey y with
  | Some a, Some b => a <? b
  | _, _ => false
  end.
Proof.
  rewrite ltb_spec. unfold SFltb, fkey.
  rewrite sf_compare_key by apply Prim2SF_valid.
  destruct (sf_key (Prim2SF x)) as [a|], (sf_key (Prim2SF y)) as [b|]; try reflexivity.
Qed.

Lemma leb_key (x y : float) :
  (x <=? y)%float =
  match fkey x, fkey y with
  | Some a, Some b => a <=? b
  | _, _ => false
  end.
Proof.
  rewrite leb_spec. unfold SFleb, fkey.
  rewrite sf_compare_key by apply Prim2SF_valid.
  destruct (sf_key (Prim2SF x)) as [a|], (sf_key (Prim2SF y)) as [b|]; try reflexivity.
Qed.

Lemma eqb_key (x y : float) :
  (x =? y)%float =
  match fkey x, fkey y with
  | Some a, Some b => a =? b
  | _, _ => false
  end.
Proof.
  rewrite eqb_spec. unfold SFeqb, fkey.
  rewrite sf_compare_key by apply Prim2SF_valid.
  destruct (sf_key (Prim2SF x)) as [a|], (sf_key (Prim2SF y)) as [b|]; try reflexivity.
  rewrite Z.eqb_compare. now destruct (a ?= b).
Qed.

(** The keys of the constants of the program. *)
Lemma fkey_zero : fkey 0 = Some 0.
Proof. reflexivity. Qed.

Lemma fkey_NO_ZOOM : fkey NO_ZOOM = Some 9218913473223679017.
Proof. reflexivity. Qed.

Lemma fkey_YAW_MAX : fkey YAW_MAX = Some 9282165122615214080.
Proof. reflexivity. Qed.

Lemma fkey_YAW_MIN : fkey YAW_MIN = Some (-9282165122615214080).
Proof. reflexivity. Qed.

Lemma fkey_PITCH_MAX : fkey PITCH_MAX = Some 9265734020849729536.
Proof. reflexivity. Qed.

Lemma fkey_PITCH_MIN : fkey PITCH_MIN = Some (-9274741220104470528).
Proof. reflexivity. Qed.

Create Rewrite HintDb fkeys.
#[local] Hint Rewrite fkey_zero fkey_NO_ZOOM fkey_YAW_MAX fkey_YAW_MIN
  fkey_PITCH_MAX fkey_PITCH_MIN : fkeys.

(** Turns every float comparison of the goal and of the context into a
    comparison of keys, and leaves the arithmetic to [lia]. *)
Ltac float_order :=
  rewrite ?ltb_key, ?leb_key, ?eqb_key in *;
  autorewrite with fkeys in *;
  repeat match goal with
         | |- context [fkey ?x] => destruct (fkey x)
         | H : context [fkey ?x] |- _ => destruct (fkey x)
         end;
  rewrite ?Z.ltb_lt, ?Z.leb_le, ?Z.eqb_eq, ?Z.ltb_ge, ?Z.leb_gt, ?Z.eqb_neq in *;
  try discriminate; try reflexivity; try lia.

Lemma ltb_leb (x y : float) : (x <? y)%float = true -> (x <=? y)%float = true.
Proof. intros H. float_order. Qed.

Lemma leb_refl_l (x y : float) : (x <=? y)%float = true -> (x <=? x)%float = true.
Proof. intros H. float_order. Qed.

Lemma leb_refl_r (x y : float) : (x <=? y)%float = true -> (y <=? y)%float = true.
Proof. intros H. float_order. Qed.

Lemma length_2_inv {A} (l : list A) :
  length l = 2%nat -> exists a b, l = [a; b].
Proof.
  destruct l as [|a [|b [|c l]]]; cbn; try discriminate. eauto.
Qed.

Lemma unpack_H_total (bs : bytes) :
  length bs = 2%nat -> exists v, unpack_H bs = Ok v /\ 0 <= v <= 65535.
Proof.
  intros H. destruct (length_2_inv bs H) as (a & b & ->).
  eexists. split; [reflexivity|].
  pose proof (byte_val_range a) as Ha. pose proof (byte_val_range b) as Hb.
  assert (Hs : 0 <= Z.shiftl (byte_val b) 8 < 65536).
  { rewrite Z.shiftl_mul_pow2 by lia. change (2 ^ 8) with 256. lia. }
  split; [apply Z.lor_nonneg; lia|].
  destruct (Z.eq_dec (Z.lor (byte_val a) (Z.shiftl (byte_val b) 8)) 0) as [E|E];
    [rewrite E; lia|].
  assert (Hpos : 0 < Z.lor (byte_val a) (Z.shiftl (byte_val b) 8)).
  { pose proof (proj2 (Z.lor_nonneg (byte_val a) (Z.shiftl (byte_val b) 8))). lia. }
  enough (Z.lor (byte_val a) (Z.shiftl (byte_val b) 8) < 2 ^ 16)
    by (change (2 ^ 16) with 65536 in *; lia).
  apply Z.log2_lt_pow2; [exact Hpos|].
  rewrite Z.log2_lor by lia.
  apply Z.max_lub_lt.
  - destruct (Z.eq_dec (byte_val a) 0) as [->|Ha0]; [cbn; lia|].
    apply Z.log2_lt_pow2; [lia|]. change (2 ^ 16) with 65536. lia.
  - destruct (Z.eq_dec (Z.shiftl (byte_val b) 8) 0) as [->|Hb0]; [cbn; lia|].
    apply Z.log2_lt_pow2; [lia|]. change (2 ^ 16) with 65536. lia.
Qed.

Lemma length_slice {A} (lo hi : nat) (l : list A) :
  length (slice lo hi l) = Nat.min (hi - lo) (length l - lo).
Proof. unfold slice. now rewrite length_firstn, length_skipn. Qed.

Lemma index_total {A} (l : list A) (i : nat) :
  (i < length l)%nat -> exists a, index l i = Ok a.
Proof.
  intros H. unfold index. destruct (nth_error l i) eqn:E; [eauto|].
  apply nth_error_None in E. lia.
Qed.

Lemma parse_fields_spec (raw : bytes) :
  (not_a_frame raw /\ parse_fields raw = Ok None) \/
  (~ not_a_frame raw /\
   exists ctrl data_len seq cmd_id,
     index raw 2 = Ok ctrl /\
     unpack_H (slice 3 5 raw) = Ok data_len /\
     unpack_H (slice 5 7 raw) = Ok seq /\
     index raw 7 = Ok cmd_id /\
     parse_fields raw
     = Ok (Some {| f_ctrl := byte_val ctrl; f_data_len := data_len;
                   f_seq := seq; f_cmd_id := byte_val cmd_id;
                   f_data := slice 8 (8 + Z.to_nat data_len) raw |})).
Proof.
  unfold parse_fields, not_a_frame.
  destruct (Nat.ltb_spec (length raw) 10) as [Hlen|Hlen]; cbn [orb].
  { left. split; [now left | reflexivity]. }
  destruct (bytes_eqb (slice 0 2 raw) STX) eqn:Hstx; cbn [negb].
  2:{ left. split; [|reflexivity]. right. left. intros E.
      apply bytes_eqb_eq in E. congruence. }
  apply bytes_eqb_eq in Hstx.
  destruct (unpack_H_total (suffix 2 raw)) as (recv & Hrecv & _).
  { unfold suffix. rewrite length_skipn. lia. }
  rewrite Hrecv. cbn [bind].
  destruct (Z.eqb_spec recv (crc16_xmodem (drop_last 2 raw) 0)) as [Hcrc|Hcrc];
    cbn [negb].
  2:{ left. split; [|reflexivity]. right. right. congruence. }
  right. split; [intros [H|[H|H]]; [lia | congruence | congruence]|].
  destruct (index_total raw 2) as (ctrl & Hctrl); [lia|].
  destruct (index_total raw 7) as (cmd & Hcmd); [lia|].
  destruct (unpack_H_total (slice 3 5 raw)) as (dl & Hdl & _).
  { rewrite length_slice. lia. }
  destruct (unpack_H_total (slice 5 7 raw)) as (sq & Hsq & _).
  { rewrite length_slice. lia. }
  exists ctrl, dl, sq, cmd. rewrite Hctrl, Hdl, Hsq, Hcmd. cbn [bind].
  repeat split; reflexivity.
Qed.

(** ** The checksum is linear, and its shift step loses nothing *)

Definition word16 (c : Z) : Prop := 0 <= c < 65536.

Lemma land_0x8000 (c : Z) :
  Z.land c 0x8000 = if Z.testbit c 15 then 0x8000 else 0.
Proof.
  apply Z.bits_inj'. intros n Hn. rewrite Z.land_spec.
  change 0x8000 with (2 ^ 15). rewrite Z.pow2_bits_eqb by lia.
  destruct (Z.eqb_spec 15 n) as [<-|Hne].
  - rewrite andb_true_r. destruct (Z.testbit c 15) eqn:E.
    + now rewrite Z.pow2_bits_true by lia.
    + now rewrite Z.bits_0.
  - rewrite andb_false_r. destruct (Z.testbit c 15).
    + rewrite Z.pow2_bits_false by lia. reflexivity.
    + now rewrite Z.bits_0.
Qed.

Lemma crc_shift_lxor_form (c : Z) :
  crc_shift c =
  Z.lxor (Z.land (Z.shiftl c 1) 0xFFFF) (if Z.testbit c 15 then 0x1021 else 0).
Proof.
  unfold crc_shift. rewrite land_0x8000.
  destruct (Z.testbit c 15); cbn [negb Z.eqb]; [reflexivity|].
  now rewrite Z.lxor_0_r.
Qed.

Lemma land_0xFFFF_word (c : Z) : word16 (Z.land c 0xFFFF).
Proof.
  unfold word16. change 0xFFFF with (Z.ones 16).
  rewrite Z.land_ones by lia. change (2 ^ 16) with 65536.
  pose proof (Z.mod_pos_bound c 65536). lia.
Qed.

Lemma word16_land (c : Z) : word16 c -> Z.land c 0xFFFF = c.
Proof.
  unfold word16. intros H. change 0xFFFF with (Z.ones 16).
  rewrite Z.land_ones by lia. apply Z.mod_small. exact H.
Qed.

Lemma land_lxor_distr (a b c : Z) :
  Z.land (Z.lxor a b) c = Z.lxor (Z.land a c) (Z.land b c).
Proof.
  apply Z.bits_inj'. intros n Hn.
  rewrite !Z.lxor_spec, !Z.land_spec, Z.lxor_spec.
  now destruct (Z.testbit a n), (Z.testbit b n), (Z.testbit c n).
Qed.

Lemma word16_lxor (a b : Z) : word16 a -> word16 b -> word16 (Z.lxor a b).
Proof.
  intros Ha Hb.
  rewrite <- (word16_land a Ha), <- (word16_land b Hb).
  rewrite <- land_lxor_distr. apply land_0xFFFF_word.
Qed.

Lemma crc_shift_word (c : Z) : word16 (crc_shift c).
Proof.
  rewrite crc_shift_lxor_form. apply word16_lxor.
  - apply land_0xFFFF_word.
  - unfold word16. destruct (Z.testbit c 15); lia.
Qed.

Lemma crc_shift_lxor (a b : Z) :
  crc_shift (Z.lxor a b) = Z.lxor (crc_shift a) (crc_shift b).
Proof.
  rewrite !crc_shift_lxor_form, Z.shiftl_lxor, land_lxor_distr, Z.lxor_spec.
  apply Z.bits_inj'. intros n Hn. rewrite !Z.lxor_spec.
  destruct (Z.testbit a 15), (Z.testbit b 15); cbn [xorb];
    rewrite ?Z.bits_0;
    destruct (Z.testbit (Z.land (Z.shiftl a 1) 0xFFFF) n),
             (Z.testbit (Z.land (Z.shiftl b 1) 0xFFFF) n),
             (Z.testbit 0x1021 n); reflexivity.
Qed.

Lemma word16_low_half (c : Z) :
  word16 c -> Z.testbit c 15 = false -> c < 32768.
Proof.
  unfold word16. intros Hc Hb.
  rewrite Z.testbit_odd, Z.shiftr_div_pow2 in Hb by lia.
  change (2 ^ 15) with 32768 in Hb.
  pose proof (Z.div_mod c 32768 ltac:(lia)) as Hdm.
  pose proof (Z.mod_pos_bound c 32768 ltac:(lia)) as Hm.
  assert (Hq : c / 32768 = 0 \/ c / 32768 = 1) by lia.
  destruct Hq as [Hq|Hq]; rewrite Hq in *; [lia | discriminate].
Qed.

Lemma crc_shift_zero (c : Z) : word16 c -> crc_shift c = 0 -> c = 0.
Proof.
  intros Hc H. rewrite crc_shift_lxor_form in H.
  destruct (Z.testbit c 15) eqn:E.
  - exfalso. apply (f_equal (fun z => Z.testbit z 0)) in H.
    rewrite Z.lxor_spec, Z.land_spec, Z.shiftl_spec_low, Z.bits_0 in H by lia.
    discriminate.
  - rewrite Z.lxor_0_r in H.
    pose proof (word16_low_half c Hc E) as Hl. unfold word16 in Hc.
    change 0xFFFF with (Z.ones 16) in H. rewrite Z.land_ones in H by lia.
    rewrite Z.shiftl_mul_pow2 in H by lia. change (2 ^ 16) with 65536 in H.
    rewrite Z.mod_small in H by lia. lia.
Qed.

Lemma iter_crc_shift_word (n : nat) (c : Z) :
  word16 c -> word16 (Nat.iter n crc_shift c).
Proof.
  intros H. destruct n; [exact H | rewrite Nat.iter_succ; apply crc_shift_word].
Qed.

Lemma iter_crc_shift_lxor (n : nat) (a b : Z) :
  Nat.iter n crc_shift (Z.lxor a b)
  = Z.lxor (Nat.iter n crc_shift a) (Nat.iter n crc_shift b).
Proof.
  induction n as [|n IH]; [reflexivity|].
  rewrite !Nat.iter_succ. now rewrite IH, crc_shift_lxor.
Qed.

Lemma iter_crc_shift_zero (n : nat) (c : Z) :
  word16 c -> Nat.iter n crc_shift c = 0 -> c = 0.
Proof.
  intros Hc. induction n as [|n IH]; [easy|].
  rewrite Nat.iter_succ. intros H. apply IH.
  apply crc_shift_zero; [now apply iter_crc_shift_word | exact H].
Qed.

(** A nonzero difference between two running checksums stays nonzero
    through every further byte. *)
Lemma crc_byte_lxor (c d : Z) (b : byte) :
  crc_byte (Z.lxor c d) b = Z.lxor (crc_byte c b) (Nat.iter 8 crc_shift d).
Proof.
  unfold crc_byte.
  rewrite <- iter_crc_shift_lxor. f_equal.
  rewrite !Z.lxor_assoc. f_equal. apply Z.lxor_comm.
Qed.

Lemma crc_byte_word (c : Z) (b : byte) : word16 c -> word16 (crc_byte c b).
Proof.
  intros Hc. unfold crc_byte. apply iter_crc_shift_word.
  apply word16_lxor; [exact Hc | apply land_0xFFFF_word].
Qed.

Lemma fold_crc_byte_word (l : bytes) (c : Z) :
  word16 c -> word16 (fold_left crc_byte l c).
Proof.
  revert c. induction l as [|b l IH]; intros c Hc; [exact Hc|].
  cbn [fold_left]. apply IH. now apply crc_byte_word.
Qed.

Lemma fold_crc_byte_lxor (l : bytes) (c d : Z) :
  word16 d -> d <> 0 ->
  exists d', word16 d' /\ d' <> 0 /\
    fold_left crc_byte l (Z.lxor c d) = Z.lxor (fold_left crc_byte l c) d'.
Proof.
  revert c d. induction l as [|b l IH]; intros c d Hd Hnz.
  - exists d. now cbn.
  - cbn [fold_left]. rewrite crc_byte_lxor.
    apply IH; [now apply iter_crc_shift_word|].
    intros H. apply Hnz. now apply (iter_crc_shift_zero 8).
Qed.

Lemma byte_val_flip (b : byte) (k : nat) :
  (k < 8)%nat ->
  byte_val (flip_in_byte b k)
  = Z.lxor (byte_val b) (Z.shiftl 1 (Z.of_nat k)).
Proof.
  intros Hk. unfold flip_in_byte. apply byte_val_of.
  pose proof (byte_val_range b) as Hb.
  assert (Hw : forall z, 0 <= z < 256 -> Z.land z 255 = z).
  { intros z Hz. change 255 with (Z.ones 8). rewrite Z.land_ones by lia.
    apply Z.mod_small. exact Hz. }
  assert (Hbit : 0 <= Z.shiftl 1 (Z.of_nat k) < 256).
  { rewrite Z.shiftl_1_l. split; [apply Z.pow_nonneg; lia|].
    change 256 with (2 ^ 8). apply Z.pow_lt_mono_r; lia. }
  rewrite <- (Hw _ Hb), <- (Hw _ Hbit), <- land_lxor_distr.
  apply land_255_range.
Qed.

Lemma crc_byte_flip (c : Z) (b : byte) (k : nat) :
  (k < 8)%nat ->
  exists d, word16 d /\ d <> 0 /\
    crc_byte c (flip_in_byte b k) = Z.lxor (crc_byte c b) d.
Proof.
  intros Hk.
  set (e := Z.shiftl 1 (Z.of_nat k + 8)).
  assert (He : word16 e /\ e <> 0).
  { unfold e, word16. rewrite Z.shiftl_1_l.
    assert (0 < 2 ^ (Z.of_nat k + 8)) by (apply Z.pow_pos_nonneg; lia).
    assert (2 ^ (Z.of_nat k + 8) < 2 ^ 16) by (apply Z.pow_lt_mono_r; lia).
    change (2 ^ 16) with 65536 in *. lia. }
  destruct He as [Hw Hnz].
  exists (Nat.iter 8 crc_shift e). split; [now apply iter_crc_shift_word|].
  split; [intros H; apply Hnz; now apply (iter_crc_shift_zero 8)|].
  unfold crc_byte. rewrite byte_val_flip by exact Hk.
  rewrite <- iter_crc_shift_lxor. f_equal.
  rewrite Z.shiftl_lxor, land_lxor_distr, Z.shiftl_shiftl by lia.
  fold e. rewrite (word16_land e Hw). symmetry. apply Z.lxor_assoc.
Qed.

Lemma lxor_nonzero_neq (x d : Z) : d <> 0 -> Z.lxor x d <> x.
Proof.
  intros Hd H. apply Hd.
  rewrite <- (Z.lxor_nilpotent x), <- H at 1.
  rewrite Z.lxor_assoc, (Z.lxor_comm d), <- Z.lxor_assoc.
  now rewrite Z.lxor_nilpotent, Z.lxor_0_l.
Qed.

(** Inverting one bit of the checksummed bytes changes the checksum. *)
Lemma crc16_xmodem_flip (l : bytes) (pos k : nat) (init : Z) :
  (pos < length l)%nat -> (k < 8)%nat ->
  crc16_xmodem (flip_bit l pos k) init <> crc16_xmodem l init.
Proof.
  intros Hpos Hk. unfold crc16_xmodem.
  assert (Hi : word16 (Z.land init 0xFFFF)) by apply land_0xFFFF_word.
  revert Hi Hpos. generalize (Z.land init 0xFFFF). revert pos.
  induction l as [|b l IH]; intros pos c Hc Hpos; [cbn in Hpos; lia|].
  destruct pos as [|pos].
  - cbn [flip_bit fold_left].
    destruct (crc_byte_flip c b k Hk) as (d & Hd & Hnz & ->).
    destruct (fold_crc_byte_lxor l (crc_byte c b) d Hd Hnz)
      as (d' & Hd' & Hnz' & ->).
    assert (Hf : word16 (fold_left crc_byte l (crc_byte c b)))
      by (apply fold_crc_byte_word, crc_byte_word, Hc).
    rewrite (word16_land _ (word16_lxor _ _ Hf Hd')), (word16_land _ Hf).
    now apply lxor_nonzero_neq.
  - cbn [flip_bit fold_left]. apply IH.
    + now apply crc_byte_word.
    + cbn in Hpos. lia.
Qed.

(** ** Single-bit corruption *)

Lemma length_flip_bit (l : bytes) (pos k : nat) :
  length (flip_bit l pos k) = length l.
Proof.
  revert pos. induction l as [|b l IH]; intros [|pos]; cbn; auto.
Qed.

Lemma skipn_flip_bit (l : bytes) (n pos k : nat) :
  (pos < n)%nat -> skipn n (flip_bit l pos k) = skipn n l.
Proof.
  revert n pos. induction l as [|b l IH]; intros [|n] [|pos] H; cbn;
    try reflexivity; try lia.
  apply IH. lia.
Qed.

Lemma firstn_flip_bit (l : bytes) (n pos k : nat) :
  (pos < n)%nat -> firstn n (flip_bit l pos k) = flip_bit (firstn n l) pos k.
Proof.
  revert n pos. induction l as [|b l IH]; intros [|n] [|pos] H; cbn;
    try reflexivity; try lia.
  f_equal. apply IH. lia.
Qed.

Lemma accepted_frame (raw : bytes) :
  ~ not_a_frame raw ->
  (10 <= length raw)%nat /\
  unpack_H (suffix 2 raw) = Ok (crc16_xmodem (drop_last 2 raw) 0).
Proof.
  intros Hn. unfold not_a_frame in Hn.
  assert (Hlen : (10 <= length raw)%nat) by lia.
  split; [exact Hlen|].
  destruct (unpack_H_total (suffix 2 raw)) as (v & Hv & _).
  { unfold suffix. rewrite length_skipn. lia. }
  rewrite Hv. f_equal.
  destruct (Z.eq_dec v (crc16_xmodem (drop_last 2 raw) 0)) as [E|E]; [exact E|].
  exfalso. apply Hn. right. right. rewrite Hv. congruence.
Qed.

(** ** Converting small integers to floats *)

Lemma digits2_pos_iter_xO (m : positive) (k : positive) :
  Zpos (digits2_pos (Pos.iter xO m k)) = Zpos (digits2_pos m) + Zpos k.
Proof.
  induction k as [|k IH] using Pos.peano_ind.
  - cbn. lia.
  - rewrite Pos.iter_succ. cbn [digits2_pos]. lia.
Qed.

Lemma digits2_pos_le_53 (m : positive) :
  Zpos m < 2 ^ 53 -> Zpos (digits2_pos m) <= 53.
Proof.
  intros H. rewrite digits2_pos_size.
  destruct (Z.le_gt_cases (Zpos (Pos.size m)) 53) as [Hle|Hgt]; [exact Hle|].
  exfalso.
  pose proof (Pos.size_le m) as Hs.
  assert (Hz : 2 ^ Zpos (Pos.size m) <= Zpos m~0).
  { rewrite <- Pos2Z.inj_pow. apply Pos2Z.pos_le_pos. exact Hs. }
  assert (H54 : 2 ^ 54 <= 2 ^ Zpos (Pos.size m)) by (apply Z.pow_le_mono_r; lia).
  change (2 ^ 54) with (2 * 2 ^ 53) in H54. lia.
Qed.

Lemma shr_fexp_fixed (m : positive) (e : Z) :
  fexp prec emax (Zpos (digits2_pos m) + e) = e ->
  shr_fexp prec emax (Zpos m) e loc_Exact
  = ({| shr_m := Zpos m; shr_r := false; shr_s := false |}, e).
Proof.
  intros H. unfold shr_fexp. cbn [Zdigits2 shr_record_of_loc].
  rewrite H, Z.sub_diag. reflexivity.
Qed.

Lemma binary_round_aux_fixed (s : bool) (m : positive) (e : Z) :
  fexp prec emax (Zpos (digits2_pos m) + e) = e -> e <= 971 ->
  binary_round_aux prec emax s (Zpos m) e loc_Exact = S754_finite s m e.
Proof.
  intros H He. unfold binary_round_aux.
  rewrite (shr_fexp_fixed m e H).
  cbn [shr_m loc_of_shr_record round_nearest_even].
  rewrite (shr_fexp_fixed m e H). cbn [shr_m].
  replace (e <=? emax - prec) with true; [reflexivity|].
  symmetry. apply Z.leb_le. change (emax - prec) with 971. exact He.
Qed.

Lemma binary_round_small (s : bool) (m : positive) :
  Zpos m < 2 ^ 53 ->
  exists m' e', binary_round prec emax s m 0 = S754_finite s m' e'.
Proof.
  intros Hm. pose proof (digits2_pos_le_53 m Hm) as Hd.
  assert (Hpos : 0 < Zpos (digits2_pos m)) by lia.
  unfold binary_round, shl_align.
  assert (Hf : fexp prec emax (Zpos (digits2_pos m) + 0)
               = Zpos (digits2_pos m) - 53).
  { unfold fexp, SpecFloat.emin. change prec with 53. change emax with 1024. lia. }
  rewrite Hf, Z.sub_0_r.
  destruct (Zpos (digits2_pos m) - 53) as [|p|p] eqn:E; try lia.
  - exists m, 0. apply binary_round_aux_fixed; [|lia].
    rewrite Hf. lia.
  - exists (Pos.iter xO m p), (Zneg p). apply binary_round_aux_fixed; [|lia].
    rewrite digits2_pos_iter_xO.
    unfold fexp, SpecFloat.emin. change prec with 53. change emax with 1024. lia.
Qed.

Lemma float_of_int_small (n : Z) :
  Z.abs n < 2 ^ 53 -> exists f, float_of_int n = Ok f.
Proof.
  intros H. unfold float_of_int, binary_normalize.
  destruct n as [|m|m].
  - eexists. reflexivity.
  - destruct (binary_round_small false m) as (m' & e' & ->); [exact H|].
    eexists. reflexivity.
  - destruct (binary_round_small true m) as (m' & e' & ->); [exact H|].
    eexists. reflexivity.
Qed.

(** ** The joystick handler, step by step *)

Lemma joystick_wide_run (u : updates) (self : ptz) :
  joystick_wide u self
  = (if wide u then set_zoom (zoom_min self) (set_force_wide true self)
     else self, Ok tt).
Proof. unfold joystick_wide, when. now destruct (wide u). Qed.

Lemma joystick_zoom_run (u : updates) (self : ptz) :
  joystick_zoom u self
  = if zoom_delta u =? 0 then (self, Ok tt)
    else match float_of_int (zoom_delta u) with
         | Ok d =>
           (set_zoom (py_max (zoom_min self)
                        (py_min (zoom_max self)
                           (zoom self + d * zoom_step self)%float))
              (set_force_wide false self), Ok tt)
         | Raised e => (set_force_wide false self, Raised e)
         end.
Proof.
  unfold joystick_zoom, when.
  destruct (zoom_delta u =? 0); [reflexivity|]. cbn [negb].
  unfold seq, assign, lift, read.
  now destruct (float_of_int (zoom_delta u)).
Qed.

Lemma position_spec (a : Z) (ids : list Z) :
  existsb (Z.eqb a) ids = true ->
  exists i, position a ids = Ok i /\
            nth_error ids i = Some a /\
            forall j, (j < i)%nat -> nth_error ids j <> Some a.
Proof.
  induction ids as [|b ids IH]; cbn [existsb position]; [discriminate|].
  intros H. destruct (Z.eqb_spec b a) as [->|Hne].
  - exists O. repeat split. intros j Hj. lia.
  - rewrite orb_true_iff in H. destruct H as [H|H].
    + apply Z.eqb_eq in H. congruence.
    + destruct (IH H) as (i & Hp & Hn & Hmin). exists (S i).
      rewrite Hp. repeat split; [exact Hn|].
      intros [|j] Hj; cbn; [congruence | apply Hmin; lia].
Qed.

Lemma length_identities_from (idx : Z) (targets : list target) :
  length (identities_from idx targets) = length targets.
Proof.
  revert idx. induction targets as [|t ts IH]; intros idx; cbn; auto.
Qed.

(** The cycling step on a non-empty list, with the joystick pushed. *)
Lemma joystick_target_run (u : updates) (targets : list target) (self : ptz) :
  target_delta u <> 0 -> targets <> [] ->
  let ids := identities targets in
  exists first,
    nth_error ids 0 = Some first /\
    ((contains (active_target_id self) ids = false /\
      joystick_target u targets self
      = (set_active_target_id (Some first) self, Ok tt)) \/
     (contains (active_target_id self) ids = true /\
      exists a i tid,
        active_target_id self = Some a /\
        position a ids = Ok i /\
        nth_error ids i = Some a /\
        (forall j, (j < i)%nat -> nth_error ids j <> Some a) /\
        nth_error ids
          (Z.to_nat ((Z.of_nat i + target_delta u) mod Z.of_nat (length ids)))
        = Some tid /\
        joystick_target u targets self
        = (set_force_wide false (set_active_target_id (Some tid) self),
           Ok tt))).
Proof.
  intros Hd Ht ids.
  assert (Hlen : length ids = length targets)
    by apply length_identities_from.
  assert (Hpos : (0 < length targets)%nat)
    by (destruct targets; [congruence | cbn; lia]).
  destruct ids as [|first rest] eqn:Eids; [cbn in Hlen; lia|].
  exists first. split; [reflexivity|].
  unfold joystick_target, when.
  replace (negb (target_delta u =? 0)) with true
    by (symmetry; apply negb_true_iff, Z.eqb_neq, Hd).
  replace (negb (length targets =? 0)%nat) with true
    by (symmetry; apply negb_true_iff, Nat.eqb_neq; lia).
  cbn [andb]. fold ids. rewrite Eids.
  cbv beta iota delta [seq read lift assign index_of index].
  destruct (contains (active_target_id self) (first :: rest)) eqn:Hc;
    cbn [negb].
  - right. split; [reflexivity|].
    destruct (active_target_id self) as [a|] eqn:Ea; [|discriminate].
    cbn [contains] in Hc.
    destruct (position_spec a _ Hc) as (i & Hp & Hn & Hmin).
    assert (Hi : (i < length (first :: rest))%nat)
      by (apply nth_error_Some; congruence).
    set (new_idx := (Z.of_nat i + target_delta u)
                    mod Z.of_nat (length (first :: rest))).
    assert (Hnew : 0 <= new_idx < Z.of_nat (length (first :: rest)))
      by (apply Z.mod_pos_bound; lia).
    destruct (nth_error (first :: rest) (Z.to_nat new_idx)) as [tid|] eqn:En.
    2:{ apply nth_error_None in En. lia. }
    exists a, i, tid. repeat split; try assumption.
    rewrite Hp. fold new_idx. rewrite En. reflexivity.
  - left. split; reflexivity.
Qed.

Lemma nth_error_identities_from (idx : Z) (targets : list target)
  (i : nat) (t : target) :
  nth_error targets i = Some t ->
  nth_error (identities_from idx targets) i
  = Some (match t_id t with Some tid => tid | None => idx + Z.of_nat i end).
Proof.
  revert idx i. induction targets as [|t0 ts IH]; intros idx [|i] H;
    cbn in H; try discriminate.
  - injection H as ->. cbn. now rewrite Z.add_0_r.
  - cbn [identities_from nth_error]. rewrite (IH (idx + 1) i H).
    destruct (t_id t); f_equal. lia.
Qed.

(** The wide reset and the zoom adjustment end normally when the zoom
    delta converts to a float, and leave the active identity alone. *)
Lemma joystick_wide_zoom_run (u : updates) (self : ptz) :
  Z.abs (zoom_delta u) < 2 ^ 53 ->
  exists s1,
    (joystick_wide u ;;; joystick_zoom u) self = (s1, Ok tt) /\
    active_target_id s1 = active_target_id self.
Proof.
  intros Hz. unfold seq. rewrite joystick_wide_run, joystick_zoom_run.
  destruct (float_of_int_small _ Hz) as (d & ->).
  destruct (zoom_delta u =? 0), (wide u); eexists; split; reflexivity.
Qed.

Lemma apply_joystick_split (u : updates) (targets : list target)
  (self s1 : ptz) :
  (joystick_wide u ;;; joystick_zoom u) self = (s1, Ok tt) ->
  _apply_joystick targets (Some u) self = joystick_target u targets s1
  /\ active_target_id s1 = active_target_id self.
Proof.
  unfold _apply_joystick, seq. rewrite joystick_wide_run, joystick_zoom_run.
  destruct (zoom_delta u =? 0).
  - intros H. injection H as <-. split; [reflexivity|]. now destruct (wide u).
  - destruct (float_of_int (zoom_delta u)); [|discriminate].
    intros H. injection H as <-. split; [reflexivity|]. now destruct (wide u).
Qed.

(** ** The polling loop *)

Lemma unpack_h_total (bs : bytes) :
  length bs = 2%nat -> exists v, unpack_h bs = Ok v /\ -32768 <= v <= 32767.
Proof.
  intros H. destruct (unpack_H_total bs H) as (u & Hu & Hr).
  unfold unpack_h. rewrite Hu. cbn [bind]. eexists. split; [reflexivity|].
  unfold to_signed16. destruct (Z.ltb_spec u 32768); lia.
Qed.

Lemma tenths_total (i : Z) :
  -32768 <= i <= 32767 -> exists f, tenths i = Ok f.
Proof.
  intros H. unfold tenths.
  destruct (float_of_int_small i) as (f & ->).
  - change (2 ^ 53) with 9007199254740992. lia.
  - eexists. reflexivity.
Qed.

Lemma decode_angles_total (a b c : Z) :
  -32768 <= a <= 32767 -> -32768 <= b <= 32767 -> -32768 <= c <= 32767 ->
  exists x, decode_angles (a, b, c) = Ok x.
Proof.
  intros Ha Hb Hc. unfold decode_angles.
  destruct (tenths_total a Ha) as (fa & ->).
  destruct (tenths_total b Hb) as (fb & ->).
  destruct (tenths_total c Hc) as (fc & ->).
  eexists. reflexivity.
Qed.

Lemma unpack_three (bs : bytes) :
  (6 <= length bs)%nat ->
  exists a b c,
    unpack_h (slice 0 2 bs) = Ok a /\ unpack_h (slice 2 4 bs) = Ok b /\
    unpack_h (slice 4 6 bs) = Ok c /\
    -32768 <= a <= 32767 /\ -32768 <= b <= 32767 /\ -32768 <= c <= 32767.
Proof.
  intros H.
  destruct (unpack_h_total (slice 0 2 bs)) as (a & Ha & Hra);
    [rewrite length_slice; lia|].
  destruct (unpack_h_total (slice 2 4 bs)) as (b & Hb & Hrb);
    [rewrite length_slice; lia|].
  destruct (unpack_h_total (slice 4 6 bs)) as (c & Hc & Hrc);
    [rewrite length_slice; lia|].
  exists a, b, c. repeat split; assumption || lia.
Qed.

(** The two loop bodies never raise, and say which frames they take. *)
Lemma attitude_reply_spec (ctrl rseq cmd_id : Z) (data : bytes) :
  (cmd_id = 0x0D /\ (12 <= length data)%nat /\
   exists v a,
     unpack_hhhhhh (slice 0 12 data) = Ok v /\ decode_angles v = Ok a /\
     attitude_reply (ctrl, rseq, cmd_id, data) = Ok (Some a)) \/
  (~ (cmd_id = 0x0D /\ (12 <= length data)%nat) /\
   attitude_reply (ctrl, rseq, cmd_id, data) = Ok None).
Proof.
  unfold attitude_reply.
  destruct (Z.eqb_spec cmd_id 0x0D) as [Hc|Hc]; cbn [andb];
    [|right; split; [tauto | reflexivity]].
  destruct (Nat.leb_spec 12 (length data)) as [Hl|Hl];
    [|right; split; [lia | reflexivity]].
  left. split; [exact Hc|]. split; [exact Hl|].
  assert (Hlen : length (slice 0 12 data) = 12%nat)
    by (rewrite length_slice; lia).
  destruct (unpack_three (slice 0 12 data)) as (a & b & c & Ha & Hb & Hcc & Hr);
    [lia|].
  destruct Hr as (Hra & Hrb & Hrc).
  destruct (decode_angles_total a b c Hra Hrb Hrc) as (x & Hx).
  exists (a, b, c), x.
  unfold unpack_hhhhhh. rewrite Hlen. cbn [Nat.eqb negb].
  rewrite Ha, Hb, Hcc. cbn [bind]. rewrite Hx. now repeat split.
Qed.

Lemma land_2 (ctrl : Z) :
  negb (Z.land ctrl 0x02 =? 0) = Z.testbit ctrl 1.
Proof.
  assert (H : Z.land ctrl 2 = if Z.testbit ctrl 1 then 2 else 0).
  { apply Z.bits_inj'. intros n Hn. rewrite Z.land_spec.
    change 2 with (2 ^ 1) at 1. rewrite Z.pow2_bits_eqb by lia.
    destruct (Z.eqb_spec 1 n) as [<-|Hne].
    - rewrite andb_true_r. now destruct (Z.testbit ctrl 1).
    - rewrite andb_false_r. destruct (Z.testbit ctrl 1).
      + change 2 with (2 ^ 1). now rewrite Z.pow2_bits_false by lia.
      + now rewrite Z.bits_0. }
  rewrite H. now destruct (Z.testbit ctrl 1).
Qed.

Lemma angles_ack_spec (ctrl rseq cmd_id : Z) (rdata : bytes) :
  (cmd_id = 0x0E /\ Z.testbit ctrl 1 = true /\ (6 <= length rdata)%nat /\
   exists v a,
     unpack_hhh (slice 0 6 rdata) = Ok v /\ decode_angles v = Ok a /\
     angles_ack (ctrl, rseq, cmd_id, rdata) = Ok (Some a)) \/
  (~ (cmd_id = 0x0E /\ Z.testbit ctrl 1 = true /\ (6 <= length rdata)%nat) /\
   angles_ack (ctrl, rseq, cmd_id, rdata) = Ok None).
Proof.
  unfold angles_ack. rewrite land_2.
  destruct (Z.eqb_spec cmd_id 0x0E) as [Hc|Hc]; cbn [andb];
    [|right; split; [tauto | reflexivity]].
  destruct (Z.testbit ctrl 1) eqn:Hb; cbn [andb];
    [|right; split; [intros (_ & H & _); discriminate | reflexivity]].
  destruct (Nat.leb_spec 6 (length rdata)) as [Hl|Hl];
    [|right; split; [lia | reflexivity]].
  left. split; [exact Hc|]. split; [reflexivity|]. split; [exact Hl|].
  assert (Hlen : length (slice 0 6 rdata) = 6%nat)
    by (rewrite length_slice; lia).
  destruct (unpack_three (slice 0 6 rdata)) as (a & b & c & Ha & Hbb & Hcc & Hr);
    [lia|].
  destruct Hr as (Hra & Hrb & Hrc).
  destruct (decode_angles_total a b c Hra Hrb Hrc) as (x & Hx).
  exists (a, b, c), x.
  unfold unpack_hhh. rewrite Hlen. cbn [Nat.eqb negb].
  rewrite Ha, Hbb, Hcc. cbn [bind]. rewrite Hx. now repeat split.
Qed.

Lemma parse_packet_total (raw : bytes) : exists r, parse_packet raw = Ok r.
Proof.
  unfold parse_packet.
  destruct (parse_fields_spec raw) as [[_ H]|[_ H]].
  - rewrite H. cbn. eauto.
  - destruct H as (? & ? & ? & ? & _ & _ & _ & _ & H). rewrite H. cbn. eauto.
Qed.

Lemma poll_skip {A} (body : Z * Z * Z * bytes -> result (option A))
  (t0 : float) (pre rest : list turn) :
  Forall (skipped body t0) pre ->
  poll body t0 (pre ++ rest) = poll body t0 rest.
Proof.
  induction 1 as [|t pre Ht _ IH]; [reflexivity|].
  destruct Ht as (Hw & raw & Hrx & Hv).
  cbn [app poll]. unfold in_window in Hw. rewrite Hw, Hrx.
  unfold verdict in Hv.
  destruct (parse_packet raw) as [[f|]|e]; cbn [bind] in *;
    [|exact IH|discriminate].
  rewrite Hv. cbn [bind]. exact IH.
Qed.

Lemma poll_reply {A} (body : Z * Z * Z * bytes -> result (option A))
  (t0 : float) (t : turn) (rest : list turn) (raw : bytes) (x : A) :
  in_window t0 t = true -> rx t = Datagram raw ->
  verdict body raw = Ok (Some x) ->
  poll body t0 (t :: rest) = Ok (Reply x).
Proof.
  intros Hw Hrx Hv. cbn [poll]. unfold in_window in Hw. rewrite Hw, Hrx.
  unfold verdict in Hv.
  destruct (parse_packet raw) as [[f|]|e]; cbn [bind] in *; try discriminate.
  rewrite Hv. reflexivity.
Qed.

Lemma poll_timeout {A} (body : Z * Z * Z * bytes -> result (option A))
  (t0 : float) (t : turn) (rest : list turn) :
  in_window t0 t = false \/ rx t = SocketTimeout ->
  poll body t0 (t :: rest) = Ok NoReply.
Proof.
  intros H. cbn [poll]. unfold in_window in H.
  destruct (now t - t0 <? TIMEOUT_S)%float; [|reflexivity].
  destruct H as [H|H]; [discriminate | now rewrite H].
Qed.

Lemma verdict_attitude (raw : bytes) :
  (answers_attitude raw /\
   exists ctrl rseq data v a,
     parse_packet raw = Ok (Some (ctrl, rseq, 0x0D, data)) /\
     unpack_hhhhhh (slice 0 12 data) = Ok v /\ decode_angles v = Ok a /\
     verdict attitude_reply raw = Ok (Some a)) \/
  (~ answers_attitude raw /\ verdict attitude_reply raw = Ok None).
Proof.
  unfold verdict, answers_attitude.
  destruct (parse_packet_total raw) as ([[[[ctrl rseq] cmd] data]|] & Hp);
    rewrite Hp; cbn [bind].
  2:{ right. split; [|reflexivity]. intros (? & ? & ? & H & _). discriminate. }
  destruct (attitude_reply_spec ctrl rseq cmd data)
    as [(Hc & Hl & v & a & Hv & Ha & Hr)|(Hn & Hr)].
  - subst cmd. left. split; [now exists ctrl, rseq, data|].
    exists ctrl, rseq, data, v, a. now repeat split.
  - right. split; [|exact Hr].
    intros (c' & r' & d' & H & Hl). injection H as E1 E2 E3 E4. subst. tauto.
Qed.

Lemma verdict_angles (raw : bytes) :
  (answers_angles raw /\
   exists ctrl rseq data v a,
     parse_packet raw = Ok (Some (ctrl, rseq, 0x0E, data)) /\
     unpack_hhh (slice 0 6 data) = Ok v /\ decode_angles v = Ok a /\
     verdict angles_ack raw = Ok (Some a)) \/
  (~ answers_angles raw /\ verdict angles_ack raw = Ok None).
Proof.
  unfold verdict, answers_angles.
  destruct (parse_packet_total raw) as ([[[[ctrl rseq] cmd] data]|] & Hp);
    rewrite Hp; cbn [bind].
  2:{ right. split; [|reflexivity]. intros (? & ? & ? & H & _). discriminate. }
  destruct (angles_ack_spec ctrl rseq cmd data)
    as [(Hc & Hb & Hl & v & a & Hv & Ha & Hr)|(Hn & Hr)].
  - subst cmd. left. split; [now exists ctrl, rseq, data|].
    exists ctrl, rseq, data, v, a. now repeat split.
  - right. split; [|exact Hr].
    intros (c' & r' & d' & H & Hb & Hl). injection H as E1 E2 E3 E4. subst.
    tauto.
Qed.

(** ** Target selection *)

Lemma find_active_first (targets : list target) (idx a : Z) (i : nat)
  (t : target) :
  nth_error targets i = Some t ->
  nth_error (identities_from idx targets) i = Some a ->
  (forall j, (j < i)%nat -> nth_error (identities_from idx targets) j <> Some a) ->
  find_active (Some a) idx targets = Some t.
Proof.
  revert idx i. induction targets as [|t0 ts IH]; intros idx [|i] Ht Hid Hmin;
    cbn in Ht; try discriminate.
  - injection Ht as ->. cbn in Hid. injection Hid as Hid.
    cbn [find_active]. rewrite Hid, Z.eqb_refl. reflexivity.
  - cbn [find_active].
    assert (H0 : match t_id t0 with Some tid => tid | None => idx end <> a).
    { intros E. apply (Hmin O); [lia|]. cbn. now rewrite E. }
    apply Z.eqb_neq in H0. rewrite H0.
    apply (IH (idx + 1) i Ht Hid).
    intros j Hj. apply (Hmin (S j)). lia.
Qed.

Lemma find_active_none (targets : list target) (idx : Z) (active : option Z) :
  contains active (identities_from idx targets) = false ->
  find_active active idx targets = None.
Proof.
  destruct active as [a|].
  - revert idx. induction targets as [|t0 ts IH]; intros idx H; [reflexivity|].
    cbn [identities_from contains existsb] in H.
    apply orb_false_iff in H. destruct H as [H0 H].
    cbn [find_active]. rewrite Z.eqb_sym, H0. now apply IH.
  - intros _. revert idx. induction targets as [|t0 ts IH]; intros idx;
      [reflexivity | cbn; apply IH].
Qed.

Lemma spec_area_bbox_area (bbox : list float) :
  (4 <= length bbox)%nat ->
  exists a, spec_area bbox = Some a /\ bbox_area bbox = Ok a.
Proof.
  intros H. destruct bbox as [|x1 [|y1 [|x2 [|y2 rest]]]]; cbn in H; try lia.
  eexists. split; reflexivity.
Qed.

(** The scan of [get_primary_target] from any point of the loop: either
    nothing beats [largest], or the result is the first box of largest
    area. *)
Lemma primary_loop_max (objs : list target) (largest : float)
  (primary : option target) :
  Forall (fun t => (4 <= length (t_bbox t))%nat) objs ->
  (largest =? largest)%float = true ->
  (primary_loop objs largest primary = Ok primary /\
   forall j t' a',
     nth_error objs j = Some t' -> spec_area (t_bbox t') = Some a' ->
     (largest <? a')%float = false) \/
  (exists i t a,
      nth_error objs i = Some t /\ spec_area (t_bbox t) = Some a /\
      (largest <? a)%float = true /\
      primary_loop objs largest primary = Ok (Some t) /\
      forall j t' a',
        nth_error objs j = Some t' -> spec_area (t_bbox t') = Some a' ->
        (a <? a')%float = false /\ ((j < i)%nat -> (a <=? a')%float = false)).
Proof.
  intros Hall. revert largest primary.
  induction Hall as [|obj objs Hb _ IH]; intros largest primary Hl.
  - left. split; [reflexivity|]. intros [|j]; discriminate.
  - destruct (spec_area_bbox_area _ Hb) as (a0 & Hs0 & Ha0).
    cbn [primary_loop]. rewrite Ha0. cbn [bind].
    destruct (largest <? a0)%float eqn:Hlt.
    + right.
      assert (Hl0 : (a0 =? a0)%float = true) by (clear - Hlt; float_order).
      destruct (IH a0 (Some obj) Hl0)
        as [[Hr Hmax]|(i & t & a & Hn & Ha & Hgt & Hr & Hmax)].
      * exists O, obj, a0. split; [reflexivity|]. split; [exact Hs0|].
        split; [exact Hlt|]. split; [exact Hr|].
        intros [|j] t' a' H H0; cbn in H.
        -- injection H as <-. rewrite Hs0 in H0. injection H0 as <-.
           split; [clear - Hlt; float_order | lia].
        -- split; [now apply (Hmax j t' a') | lia].
      * exists (S i), t, a. split; [exact Hn|]. split; [exact Ha|].
        split; [clear - Hlt Hgt; float_order|]. split; [exact Hr|].
        intros [|j] t' a' H H0; cbn in H.
        -- injection H as <-. rewrite Hs0 in H0. injection H0 as <-.
           split; [|intros _]; clear - Hgt; float_order.
        -- destruct (Hmax j t' a' H H0) as [M1 M2].
           split; [exact M1|]. intros Hj. apply M2. lia.
    + destruct (IH largest primary Hl)
        as [[Hr Hmax]|(i & t & a & Hn & Ha & Hgt & Hr & Hmax)].
      * left. split; [exact Hr|]. intros [|j] t' a' H H0; cbn in H.
        -- injection H as <-. rewrite Hs0 in H0. injection H0 as <-.
           exact Hlt.
        -- now apply (Hmax j t' a').
      * right. exists (S i), t, a. split; [exact Hn|]. split; [exact Ha|].
        split; [exact Hgt|]. split; [exact Hr|].
        intros [|j] t' a' H H0; cbn in H.
        -- injection H as <-. rewrite Hs0 in H0. injection H0 as <-.
           split; [|intros _]; clear - Hlt Hl Hgt; float_order.
        -- destruct (Hmax j t' a' H H0) as [M1 M2].
           split; [exact M1|]. intros Hj. apply M2. lia.
Qed.

Lemma get_primary_target_max (objs : list target) :
  Forall (fun t => (4 <= length (t_bbox t))%nat) objs ->
  (get_primary_target objs = Ok None /\
   forall j t' a',
     nth_error objs j = Some t' -> spec_area (t_bbox t') = Some a' ->
     (0 <? a')%float = false) \/
  (exists i t a,
      nth_error objs i = Some t /\ spec_area (t_bbox t) = Some a /\
      (0 <? a)%float = true /\
      get_primary_target objs = Ok (Some t) /\
      forall j t' a',
        nth_error objs j = Some t' -> spec_area (t_bbox t') = Some a' ->
        (a <? a')%float = false /\ ((j < i)%nat -> (a <=? a')%float = false)).
Proof.
  intros Hall. destruct objs as [|obj objs].
  { left. split; [reflexivity|]. intros [|j]; discriminate. }
  unfold get_primary_target.
  exact (primary_loop_max (obj :: objs) 0%float None Hall eq_refl).
Qed.

(** ** Crop geometry *)

Lemma truediv_zoomed (x z : float) :
  (z <=? NO_ZOOM)%float = false -> truediv x z = Ok (x / z)%float.
Proof.
  intros H. unfold truediv.
  replace (z =? 0)%float with false; [reflexivity|].
  symmetry. destruct (z =? 0)%float eqn:E; [|reflexivity].
  exfalso. clear - H E. float_order.
Qed.

Lemma extent_inside (n lo len : Z) :
  0 <= lo -> 1 <= len -> lo + len <= n ->
  (extent n lo (lo + len) =? 0) = false.
Proof. intros H1 H2 H3. unfold extent. apply Z.eqb_neq. lia. Qed.

(** ** Clamping *)

Lemma py_max_min_range (lo hi v : float) :
  (lo <=? hi)%float = true ->
  (lo <=? py_max lo (py_min hi v))%float = true /\
  (py_max lo (py_min hi v) <=? hi)%float = true.
Proof.
  intros H. unfold py_max, py_min.
  destruct (v <? hi)%float eqn:E1.
  - destruct (lo <? v)%float eqn:E2; split; clear - H E1 E2; float_order.
  - destruct (lo <? hi)%float eqn:E2; split; clear - H E1 E2; float_order.
Qed.

Lemma py_max_min_cases (lo hi v : float) :
  ((lo <? v)%float = true /\ (v <? hi)%float = true /\
   py_max lo (py_min hi v) = v) \/
  ((v <? hi)%float = true /\ (lo <? v)%float = false /\
   py_max lo (py_min hi v) = lo) \/
  ((v <? hi)%float = false /\
   py_max lo (py_min hi v) = if (lo <? hi)%float then hi else lo).
Proof.
  unfold py_max, py_min.
  destruct (v <? hi)%float eqn:E1; [|now right; right].
  destruct (lo <? v)%float eqn:E2; [now left | now right; left].
Qed.

(** ** The zoom invariant *)

Lemma joystick_target_zoom (u : updates) (targets : list target) (self : ptz) :
  zoom (fst (joystick_target u targets self)) = zoom self /\
  zoom_min (fst (joystick_target u targets self)) = zoom_min self /\
  zoom_max (fst (joystick_target u targets self)) = zoom_max self /\
  zoom_step (fst (joystick_target u targets self)) = zoom_step self.
Proof.
  unfold joystick_target, when.
  destruct (negb (target_delta u =? 0) && negb (length targets =? 0)%nat);
    [|now cbn].
  cbv beta iota delta [seq read lift assign].
  destruct (negb (contains (active_target_id self) (identities targets))).
  - destruct (index (identities targets) 0); now cbn.
  - destruct (index_of (active_target_id self) (identities targets)); [|now cbn].
    destruct (index (identities targets) _); now cbn.
Qed.

Lemma apply_joystick_fst (targets : list target) (u : updates) (self : ptz) :
  let s1 := fst (joystick_wide u self) in
  let s2 := fst (joystick_zoom u s1) in
  fst (_apply_joystick targets (Some u) self) = s2 \/
  fst (_apply_joystick targets (Some u) self)
  = fst (joystick_target u targets s2).
Proof.
  unfold _apply_joystick, seq. rewrite joystick_wide_run. cbn [fst].
  destruct (joystick_zoom u _) as [s2 [[]|e]]; cbn [fst]; [right | left];
    reflexivity.
Qed.

Lemma zoom_in_range_step (targets : list target) (joystick : option updates)
  (self : ptz) :
  (zoom_min self <=? zoom_max self)%float = true ->
  zoom_in_range self ->
  let self' := fst (_apply_joystick targets joystick self) in
  zoom_in_range self' /\
  zoom_min self' = zoom_min self /\ zoom_max self' = zoom_max self /\
  zoom_step self' = zoom_step self.
Proof.
  intros Hc [H1 H2]. destruct joystick as [u|]; [|now cbn].
  set (s1 := fst (joystick_wide u self)).
  set (s2 := fst (joystick_zoom u s1)).
  assert (I1 : zoom_in_range s1 /\ zoom_min s1 = zoom_min self /\
               zoom_max s1 = zoom_max self /\ zoom_step s1 = zoom_step self).
  { unfold s1. rewrite joystick_wide_run. cbn [fst].
    destruct (wide u); [|now repeat split].
    repeat split; cbn; [eapply leb_refl_l | ]; eassumption. }
  destruct I1 as ([A1 A2] & Emin & Emax & Estep).
  assert (I2 : zoom_in_range s2 /\ zoom_min s2 = zoom_min self /\
               zoom_max s2 = zoom_max self /\ zoom_step s2 = zoom_step self).
  { unfold s2. rewrite joystick_zoom_run.
    destruct (zoom_delta u =? 0); [now repeat split|].
    destruct (float_of_int (zoom_delta u)) as [d|e]; cbn [fst].
    - repeat split; cbn; try assumption;
        apply py_max_min_range; congruence.
    - now repeat split. }
  destruct I2 as ([B1 B2] & Fmin & Fmax & Fstep).
  cbv zeta.
  destruct (apply_joystick_fst targets u self) as [-> | ->]; fold s1 s2.
  - now repeat split.
  - destruct (joystick_target_zoom u targets s2) as (Ez & Gmin & Gmax & Gstep).
    unfold zoom_in_range. rewrite Ez, Gmin, Gmax, Gstep. now repeat split.
Qed.

(** ** Rounding to binary64, from the definitions of [SpecFloat] *)

Lemma iter_pos_nat {A} (f : A -> A) (p : positive) (x : A) :
  iter_pos f p x = Nat.iter (Pos.to_nat p) f x.
Proof.
  revert x. induction p as [p IH|p IH|]; intros x; cbn [iter_pos].
  - rewrite !IH, Pos2Nat.inj_xI.
    replace (S (2 * Pos.to_nat p)) with (Pos.to_nat p + S (Pos.to_nat p))%nat by lia.
    rewrite Nat.iter_add, Nat.iter_succ_r. reflexivity.
  - rewrite !IH, Pos2Nat.inj_xO.
    replace (2 * Pos.to_nat p)%nat with (Pos.to_nat p + Pos.to_nat p)%nat by lia.
    now rewrite Nat.iter_add.
  - reflexivity.
Qed.

Lemma shr_1_nonneg (m : Z) (r s : bool) :
  0 <= m ->
  shr_1 {| shr_m := m; shr_r := r; shr_s := s |}
  = {| shr_m := m / 2; shr_r := Z.odd m; shr_s := r || s |}.
Proof.
  intros Hm. destruct m as [|[p|p|]|p]; try lia; cbn [shr_1].
  - reflexivity.
  - f_equal. rewrite Pos2Z.inj_xI.
    apply Z.div_unique with 1; lia.
  - f_equal. rewrite Pos2Z.inj_xO.
    apply Z.div_unique with 0; lia.
  - reflexivity.
Qed.

(** [k] steps of [shr_1] divide by [2^k] and remember whether anything
    was lost. *)
Lemma iter_shr_1 (M : Z) (k : nat) :
  0 <= M ->
  exists r s,
    Nat.iter k shr_1 {| shr_m := M; shr_r := false; shr_s := false |}
    = {| shr_m := M / 2 ^ Z.of_nat k; shr_r := r; shr_s := s |} /\
    (r || s = false <-> M mod 2 ^ Z.of_nat k = 0).
Proof.
  intros HM. induction k as [|k (r & s & Hk & Hrs)].
  - exists false, false. cbn [Nat.iter]. change (2 ^ Z.of_nat 0) with 1.
    rewrite Z.div_1_r, Z.mod_1_r. now split.
  - rewrite Nat.iter_succ, Hk.
    assert (Hp : 0 < 2 ^ Z.of_nat k) by (apply Z.pow_pos_nonneg; lia).
    rewrite shr_1_nonneg by (apply Z.div_pos; lia).
    exists (Z.odd (M / 2 ^ Z.of_nat k)), (r || s). split.
    + f_equal. rewrite Nat2Z.inj_succ, Z.pow_succ_r by lia.
      rewrite Z.div_div by lia. f_equal. lia.
    + rewrite Nat2Z.inj_succ, Z.pow_succ_r by lia.
      rewrite (Z.mul_comm 2), Z.rem_mul_r by lia.
      pose proof (Z.mod_pos_bound M (2 ^ Z.of_nat k) Hp) as Hb.
      pose proof (Z.mod_pos_bound (M / 2 ^ Z.of_nat k) 2 ltac:(lia)) as Hb2.
      rewrite orb_false_iff, Hrs, Zmod_odd.
      destruct (Z.odd (M / 2 ^ Z.of_nat k)); split;
        (intros [H H'] || intros H); try discriminate; try lia;
        (split; [reflexivity | lia]).
Qed.

Lemma digits2_pos_bounds (m : positive) :
  2 ^ (Zpos (digits2_pos m) - 1) <= Zpos m < 2 ^ Zpos (digits2_pos m).
Proof.
  induction m as [p IH|p IH|]; cbn [digits2_pos].
  - rewrite Pos2Z.inj_succ.
    replace (Z.succ (Zpos (digits2_pos p)) - 1)
      with (Z.succ (Zpos (digits2_pos p) - 1)) by lia.
    rewrite !Z.pow_succ_r by lia.
    revert IH. generalize (2 ^ (Zpos (digits2_pos p) - 1)).
    generalize (2 ^ Zpos (digits2_pos p)). intros a b IH. lia.
  - rewrite Pos2Z.inj_succ.
    replace (Z.succ (Zpos (digits2_pos p)) - 1)
      with (Z.succ (Zpos (digits2_pos p) - 1)) by lia.
    rewrite !Z.pow_succ_r by lia.
    revert IH. generalize (2 ^ (Zpos (digits2_pos p) - 1)).
    generalize (2 ^ Zpos (digits2_pos p)). intros a b IH. lia.
  - cbn. lia.
Qed.

Lemma shr_exact (M E n : Z) :
  0 <= M -> 0 <= n ->
  exists r s,
    shr {| shr_m := M; shr_r := false; shr_s := false |} E n
    = ({| shr_m := M / 2 ^ n; shr_r := r; shr_s := s |}, E + n) /\
    (r || s = false <-> M mod 2 ^ n = 0).
Proof.
  intros HM Hn. destruct n as [|p|p]; [| |lia].
  - exists false, false. cbn [shr]. change (2 ^ 0) with 1.
    rewrite Z.div_1_r, Z.mod_1_r, Z.add_0_r. now split.
  - cbn [shr]. rewrite iter_pos_nat.
    destruct (iter_shr_1 M (Pos.to_nat p) HM) as (r & s & H & Hrs).
    rewrite positive_nat_Z in H, Hrs. exists r, s. rewrite H. now split.
Qed.

Lemma shr_none (mrs : shr_record) (E n : Z) :
  n <= 0 -> shr mrs E n = (mrs, E).
Proof. intros H. destruct n; [reflexivity | lia | reflexivity]. Qed.

Lemma fexp_eq (z : Z) : fexp prec emax z = Z.max (z - 53) (-1074).
Proof. reflexivity. Qed.

Lemma renormalize (s : bool) (m2 e1 : Z) :
  0 <= m2 <= 2 ^ 53 -> -1074 <= e1 -> (e1 = -1074 \/ m2 = 0 \/ 2 ^ 52 <= m2) ->
  rounds_to s m2 e1
    (let '(mrs, e) := shr_fexp prec emax m2 e1 loc_Exact in
     match shr_m mrs with
     | Z0 => S754_zero s
     | Zpos m => if e <=? emax - prec then S754_finite s m e
                 else S754_infinity s
     | Zneg _ => S754_nan
     end).
Proof.
  intros Hm He Hnorm. change (emax - prec) with 971.
  assert (P53 : 2 ^ 53 = 9007199254740992) by reflexivity.
  assert (P52 : 2 ^ 52 = 4503599627370496) by reflexivity.
  destruct m2 as [|m|m]; [| |lia].
  - left. split; [reflexivity|].
    unfold shr_fexp. cbn [Zdigits2 shr_record_of_loc].
    rewrite shr_none by (rewrite fexp_eq; lia). reflexivity.
  - right. pose proof (digits2_pos_bounds m) as Hd.
    destruct (Z.eq_dec (Zpos m) (2 ^ 53)) as [E53|N53].
    + exists 4503599627370496%positive, (e1 + 1).
      assert (Em : m = 9007199254740992%positive) by lia. subst m.
      unfold shr_fexp. cbn [Zdigits2 shr_record_of_loc].
      change (Zpos (digits2_pos 9007199254740992)) with 54.
      rewrite fexp_eq.
      replace (Z.max (54 + e1 - 53) (-1074) - e1) with 1 by lia.
      cbn [shr iter_pos shr_1 shr_m].
      replace (e1 + 1 - e1) with 1 by lia.
      repeat split; lia.
    + assert (Hlt : Zpos m < 2 ^ 53) by lia.
      assert (Hd53 : Zpos (digits2_pos m) <= 53).
      { destruct (Z.le_gt_cases (Zpos (digits2_pos m)) 53) as [H|H]; [exact H|].
        exfalso. assert (2 ^ 53 <= 2 ^ (Zpos (digits2_pos m) - 1))
          by (apply Z.pow_le_mono_r; lia). lia. }
      exists m, e1. unfold shr_fexp. cbn [Zdigits2 shr_record_of_loc].
      rewrite shr_none by (rewrite fexp_eq; lia). cbn [shr_m].
      rewrite Z.sub_diag. change (2 ^ 0) with 1.
      repeat split; lia.
Qed.

Lemma round_nearest_even_cases (q : Z) (r s : bool) :
  let m2 := round_nearest_even q
              (loc_of_shr_record {| shr_m := q; shr_r := r; shr_s := s |}) in
  m2 = q \/ (m2 = q + 1 /\ r || s = true).
Proof.
  destruct r, s; cbn; try (now left); try (now right).
  destruct (Z.even q); [now left | now right].
Qed.

(** [binary_round_aux] on an exact input: the mantissa is divided by
    [2^n], where [n] brings the exponent to the one of the format, rounded
    to [q] or [q + 1], and renormalized. *)
Lemma binary_round_aux_exact (s : bool) (M : positive) (E : Z) :
  let e1 := fexp prec emax (Zpos (digits2_pos M) + E) in
  E <= e1 ->
  exists m2,
    (m2 = Zpos M / 2 ^ (e1 - E) \/
     (m2 = Zpos M / 2 ^ (e1 - E) + 1 /\ Zpos M mod 2 ^ (e1 - E) <> 0)) /\
    (e1 = -1074 \/ 2 ^ 52 <= m2) /\
    rounds_to s m2 e1 (binary_round_aux prec emax s (Zpos M) E loc_Exact).
Proof.
  intros e1 HE.
  pose proof (digits2_pos_bounds M) as HD.
  set (D := Zpos (digits2_pos M)) in *.
  assert (He1 : e1 = Z.max (D + E - 53) (-1074)) by reflexivity.
  set (n := e1 - E). assert (Hn : 0 <= n) by (unfold n; lia).
  assert (Hpn : 0 < 2 ^ n) by (apply Z.pow_pos_nonneg; lia).
  set (q := Zpos M / 2 ^ n).
  assert (Hq0 : 0 <= q) by (apply Z.div_pos; lia).
  assert (Hq53 : q < 2 ^ 53).
  { apply Z.div_lt_upper_bound; [exact Hpn|].
    rewrite <- Z.pow_add_r by lia.
    eapply Z.lt_le_trans; [apply HD|]. apply Z.pow_le_mono_r; lia. }
  assert (Hq52 : e1 = -1074 \/ 2 ^ 52 <= q).
  { destruct (Z.eq_dec e1 (-1074)) as [H|H]; [now left | right].
    apply Z.div_le_lower_bound; [exact Hpn|].
    rewrite <- Z.pow_add_r by lia.
    replace (n + 52) with (D - 1) by (unfold n; lia). apply HD. }
  unfold binary_round_aux, shr_fexp at 1.
  cbn [Zdigits2 shr_record_of_loc]. fold D e1 n.
  destruct (shr_exact (Zpos M) E n) as (r & s0 & Hshr & Hrs); [lia | lia |].
  rewrite Hshr. replace (E + n) with e1 by (unfold n; lia). cbn [shr_m].
  fold q in Hshr |- *.
  destruct (round_nearest_even_cases q r s0) as [Hm|[Hm Hrs']].
  - exists q. split; [now left|]. split; [exact Hq52|]. rewrite Hm.
    apply renormalize; lia.
  - exists (q + 1). split.
    + right. split; [reflexivity|]. intros H. apply Hrs in H. congruence.
    + split; [lia|]. rewrite Hm. apply renormalize; lia.
Qed.

Lemma scaled_pos (e : Z) : -2200 <= e -> 0 < 2 ^ (e + 2200).
Proof. intros H. apply Z.pow_pos_nonneg; lia. Qed.

Lemma scaled_shift (m e k : Z) :
  -2200 <= e -> 0 <= k -> scaled (m * 2 ^ k) e = scaled m (e + k).
Proof.
  intros He Hk. unfold scaled.
  replace (e + k + 2200) with (k + (e + 2200)) by lia.
  rewrite (Z.pow_add_r 2 k (e + 2200)) by lia. ring.
Qed.

Lemma scaled_le_mono (m m' e : Z) :
  -2200 <= e -> m <= m' -> scaled m e <= scaled m' e.
Proof.
  intros He H. unfold scaled. apply Z.mul_le_mono_nonneg_r; [|exact H].
  apply Z.lt_le_incl, scaled_pos, He.
Qed.

Lemma scaled_le_inv (m m' e : Z) :
  -2200 <= e -> scaled m e <= scaled m' e -> m <= m'.
Proof.
  intros He H. unfold scaled in H.
  apply Z.mul_le_mono_pos_r in H; [exact H | now apply scaled_pos].
Qed.

Lemma scaled_exp_mono (m e e' : Z) :
  -2200 <= e -> e <= e' -> 0 <= m -> scaled m e <= scaled m e'.
Proof.
  intros He H Hm. unfold scaled. apply Z.mul_le_mono_nonneg_l; [exact Hm|].
  apply Z.pow_le_mono_r; lia.
Qed.

(** A value with at most 53 digits at exponent [e] is below every value
    with 53 digits at a larger exponent. *)
Lemma scaled_lt_next (m m' e e' : Z) :
  -2200 <= e -> e < e' -> 0 <= m < 2 ^ 53 -> 2 ^ 52 <= m' ->
  scaled m e < scaled m' e'.
Proof.
  intros He H Hm Hm'.
  apply Z.lt_le_trans with (scaled (2 ^ 53) e).
  - unfold scaled. apply Z.mul_lt_mono_pos_r; [now apply scaled_pos | lia].
  - apply Z.le_trans with (scaled (2 ^ 52) (e + 1)).
    + rewrite <- (scaled_shift (2 ^ 52) e 1) by lia.
      change (2 ^ 52 * 2 ^ 1) with (2 ^ 53). lia.
    + apply Z.le_trans with (scaled (2 ^ 52) e').
      * apply scaled_exp_mono; lia.
      * apply scaled_le_mono; lia.
Qed.

Lemma bounded_normal (m : positive) (e : Z) :
  bounded prec emax m e = true ->
  -1074 <= e <= 971 /\ Zpos m < 2 ^ 53 /\ (e = -1074 \/ 2 ^ 52 <= Zpos m).
Proof.
  intros H.
  destruct (valid_finite_bounds false m e H) as [He Hm].
  split; [exact He|]. split; [exact Hm|].
  unfold bounded, canonical_mantissa in H.
  apply andb_true_iff in H. destruct H as [H _].
  apply Z.eqb_eq in H. rewrite fexp_eq in H.
  destruct (Z.eq_dec e (-1074)) as [E|E]; [now left | right].
  assert (Hd : Zpos (digits2_pos m) = 53) by lia.
  pose proof (digits2_pos_bounds m) as HD. rewrite Hd in HD.
  change (53 - 1) with 52 in HD. lia.
Qed.

(** Rounding never goes beyond a value of the format: upward ... *)
Lemma round_upper (s : bool) (M mb : positive) (E eb : Z) :
  -2200 <= E ->
  E <= fexp prec emax (Zpos (digits2_pos M) + E) ->
  bounded prec emax mb eb = true ->
  scaled (Zpos M) E <= scaled (Zpos mb) eb ->
  binary_round_aux prec emax s (Zpos M) E loc_Exact = S754_zero s \/
  exists m e,
    binary_round_aux prec emax s (Zpos M) E loc_Exact = S754_finite s m e /\
    scaled (Zpos m) e <= scaled (Zpos mb) eb.
Proof.
  intros HE Hfe Hb Hle.
  destruct (bounded_normal mb eb Hb) as (Heb & Hmb & Hnb).
  pose proof (digits2_pos_bounds M) as HD.
  destruct (binary_round_aux_exact s M E Hfe) as (m2 & Hm2 & Hn2 & Hr).
  set (D := Zpos (digits2_pos M)) in *.
  set (e1 := fexp prec emax (D + E)) in *.
  assert (He1 : e1 = Z.max (D + E - 53) (-1074)) by reflexivity.
  set (n := e1 - E) in *.
  assert (Hpn : 0 < 2 ^ n) by (apply Z.pow_pos_nonneg; lia).
  assert (Hee : e1 <= eb).
  { destruct (Z.le_gt_cases e1 eb) as [H|H]; [exact H|]. exfalso.
    assert (H1 : scaled (Zpos mb) eb < scaled (2 ^ 52) e1)
      by (apply scaled_lt_next; lia).
    assert (H2 : scaled (2 ^ 52) e1 = scaled (2 ^ (D - 1)) E).
    { replace (D - 1) with (52 + n) by (unfold n; lia).
      rewrite Z.pow_add_r, scaled_shift by lia. f_equal. unfold n. lia. }
    assert (H3 : scaled (2 ^ (D - 1)) E <= scaled (Zpos M) E)
      by (apply scaled_le_mono; [exact HE | apply HD]).
    lia. }
  set (K := Zpos mb * 2 ^ (eb - e1)).
  assert (HK : scaled K e1 = scaled (Zpos mb) eb).
  { unfold K. rewrite scaled_shift by lia. f_equal. lia. }
  assert (HMK : Zpos M <= K * 2 ^ n).
  { apply (scaled_le_inv _ _ E HE). rewrite scaled_shift by lia.
    replace (E + n) with e1 by (unfold n; lia). rewrite HK. exact Hle. }
  assert (Hm2K : m2 <= K).
  { destruct Hm2 as [->|[-> Hmod]].
    - apply Z.div_le_upper_bound; [exact Hpn|]. rewrite Z.mul_comm. exact HMK.
    - assert (Hne : Zpos M <> K * 2 ^ n).
      { intros Heq. apply Hmod. rewrite Heq. apply Z.mod_mul.
        apply Z.neq_sym, Z.lt_neq, Hpn. }
      assert (Hlt : Zpos M / 2 ^ n < K).
      { apply Z.div_lt_upper_bound; [exact Hpn|]. rewrite Z.mul_comm.
        revert HMK Hne. generalize (K * 2 ^ n). intros. lia. }
      lia. }
  destruct Hr as [[_ Hr]|(m & e & Hme & Hee1 & Hm53 & Hnorm & Hr)];
    [now left | right].
  assert (Hsc : scaled (Zpos m) e <= scaled (Zpos mb) eb).
  { rewrite <- HK. replace e with (e1 + (e - e1)) at 1 by lia.
    rewrite <- scaled_shift by lia. rewrite Hme. apply scaled_le_mono; lia. }
  exists m, e. split; [|exact Hsc].
  rewrite Hr. destruct (Z.leb_spec e 971) as [_|Hov]; [reflexivity|]. exfalso.
  assert (scaled (Zpos mb) eb < scaled (Zpos m) e)
    by (apply scaled_lt_next; lia).
  lia.
Qed.

(** ... nor downward. *)
Lemma round_lower (s : bool) (M mb : positive) (E eb : Z) :
  -2200 <= E ->
  E <= fexp prec emax (Zpos (digits2_pos M) + E) ->
  bounded prec emax mb eb = true ->
  scaled (Zpos mb) eb <= scaled (Zpos M) E ->
  binary_round_aux prec emax s (Zpos M) E loc_Exact = S754_infinity s \/
  exists m e,
    binary_round_aux prec emax s (Zpos M) E loc_Exact = S754_finite s m e /\
    scaled (Zpos mb) eb <= scaled (Zpos m) e.
Proof.
  intros HE Hfe Hb Hle.
  destruct (bounded_normal mb eb Hb) as (Heb & Hmb & Hnb).
  pose proof (digits2_pos_bounds M) as HD.
  destruct (binary_round_aux_exact s M E Hfe) as (m2 & Hm2 & Hn2 & Hr).
  set (D := Zpos (digits2_pos M)) in *.
  set (e1 := fexp prec emax (D + E)) in *.
  assert (He1 : e1 = Z.max (D + E - 53) (-1074)) by reflexivity.
  set (n := e1 - E) in *.
  assert (Hpn : 0 < 2 ^ n) by (apply Z.pow_pos_nonneg; lia).
  assert (Hq : Zpos M / 2 ^ n <= m2).
  { revert Hm2. generalize (Zpos M / 2 ^ n). intros q [->|[-> _]]; lia. }
  assert (Hlow : scaled (Zpos mb) eb <= scaled m2 e1).
  { destruct (Z.le_gt_cases e1 eb) as [H|H].
    - set (K := Zpos mb * 2 ^ (eb - e1)).
      assert (HK : scaled K e1 = scaled (Zpos mb) eb).
      { unfold K. rewrite scaled_shift by lia. f_equal. lia. }
      assert (HMK : K * 2 ^ n <= Zpos M).
      { apply (scaled_le_inv _ _ E HE). rewrite scaled_shift by lia.
        replace (E + n) with e1 by (unfold n; lia). rewrite HK. exact Hle. }
      rewrite <- HK. apply scaled_le_mono; [lia|].
      apply Z.le_trans with (Zpos M / 2 ^ n); [|exact Hq].
      apply Z.div_le_lower_bound; [exact Hpn|]. rewrite Z.mul_comm. exact HMK.
    - apply Z.lt_le_incl. apply Z.lt_le_trans with (scaled (2 ^ 52) e1).
      + apply scaled_lt_next; lia.
      + apply scaled_le_mono; lia. }
  assert (Hpos : 0 < m2).
  { destruct (Z.lt_ge_cases 0 m2) as [H|H]; [exact H|]. exfalso.
    assert (Hz : scaled m2 e1 <= scaled 0 e1) by (apply scaled_le_mono; lia).
    assert (Hz0 : scaled 0 e1 = 0) by (unfold scaled; apply Z.mul_0_l).
    assert (Hb0 : 0 < scaled (Zpos mb) eb).
    { unfold scaled. apply Z.mul_pos_pos; [lia | apply scaled_pos; lia]. }
    lia. }
  destruct Hr as [[Hz _]|(m & e & Hme & Hee1 & Hm53 & Hnorm & Hr)]; [lia|].
  rewrite Hr. destruct (Z.leb_spec e 971) as [_|Hov]; [right | now left].
  exists m, e. split; [reflexivity|].
  replace e with (e1 + (e - e1)) by lia.
  rewrite <- scaled_shift by lia. now rewrite Hme.
Qed.

Lemma scaled_lt_mono (m m' e : Z) :
  -2200 <= e -> m < m' -> scaled m e < scaled m' e.
Proof.
  intros He H. unfold scaled. apply Z.mul_lt_mono_pos_r; [|exact H].
  now apply scaled_pos.
Qed.

Lemma mag_key_lt_scaled (m m' : positive) (e e' : Z) :
  bounded prec emax m e = true -> bounded prec emax m' e' = true ->
  mag_key m e < mag_key m' e' -> scaled (Zpos m) e < scaled (Zpos m') e'.
Proof.
  intros Hb Hb' H.
  destruct (bounded_normal m e Hb) as (He & Hm & Hn).
  destruct (bounded_normal m' e' Hb') as (He' & Hm' & Hn').
  unfold mag_key in H. change (2 ^ 53) with 9007199254740992 in *.
  change (2 ^ 52) with 4503599627370496 in *.
  destruct (Z.lt_trichotomy e e') as [Hlt|[Heq|Hgt]].
  - apply scaled_lt_next; lia.
  - subst e'. apply scaled_lt_mono; lia.
  - exfalso. lia.
Qed.

Lemma mag_key_le_scaled (m m' : positive) (e e' : Z) :
  bounded prec emax m e = true -> bounded prec emax m' e' = true ->
  mag_key m e <= mag_key m' e' -> scaled (Zpos m) e <= scaled (Zpos m') e'.
Proof.
  intros Hb Hb' H.
  destruct (Z.le_gt_cases (mag_key m' e') (mag_key m e)) as [Hge|Hlt].
  - assert (Heq : mag_key m e = mag_key m' e') by lia.
    destruct (bounded_normal m e Hb) as (He & Hm & _).
    destruct (bounded_normal m' e' Hb') as (He' & Hm' & _).
    unfold mag_key in Heq. change (2 ^ 53) with 9007199254740992 in *.
    assert (e = e') by lia. assert (Zpos m = Zpos m') by lia.
    subst e'. replace (Zpos m') with (Zpos m) by assumption. lia.
  - apply Z.lt_le_incl. now apply mag_key_lt_scaled.
Qed.

Lemma scaled_le_mag_key (m m' : positive) (e e' : Z) :
  bounded prec emax m e = true -> bounded prec emax m' e' = true ->
  scaled (Zpos m) e <= scaled (Zpos m') e' -> mag_key m e <= mag_key m' e'.
Proof.
  intros Hb Hb' H.
  destruct (Z.le_gt_cases (mag_key m e) (mag_key m' e')) as [Hle|Hgt];
    [exact Hle|].
  pose proof (mag_key_lt_scaled m' m e' e Hb' Hb Hgt). lia.
Qed.

(** ** Rounding a float to an integer *)

Lemma round_half_even_bound (m : positive) (e N : Z) :
  -2200 <= e -> scaled (Zpos m) e <= scaled N 0 ->
  0 <= round_half_even m e <= N.
Proof.
  intros He H. unfold round_half_even.
  destruct (Z.leb_spec 0 e) as [Hpos|Hneg].
  - rewrite Z.shiftl_mul_pow2 by lia.
    assert (Hp : 0 < 2 ^ e) by (apply Z.pow_pos_nonneg; lia).
    split; [apply Z.mul_nonneg_nonneg; lia|].
    apply (scaled_le_inv _ _ 0); [lia|].
    rewrite scaled_shift by lia. exact H.
  - set (k := - e). assert (Hk : 0 < k) by (unfold k; lia).
    assert (Hp : 0 < 2 ^ k) by (apply Z.pow_pos_nonneg; lia).
    rewrite Z.shiftr_div_pow2 by lia.
    set (q := Zpos m / 2 ^ k).
    rewrite Z.shiftl_mul_pow2 by lia.
    assert (Hq0 : 0 <= q) by (apply Z.div_pos; lia).
    assert (HmN : Zpos m <= N * 2 ^ k).
    { apply (scaled_le_inv _ _ e He). rewrite scaled_shift by lia.
      replace (e + k) with 0 by (unfold k; lia). exact H. }
    assert (HqN : q <= N).
    { apply Z.div_le_upper_bound; [exact Hp|]. rewrite Z.mul_comm. exact HmN. }
    assert (Hq1 : 0 < Zpos m - q * 2 ^ k -> q + 1 <= N).
    { intros Hr.
      assert (Hlt : q < N); [|lia].
      apply Z.div_lt_upper_bound; [exact Hp|]. rewrite Z.mul_comm.
      destruct (Z.eq_dec (Zpos m) (N * 2 ^ k)) as [Heq|Hne]; [|lia].
      exfalso. unfold q in Hr. rewrite Heq, Z.div_mul in Hr by lia. lia. }
    assert (Hh : 0 < Z.shiftl 1 (k - 1)).
    { rewrite Z.shiftl_1_l. apply Z.pow_pos_nonneg; lia. }
    replace (- e - 1) with (k - 1) by (unfold k; lia).
    revert Hq1 Hh. generalize (Zpos m - q * 2 ^ k) (Z.shiftl 1 (k - 1)).
    intros r half Hq1 Hh.
    destruct (r <? half) eqn:E1; [lia|].
    destruct (half <? r) eqn:E2.
    + apply Z.ltb_lt in E2. lia.
    + apply Z.ltb_ge in E1, E2. destruct (Z.even q); lia.
Qed.

(** ** Ten times a clamped angle *)

Lemma Prim2SF_ten : Prim2SF 10 = S754_finite false 5629499534213120 (-49).
Proof. reflexivity. Qed.

Lemma scaled_times_ten (m : positive) (e : Z) :
  -1074 <= e ->
  scaled (Zpos (m * 5629499534213120)) (e + -49) = 10 * scaled (Zpos m) e.
Proof.
  intros He. unfold scaled. rewrite Pos2Z.inj_mul.
  replace (e + 2200) with (49 + (e + -49 + 2200)) by lia.
  rewrite (Z.pow_add_r 2 49) by lia.
  change (Zpos 5629499534213120) with (10 * 2 ^ 49). ring.
Qed.

Lemma digits_times_ten (m : positive) :
  53 <= Zpos (digits2_pos (m * 5629499534213120)).
Proof.
  pose proof (digits2_pos_bounds (m * 5629499534213120)) as [_ H].
  rewrite Pos2Z.inj_mul in H.
  destruct (Z.le_gt_cases 53 (Zpos (digits2_pos (m * 5629499534213120))))
    as [Hle|Hgt]; [exact Hle|]. exfalso.
  assert (H52 : 2 ^ Zpos (digits2_pos (m * 5629499534213120)) <= 2 ^ 52)
    by (apply Z.pow_le_mono_r; lia).
  change (2 ^ 52) with 4503599627370496 in H52.
  revert H H52. generalize (2 ^ Zpos (digits2_pos (m * 5629499534213120))).
  intros p H H52. lia.
Qed.

(** [round(x * 10.0)] for a finite [x] whose magnitude is at most the one
    of [(mb, eb)], ten times which is the integer [N]. *)
Lemma py_round_times_ten (x : float) (s : bool) (m mb mB : positive)
  (e eb eB N : Z) :
  Prim2SF x = S754_finite s m e ->
  bounded prec emax mb eb = true ->
  bounded prec emax mB eB = true ->
  mag_key m e <= mag_key mb eb ->
  10 * scaled (Zpos mb) eb = scaled (Zpos mB) eB ->
  scaled (Zpos mB) eB = scaled N 0 ->
  exists k, py_round (x * 10) = Ok (cond_Zopp s k) /\ 0 <= k <= N.
Proof.
  intros Hx Hb HB Hkey H10 HN.
  pose proof (Prim2SF_valid x) as Hv. rewrite Hx in Hv. cbn in Hv.
  destruct (bounded_normal m e Hv) as (He & _ & _).
  pose proof (Prim2SF_valid (x * 10)) as Hvr.
  unfold py_round. rewrite mul_spec, Hx, Prim2SF_ten in *.
  unfold SF64mul in *. cbn [SFmul] in *.
  rewrite xorb_false_r in *.
  pose proof (digits_times_ten m) as Hd.
  assert (HN0 : 0 <= N).
  { apply (scaled_le_inv _ _ 0); [lia|]. rewrite <- HN.
    unfold scaled. rewrite Z.mul_0_l.
    destruct (bounded_normal mB eB HB) as (HeB & _ & _).
    apply Z.mul_nonneg_nonneg; [lia|]. apply Z.lt_le_incl, scaled_pos. lia. }
  destruct (round_upper s (m * 5629499534213120) mB (e + -49) eB)
    as [Hr|(m' & e' & Hr & Hs)].
  - lia.
  - rewrite fexp_eq. lia.
  - exact HB.
  - rewrite scaled_times_ten by lia. rewrite <- H10.
    apply Z.mul_le_mono_nonneg_l; [lia|]. now apply mag_key_le_scaled.
  - rewrite Hr. exists 0. split; [now destruct s | lia].
  - rewrite Hr in *. cbn in Hvr.
    destruct (bounded_normal m' e' Hvr) as (He' & _ & _).
    exists (round_half_even m' e'). split; [reflexivity|].
    apply round_half_even_bound; [lia|]. now rewrite <- HN.
Qed.

(** [round(c * 10.0)] for [c] between a negative and a positive bound. *)
Lemma py_round_clamped (c lo hi : float)
  (mlo mhi mLo mHi : positive) (elo ehi eLo eHi Nlo Nhi : Z) :
  Prim2SF lo = S754_finite true mlo elo ->
  Prim2SF hi = S754_finite false mhi ehi ->
  bounded prec emax mLo eLo = true -> bounded prec emax mHi eHi = true ->
  10 * scaled (Zpos mlo) elo = scaled (Zpos mLo) eLo ->
  10 * scaled (Zpos mhi) ehi = scaled (Zpos mHi) eHi ->
  scaled (Zpos mLo) eLo = scaled Nlo 0 ->
  scaled (Zpos mHi) eHi = scaled Nhi 0 ->
  0 <= Nlo -> 0 <= Nhi ->
  (lo <=? c)%float = true -> (c <=? hi)%float = true ->
  exists y, py_round (c * 10) = Ok y /\ - Nlo <= y <= Nhi.
Proof.
  intros Hlo Hhi HbLo HbHi H10lo H10hi HNlo HNhi H0lo H0hi Hle1 Hle2.
  pose proof (Prim2SF_valid lo) as Vlo. rewrite Hlo in Vlo. cbn in Vlo.
  pose proof (Prim2SF_valid hi) as Vhi. rewrite Hhi in Vhi. cbn in Vhi.
  destruct (bounded_normal mlo elo Vlo) as (Helo & Hmlo & _).
  destruct (bounded_normal mhi ehi Vhi) as (Hehi & Hmhi & _).
  rewrite leb_key in Hle1, Hle2. unfold fkey in Hle1, Hle2.
  rewrite Hlo in Hle1. rewrite Hhi in Hle2. cbn [sf_key cond_Zopp] in Hle1, Hle2.
  change (2 ^ 53) with 9007199254740992 in *.
  destruct (Prim2SF c) as [s|s| |s m e] eqn:Hc; cbn [sf_key] in Hle1, Hle2;
    try discriminate; change (2 ^ 53) with 9007199254740992 in *.
  - exists 0. split; [|lia].
    unfold py_round. rewrite mul_spec, Hc, Prim2SF_ten. reflexivity.
  - exfalso. apply Z.leb_le in Hle1, Hle2.
    clear - Hle1 Hle2 Helo Hmlo Hehi Hmhi.
    destruct s; cbn [cond_Zopp] in *; lia.
  - apply Z.leb_le in Hle1, Hle2. destruct s; cbn [cond_Zopp] in *.
    + destruct (py_round_times_ten c true m mlo mLo e elo eLo Nlo)
        as (k & Hk & Hr); try assumption.
      { unfold mag_key. change (2 ^ 53) with 9007199254740992. lia. }
      exists (cond_Zopp true k). split; [exact Hk | cbn; lia].
    + destruct (py_round_times_ten c false m mhi mHi e ehi eHi Nhi)
        as (k & Hk & Hr); try assumption.
      exists (cond_Zopp false k). split; [exact Hk | cbn; lia].
Qed.

Ltac float_const :=
  lazymatch goal with
  | |- Prim2SF _ = _ => vm_compute; reflexivity
  | |- bounded _ _ _ _ = true => vm_compute; reflexivity
  | |- context [scaled] => unfold scaled; vm_compute; reflexivity
  | |- _ => assumption || lia
  end.

Lemma yaw_tenths (c : float) :
  (YAW_MIN <=? c)%float = true -> (c <=? YAW_MAX)%float = true ->
  exists y, py_round (c * 10) = Ok y /\ -1350 <= y <= 1350.
Proof.
  intros H1 H2.
  apply (py_round_clamped c YAW_MIN YAW_MAX
           4749890231992320 4749890231992320
           5937362789990400 5937362789990400
           (-45) (-45) (-42) (-42) 1350 1350);
    float_const.
Qed.

Lemma pitch_tenths (c : float) :
  (PITCH_MIN <=? c)%float = true -> (c <=? PITCH_MAX)%float = true ->
  exists p, py_round (c * 10) = Ok p /\ -900 <= p <= 450.
Proof.
  intros H1 H2.
  apply (py_round_clamped c PITCH_MIN PITCH_MAX
           6333186975989760 6333186975989760
           7916483719987200 7916483719987200
           (-46) (-47) (-43) (-44) 900 450);
    float_const.
Qed.

(** ** Adding a non-negative float *)

Lemma pos_iter_xO (m d : positive) :
  Zpos (Pos.iter xO m d) = Zpos m * 2 ^ Zpos d.
Proof.
  induction d as [|d IH] using Pos.peano_ind.
  - cbn [Pos.iter]. change (2 ^ 1) with 2. lia.
  - rewrite Pos.iter_succ, Pos2Z.inj_succ, Z.pow_succ_r by lia.
    change (Zpos (Pos.iter xO m d)~0) with (2 * Zpos (Pos.iter xO m d)).
    rewrite IH. ring.
Qed.

Lemma shl_align_spec (m : positive) (e e' : Z) :
  exists m' e'',
    shl_align m e e' = (m', e'') /\ e'' = Z.min e e' /\
    Zpos m' = Zpos m * 2 ^ (e - e'') /\
    Zpos (digits2_pos m') = Zpos (digits2_pos m) + (e - e'').
Proof.
  unfold shl_align. destruct (e' - e) as [|d|d] eqn:Hd.
  - exists m, e. replace (Z.min e e') with e by lia.
    rewrite Z.sub_diag. change (2 ^ 0) with 1. repeat split; lia.
  - exists m, e. replace (Z.min e e') with e by lia.
    rewrite Z.sub_diag. change (2 ^ 0) with 1. repeat split; lia.
  - exists (Pos.iter xO m d), e'. replace (Z.min e e') with e' by lia.
    replace (e - e') with (Zpos d) by lia.
    rewrite pos_iter_xO, digits2_pos_iter_xO. repeat split; lia.
Qed.

(** [binary_round] aligns the mantissa on the exponent of the format and
    rounds; the bounds of [binary_round_aux] carry over. *)
Lemma binary_round_cases (s : bool) (p : positive) (e : Z) :
  -1074 <= e ->
  exists mz ez,
    binary_round prec emax s p e
    = binary_round_aux prec emax s (Zpos mz) ez loc_Exact /\
    -1074 <= ez /\
    ez <= fexp prec emax (Zpos (digits2_pos mz) + ez) /\
    scaled (Zpos mz) ez = scaled (Zpos p) e.
Proof.
  intros He. unfold binary_round.
  destruct (shl_align_spec p e (fexp prec emax (Zpos (digits2_pos p) + e)))
    as (mz & ez & Hs & Hez & Hv & Hd).
  rewrite Hs. exists mz, ez. split; [reflexivity|].
  rewrite fexp_eq in Hez. rewrite Hd, fexp_eq.
  split; [lia|]. split; [lia|].
  rewrite Hv, scaled_shift by lia. f_equal. lia.
Qed.

Lemma binary_round_upper (s : bool) (p mb : positive) (e eb : Z) :
  -1074 <= e -> bounded prec emax mb eb = true ->
  scaled (Zpos p) e <= scaled (Zpos mb) eb ->
  binary_round prec emax s p e = S754_zero s \/
  exists m' e',
    binary_round prec emax s p e = S754_finite s m' e' /\
    scaled (Zpos m') e' <= scaled (Zpos mb) eb.
Proof.
  intros He Hb H.
  destruct (binary_round_cases s p e He) as (mz & ez & -> & Hez & Hf & Hv).
  apply round_upper; [lia | exact Hf | exact Hb | now rewrite Hv].
Qed.

Lemma binary_round_lower (s : bool) (p mb : positive) (e eb : Z) :
  -1074 <= e -> bounded prec emax mb eb = true ->
  scaled (Zpos mb) eb <= scaled (Zpos p) e ->
  binary_round prec emax s p e = S754_infinity s \/
  exists m' e',
    binary_round prec emax s p e = S754_finite s m' e' /\
    scaled (Zpos mb) eb <= scaled (Zpos m') e'.
Proof.
  intros He Hb H.
  destruct (binary_round_cases s p e He) as (mz & ez & -> & Hez & Hf & Hv).
  apply round_lower; [lia | exact Hf | exact Hb | now rewrite Hv].
Qed.

Lemma binary_round_aux_sign (s : bool) (M : positive) (E : Z) :
  E <= fexp prec emax (Zpos (digits2_pos M) + E) ->
  let r := binary_round_aux prec emax s (Zpos M) E loc_Exact in
  r = S754_zero s \/ r = S754_infinity s \/ exists m e, r = S754_finite s m e.
Proof.
  intros Hf.
  destruct (binary_round_aux_exact s M E Hf) as (m2 & _ & _ & [[_ H]|H]).
  - now left.
  - destruct H as (m & e & _ & _ & _ & _ & H). cbv zeta. rewrite H.
    destruct (e <=? 971); [right; right; eauto | right; now left].
Qed.

Lemma binary_round_sign (s : bool) (p : positive) (e : Z) :
  -1074 <= e ->
  let r := binary_round prec emax s p e in
  r = S754_zero s \/ r = S754_infinity s \/ exists m e, r = S754_finite s m e.
Proof.
  intros He.
  destruct (binary_round_cases s p e He) as (mz & ez & H & _ & Hf & _).
  cbv zeta. rewrite H. now apply binary_round_aux_sign.
Qed.

Lemma mag_key_pos (m : positive) (e : Z) :
  bounded prec emax m e = true -> 0 < mag_key m e < 2047 * 2 ^ 53.
Proof.
  intros Hb. destruct (bounded_normal m e Hb) as (He & Hm & _).
  unfold mag_key. change (2 ^ 53) with 9007199254740992 in *. lia.
Qed.

Lemma shl_align_fst (m : positive) (e e' : Z) :
  e' <= e -> -2200 <= e' ->
  scaled (Zpos (fst (shl_align m e e'))) e' = scaled (Zpos m) e.
Proof.
  intros H He'.
  destruct (shl_align_spec m e e') as (m' & e'' & Hs & He'' & Hv & _).
  rewrite Hs. cbn [fst]. replace e'' with e' in Hv by lia.
  rewrite Hv, scaled_shift by lia. f_equal. lia.
Qed.

(** The sum of a float and of a non-negative float is not below the
    former. *)
Lemma SFadd_nonneg (X T : spec_float) (kt : Z) :
  valid_binary X = true -> valid_binary T = true ->
  valid_binary (SFadd prec emax X T) = true ->
  sf_key T = Some kt -> 0 <= kt ->
  match sf_key (SFadd prec emax X T), sf_key X with
  | Some a, Some b => a <? b
  | _, _ => false
  end = false.
Proof.
  intros VX VT VR HT Hkt.
  destruct T as [st|st| |st mt et]; cbn [sf_key] in HT; try discriminate;
    injection HT as HT.
  - (* T is a zero *)
    destruct X as [sx|sx| |sx mx ex]; cbn [SFadd sf_key].
    + destruct sx, st; cbn [sf_key]; reflexivity.
    + apply Z.ltb_irrefl.
    + reflexivity.
    + apply Z.ltb_irrefl.
  - (* T is an infinity, hence the positive one *)
    assert (st = false) by (destruct st; [cbn in HT; lia | reflexivity]).
    subst st. destruct X as [sx|sx| |sx mx ex]; cbn [SFadd sf_key].
    + reflexivity.
    + destruct sx; cbn [sf_key]; [reflexivity | apply Z.ltb_irrefl].
    + reflexivity.
    + cbn [cond_Zopp]. cbn in VX. pose proof (mag_key_pos mx ex VX) as Hk.
      unfold mag_key in Hk. apply Z.ltb_ge. destruct sx; cbn [cond_Zopp]; lia.
  - (* T is finite, hence positive *)
    cbn in VT. pose proof (mag_key_pos mt et VT) as Hkt'. unfold mag_key in Hkt'.
    assert (st = false) by (destruct st; [cbn in HT; lia | reflexivity]).
    subst st. clear HT Hkt.
    destruct (bounded_normal mt et VT) as (Het & _ & _).
    destruct X as [sx|sx| |sx mx ex].
    + cbn [SFadd sf_key cond_Zopp]. apply Z.ltb_ge. lia.
    + cbn [SFadd sf_key]. apply Z.ltb_irrefl.
    + reflexivity.
    + cbn in VX. pose proof (mag_key_pos mx ex VX) as Hkx. unfold mag_key in Hkx.
      destruct (bounded_normal mx ex VX) as (Hex & _ & _).
      cbn [SFadd] in VR |- *.
      set (ez := Z.min ex et) in *.
      assert (Hez : -1074 <= ez) by (unfold ez; lia).
      pose proof (shl_align_fst mx ex ez ltac:(unfold ez; lia) ltac:(lia)) as Hax.
      pose proof (shl_align_fst mt et ez ltac:(unfold ez; lia) ltac:(lia)) as Hat.
      set (ax := fst (shl_align mx ex ez)) in *.
      set (at_ := fst (shl_align mt et ez)) in *.
      cbn [cond_Zopp sf_key].
      destruct sx; cbn [cond_Zopp] in *.
      * (* X negative *)
        destruct (- Zpos ax + Zpos at_) as [|p|p] eqn:HS;
          cbn [binary_normalize] in VR |- *.
        -- cbn [sf_key]. apply Z.ltb_ge. lia.
        -- destruct (binary_round_sign false p ez Hez)
             as [Hr|[Hr|(m & e & Hr)]]; rewrite Hr in *; cbn [sf_key cond_Zopp];
             apply Z.ltb_ge; try lia.
           cbn in VR. pose proof (mag_key_pos m e VR) as Hk. unfold mag_key in Hk.
           lia.
        -- assert (Hp : scaled (Zpos p) ez <= scaled (Zpos mx) ex).
           { rewrite <- Hax. apply scaled_le_mono; lia. }
           destruct (binary_round_upper true p mx ez ex Hez VX Hp)
             as [Hr|(m & e & Hr & Hs)]; rewrite Hr in *; cbn [sf_key cond_Zopp];
             apply Z.ltb_ge; [lia|].
           cbn in VR. pose proof (scaled_le_mag_key m mx e ex VR VX Hs) as Hk.
           unfold mag_key in Hk. lia.
      * (* X positive *)
        destruct (Zpos ax + Zpos at_) as [|p|p] eqn:HS; try lia.
        cbn [binary_normalize] in VR |- *.
        assert (Hp : scaled (Zpos mx) ex <= scaled (Zpos p) ez).
        { rewrite <- Hax. apply scaled_le_mono; lia. }
        destruct (binary_round_lower false p mx ez ex Hez VX Hp)
          as [Hr|(m & e & Hr & Hs)]; rewrite Hr in *; cbn [sf_key cond_Zopp];
          apply Z.ltb_ge; [lia|].
        cbn in VR. pose proof (scaled_le_mag_key mx m ex e VX VR Hs) as Hk.
        unfold mag_key in Hk. lia.
Qed.

Lemma add_nonneg_not_lt (x t : float) :
  (0 <=? t)%float = true -> (x + t <? x)%float = false.
Proof.
  intros Ht. rewrite ltb_key. unfold fkey. rewrite add_spec.
  rewrite leb_key, fkey_zero in Ht. unfold fkey in Ht.
  destruct (sf_key (Prim2SF t)) as [kt|] eqn:Hk; [|discriminate].
  apply Z.leb_le in Ht.
  apply (SFadd_nonneg (Prim2SF x) (Prim2SF t) kt);
    try apply Prim2SF_valid; try assumption.
  unfold SF64add. rewrite <- add_spec. apply Prim2SF_valid.
Qed.

Lemma digits_ge_53 (p : positive) :
  2 ^ 52 <= Zpos p -> 53 <= Zpos (digits2_pos p).
Proof.
  intros H. pose proof (digits2_pos_bounds p) as [_ Hd].
  destruct (Z.le_gt_cases 53 (Zpos (digits2_pos p))) as [Hle|Hgt]; [exact Hle|].
  exfalso.
  assert (H52 : 2 ^ Zpos (digits2_pos p) <= 2 ^ 52)
    by (apply Z.pow_le_mono_r; lia).
  revert H Hd H52. generalize (2 ^ Zpos (digits2_pos p)) (2 ^ 52).
  intros a b H Hd H52. lia.
Qed.

(** One zoom step in the positive direction is not negative. *)
Lemma one_mul_nonneg (s : float) :
  (0 <=? s)%float = true -> (0 <=? 1 * s)%float = true.
Proof.
  intros Hs. rewrite leb_key, fkey_zero in Hs |- *. unfold fkey in *.
  pose proof (Prim2SF_valid (1 * s)) as VR.
  pose proof (Prim2SF_valid s) as VS.
  rewrite mul_spec in *.
  change (Prim2SF 1) with (S754_finite false 4503599627370496 (-52)) in *.
  unfold SF64mul in *.
  destruct (Prim2SF s) as [ss|ss| |ss m e]; cbn [sf_key] in Hs;
    try discriminate; apply Z.leb_le in Hs; cbn [SFmul] in VR |- *.
  - reflexivity.
  - destruct ss; cbn [cond_Zopp] in Hs; [lia | reflexivity].
  - cbn in VS. pose proof (mag_key_pos m e VS) as Hk. unfold mag_key in Hk.
    destruct ss; cbn [cond_Zopp] in Hs; [lia|]. cbn [xorb] in VR |- *.
    destruct (bounded_normal m e VS) as (He & _ & _).
    assert (Hd : 53 <= Zpos (digits2_pos (4503599627370496 * m))).
    { apply digits_ge_53. rewrite Pos2Z.inj_mul.
      change (2 ^ 52) with 4503599627370496. lia. }
    destruct (binary_round_aux_sign false (4503599627370496 * m) (-52 + e))
      as [Hr|[Hr|(m' & e' & Hr)]].
    + rewrite fexp_eq. lia.
    + rewrite Hr. reflexivity.
    + rewrite Hr. reflexivity.
    + rewrite Hr in *. cbn in VR. pose proof (mag_key_pos m' e' VR) as Hk'.
      unfold mag_key in Hk'. cbn [sf_key cond_Zopp]. apply Z.leb_le. lia.
Qed.

(** ** The zoom at its maximum, and the packing of the angle command *)

Lemma joystick_target_ok (u : updates) (targets : list target) (self : ptz) :
  snd (joystick_target u targets self) = Ok tt.
Proof.
  destruct (Z.eq_dec (target_delta u) 0) as [Hd|Hd].
  - unfold joystick_target, when. rewrite Hd. reflexivity.
  - destruct targets as [|t ts].
    + unfold joystick_target, when. cbn [length Nat.eqb negb].
      now rewrite andb_false_r.
    + destruct (joystick_target_run u (t :: ts) self Hd ltac:(discriminate))
        as (first & _ & [[_ ->]|[_ (a & i & tid & _ & _ & _ & _ & _ & ->)]]);
        reflexivity.
Qed.

Lemma zoom_stays_at_max (zmin zmax z step : float) :
  (zmin <=? zmax)%float = true ->
  (0 <=? step)%float = true ->
  (z =? zmax)%float = true ->
  (py_max zmin (py_min zmax (z + 1 * step)) =? zmax)%float = true.
Proof.
  intros Hc Hs Hz.
  pose proof (add_nonneg_not_lt z (1 * step) (one_mul_nonneg step Hs)) as Hadd.
  unfold py_max, py_min.
  destruct (z + 1 * step <? zmax)%float eqn:E1.
  - exfalso. clear - Hadd Hz E1. float_order.
  - destruct (zmin <? zmax)%float eqn:E2; clear - Hc Hz E2; float_order.
Qed.

Lemma lor_bytes_16 (v : Z) :
  Z.lor (Z.land v 255) (Z.shiftl (Z.land (Z.shiftr v 8) 255) 8)
  = Z.land v 65535.
Proof.
  change 255 with (Z.ones 8). change 65535 with (Z.ones 16).
  apply Z.bits_inj'. intros n Hn.
  rewrite Z.lor_spec, !Z.land_spec, !Z.testbit_ones by lia.
  destruct (Z.ltb_spec n 8) as [H8|H8].
  - rewrite Z.shiftl_spec_low by lia.
    replace (0 <=? n) with true by (symmetry; apply Z.leb_le; lia).
    replace (n <? 16) with true by (symmetry; apply Z.ltb_lt; lia).
    cbn [andb]. now rewrite orb_false_r.
  - rewrite Z.shiftl_spec, Z.land_spec, Z.shiftr_spec, Z.testbit_ones by lia.
    replace (n - 8 + 8) with n by lia.
    replace (0 <=? n) with true by (symmetry; apply Z.leb_le; lia).
    replace (0 <=? n - 8) with true by (symmetry; apply Z.leb_le; lia).
    cbn [andb]. rewrite andb_false_r. cbn [orb]. f_equal.
    destruct (Z.ltb_spec (n - 8) 8), (Z.ltb_spec n 16); try reflexivity; lia.
Qed.

Lemma pack_h_ok (v : Z) :
  -32768 <= v <= 32767 ->
  exists b0 b1, pack_h v = Ok [b0; b1] /\ unpack_h [b0; b1] = Ok v.
Proof.
  intros H. unfold pack_h.
  replace ((-32768 <=? v) && (v <=? 32767)) with true
    by (symmetry; apply andb_true_iff; split; apply Z.leb_le; lia).
  do 2 eexists. split; [reflexivity|].
  unfold unpack_h, unpack_H. rewrite !byte_val_of by apply land_255_range.
  cbn [bind]. rewrite lor_bytes_16. f_equal.
  change 65535 with (Z.ones 16). rewrite Z.land_ones by lia.
  change (2 ^ 16) with 65536. unfold to_signed16.
  destruct (Z.le_gt_cases 0 v) as [Hpos|Hneg].
  - rewrite Z.mod_small by lia. destruct (Z.ltb_spec v 32768); lia.
  - replace (v mod 65536) with (v + 65536).
    + destruct (Z.ltb_spec (v + 65536) 32768); lia.
    + apply Z.mod_unique with (-1); lia.
Qed.

Lemma pack_hh_ok (a b : Z) :
  -32768 <= a <= 32767 -> -32768 <= b <= 32767 ->
  exists data,
    pack_hh a b = Ok data /\ length data = 4%nat /\
    unpack_h (slice 0 2 data) = Ok a /\ unpack_h (slice 2 4 data) = Ok b.
Proof.
  intros Ha Hb. unfold pack_hh.
  destruct (pack_h_ok a Ha) as (a0 & a1 & -> & Hua).
  destruct (pack_h_ok b Hb) as (b0 & b1 & -> & Hub).
  exists [a0; a1; b0; b1]. now repeat split.
Qed.

Lemma poll_total {A} (body : Z * Z * Z * bytes -> result (option A))
  (t0 : float) (turns : list turn) :
  (forall f, exists r, body f = Ok r) ->
  exists r, poll body t0 turns = Ok r.
Proof.
  intros Hbody. induction turns as [|t turns IH]; [eexists; reflexivity|].
  cbn [poll]. destruct (now t - t0 <? TIMEOUT_S)%float; [|eauto].
  destruct (rx t) as [raw|]; [|eauto].
  destruct (parse_packet_total raw) as ([f|] & ->); cbn [bind]; [|exact IH].
  destruct (Hbody f) as ([x|] & ->); cbn [bind]; eauto.
Qed.

Lemma angles_ack_total (f : Z * Z * Z * bytes) :
  exists r, angles_ack f = Ok r.
Proof.
  destruct f as [[[ctrl rseq] cmd] data].
  destruct (angles_ack_spec ctrl rseq cmd data)
    as [(_ & _ & _ & v & a & _ & _ & ->)|(_ & ->)]; eauto.
Qed.

(** [set_angles_with_ack] from end to end: it never raises for a 16-bit
    sequence number. *)
Lemma set_angles_with_ack_run
  (seq : Z) (yaw_deg pitch_deg t0 : float) (turns : list turn) :
  0 <= seq <= 65535 ->
  let yaw := clamp yaw_deg YAW_MIN YAW_MAX in
  let pitch := clamp pitch_deg PITCH_MIN PITCH_MAX in
  ((YAW_MIN <=? yaw) && (yaw <=? YAW_MAX))%float = true /\
  ((PITCH_MIN <=? pitch) && (pitch <=? PITCH_MAX))%float = true /\
  exists y p data pkt r,
    py_round (yaw * 10) = Ok y /\ -1350 <= y <= 1350 /\
    py_round (pitch * 10) = Ok p /\ -900 <= p <= 450 /\
    pack_hh y p = Ok data /\
    unpack_h (slice 0 2 data) = Ok y /\
    unpack_h (slice 2 4 data) = Ok p /\
    parse_packet pkt = Ok (Some (1, seq, 0x0E, data)) /\
    poll angles_ack t0 turns = Ok r /\
    set_angles_with_ack seq yaw_deg pitch_deg t0 turns
    = Ok ({| sent := pkt; answer := r |}, (yaw, pitch)).
Proof.
  intros Hseq yaw pitch.
  destruct (py_max_min_range YAW_MIN YAW_MAX yaw_deg eq_refl) as [Hy1 Hy2].
  destruct (py_max_min_range PITCH_MIN PITCH_MAX pitch_deg eq_refl)
    as [Hp1 Hp2].
  fold (clamp yaw_deg YAW_MIN YAW_MAX) in Hy1, Hy2.
  fold (clamp pitch_deg PITCH_MIN PITCH_MAX) in Hp1, Hp2.
  fold yaw in Hy1, Hy2. fold pitch in Hp1, Hp2.
  split; [now rewrite Hy1, Hy2|]. split; [now rewrite Hp1, Hp2|].
  destruct (yaw_tenths yaw Hy1 Hy2) as (y & Hy & Hyr).
  destruct (pitch_tenths pitch Hp1 Hp2) as (p & Hp & Hpr).
  destruct (pack_hh_ok y p) as (data & Hdata & Hlen & Huy & Hup); [lia..|].
  destruct (parse_fields_build 0x0E data seq true) as (pkt & Hb & Hpf);
    [lia | rewrite Hlen; cbn; lia | exact Hseq |].
  destruct (poll_total angles_ack t0 turns angles_ack_total) as (r & Hr).
  exists y, p, data, pkt, r.
  repeat split; try assumption; try lia.
  - unfold parse_packet. rewrite Hpf. reflexivity.
  - unfold set_angles_with_ack. fold yaw pitch.
    rewrite Hy, Hp. cbn [bind]. rewrite Hdata. cbn [bind].
    rewrite Hb. cbn [bind]. rewrite Hr. reflexivity.
Qed.

Lemma attitude_reply_total (f : Z * Z * Z * bytes) :
  exists r, attitude_reply f = Ok r.
Proof.
  destruct f as [[[ctrl rseq] cmd] data].
  destruct (attitude_reply_spec ctrl rseq cmd data)
    as [(_ & _ & v & a & _ & _ & ->)|(_ & ->)]; eauto.
Qed.

(* ================================================================== *)
(** * Claims *)

(** C1. For every command id in a byte, every payload of at most 65535
    bytes, every 16-bit sequence number and either value of the
    ack-requested flag, [build_packet] returns a frame, [parse_packet]
    accepts that frame and gives back the same command id, payload and
    sequence number, and bit 0 of the decoded control byte is the
    ack-requested flag.  The checksum is a function of the bytes (and of the
    seed): equal inputs give equal outputs, which fit 16 bits. *)
Theorem build_parse_roundtrip
  (cmd_id : Z) (data : bytes) (seq : Z) (need_ack : bool) :
  0 <= cmd_id <= 255 ->
  Z.of_nat (length data) <= 65535 ->
  0 <= seq <= 65535 ->
  (exists pkt ctrl,
      build_packet cmd_id data seq need_ack = Ok pkt /\
      parse_packet pkt = Ok (Some (ctrl, seq, cmd_id, data)) /\
      Z.testbit ctrl 0 = need_ack) /\
  (forall (b b' : bytes) (init : Z),
      b = b' ->
      crc16_xmodem b init = crc16_xmodem b' init /\
      0 <= crc16_xmodem b init <= 65535).
Proof.
  intros Hc Hd Hs. split.
  - destruct (parse_fields_build cmd_id data seq need_ack Hc Hd Hs)
      as (pkt & Hb & Hp).
    exists pkt, (if need_ack then 1 else 0). split; [exact Hb|]. split.
    + unfold parse_packet. rewrite Hp. reflexivity.
    + now destruct need_ack.
  - intros b b' init ->. split; [reflexivity | apply crc16_xmodem_range].
Qed.

Lemma build_parse_roundtrip_witness :
  (0 <= 0x0E <= 255 /\ Z.of_nat (length [x46; x05; x7c; xfc]) <= 65535 /\
   0 <= 7 <= 65535) /\
  exists pkt ctrl,
    build_packet 0x0E [x46; x05; x7c; xfc] 7 true = Ok pkt /\
    parse_packet pkt = Ok (Some (ctrl, 7, 0x0E, [x46; x05; x7c; xfc])) /\
    Z.testbit ctrl 0 = true.
Proof.
  split.
  - cbn. lia.
  - apply (build_parse_roundtrip 0x0E [x46; x05; x7c; xfc] 7 true); cbn; lia.
Defined.

(** C2.  [set_angles_with_ack] clamps before it encodes.  Whatever the
    requested angles (NaN and the infinities included), the clamped yaw lies
    in [-135, 135] and the clamped pitch in [-90, 45]; the payload is the
    two little-endian signed 16-bit integers [round(yaw * 10)] and
    [round(pitch * 10)] of the clamped values, which lie in [-1350, 1350]
    and [-900, 450]; the frame sent carries command 0x0E, that payload and
    the ack-requested bit; and the pair returned as the command sent is the
    clamped pair.  For yaw 200 and pitch -999 the payload encodes 1350 and
    -900 and the pair returned is (135.0, -90.0). *)
Theorem set_angles_clamps :
  (forall (seq : Z) (yaw_deg pitch_deg t0 : float) (turns : list turn),
      0 <= seq <= 65535 ->
      let yaw := clamp yaw_deg YAW_MIN YAW_MAX in
      let pitch := clamp pitch_deg PITCH_MIN PITCH_MAX in
      ((YAW_MIN <=? yaw) && (yaw <=? YAW_MAX))%float = true /\
      ((PITCH_MIN <=? pitch) && (pitch <=? PITCH_MAX))%float = true /\
      exists y p data pkt r,
        py_round (yaw * 10) = Ok y /\ -1350 <= y <= 1350 /\
        py_round (pitch * 10) = Ok p /\ -900 <= p <= 450 /\
        pack_hh y p = Ok data /\
        unpack_h (slice 0 2 data) = Ok y /\
        unpack_h (slice 2 4 data) = Ok p /\
        parse_packet pkt = Ok (Some (1, seq, 0x0E, data)) /\
        poll angles_ack t0 turns = Ok r /\
        set_angles_with_ack seq yaw_deg pitch_deg t0 turns
        = Ok ({| sent := pkt; answer := r |}, (yaw, pitch))) /\
  (forall v lo hi : float,
      (lo <? v)%float = true -> (v <? hi)%float = true -> clamp v lo hi = v) /\
  (clamp 200 YAW_MIN YAW_MAX = 135%float /\
   clamp (-999) PITCH_MIN PITCH_MAX = (-90)%float /\
   pack_hh 1350 (-900) = Ok [x46; x05; x7c; xfc] /\
   set_angles_with_ack 7 200 (-999) 0 []
   = Ok ({| sent := [x55; x66; x01; x04; x00; x07; x00; x0e;
                     x46; x05; x7c; xfc; xfe; x1f];
            answer := Pending |}, (135%float, (-90)%float))).
Proof.
  split; [exact set_angles_with_ack_run|split].
  - intros v lo hi H1 H2. unfold clamp, py_max, py_min. now rewrite H2, H1.
  - repeat split; vm_compute; reflexivity.
Qed.

Lemma set_angles_clamps_witness :
  0 <= 7 <= 65535 /\
  exists y p data pkt r,
    py_round (clamp 200 YAW_MIN YAW_MAX * 10) = Ok y /\
    py_round (clamp (-999) PITCH_MIN PITCH_MAX * 10) = Ok p /\
    pack_hh y p = Ok data /\
    set_angles_with_ack 7 200 (-999) 0 []
    = Ok ({| sent := pkt; answer := r |},
          (clamp 200 YAW_MIN YAW_MAX, clamp (-999) PITCH_MIN PITCH_MAX)).
Proof.
  assert (H : 0 <= 7 <= 65535) by lia.
  split; [exact H|].
  destruct (proj1 set_angles_clamps 7 200%float (-999)%float 0%float [] H)
    as (_ & _ & y & p & data & pkt & r
        & Hy & _ & Hp & _ & Hd & _ & _ & _ & _ & Hs).
  exists y, p, data, pkt, r. now repeat split.
Defined.

(** C3 (amended). [parse_packet] never raises.  It returns [None] exactly
    when the buffer has fewer than 10 bytes, or its first two bytes are not
    0x55 0x66, or its last two bytes are not the little-endian CRC-16 of all
    the bytes before them.  Otherwise it returns the control byte, the
    sequence number, the command id and the slice [raw[8:8+length]], which
    holds [min(length, len(raw) - 8)] bytes: exactly [length] bytes only when
    the buffer is long enough, and fewer (checksum bytes included) when the
    declared length runs past the buffer. *)
Theorem parse_packet_spec (raw : bytes) :
  (not_a_frame raw /\ parse_packet raw = Ok None) \/
  (~ not_a_frame raw /\
   exists ctrl data_len seq cmd_id,
     index raw 2 = Ok ctrl /\
     unpack_H (slice 3 5 raw) = Ok data_len /\
     unpack_H (slice 5 7 raw) = Ok seq /\
     index raw 7 = Ok cmd_id /\
     parse_packet raw
     = Ok (Some (byte_val ctrl, seq, byte_val cmd_id,
                 slice 8 (8 + Z.to_nat data_len) raw)) /\
     length (slice 8 (8 + Z.to_nat data_len) raw)
     = Nat.min (Z.to_nat data_len) (length raw - 8)).
Proof.
  destruct (parse_fields_spec raw) as [[Hn Hp]|[Hn Hp]].
  - left. split; [exact Hn|]. unfold parse_packet. now rewrite Hp.
  - right. split; [exact Hn|].
    destruct Hp as (ctrl & dl & sq & cmd & H2 & H3 & H5 & H7 & Hp).
    exists ctrl, dl, sq, cmd. repeat split; try assumption.
    + unfold parse_packet. now rewrite Hp.
    + rewrite length_slice. f_equal. lia.
Qed.

(** C3, as stated, fails on [short_frame]: the three checks pass, the
    length field says 5, and the payload returned is the two checksum
    bytes. *)
Lemma parse_packet_short_payload :
  parse_fields short_frame
  = Ok (Some {| f_ctrl := 0; f_data_len := 5; f_seq := 7; f_cmd_id := 0x0D;
                f_data := [x8f; xe6] |}) /\
  parse_packet short_frame = Ok (Some (0, 7, 0x0D, [x8f; xe6])) /\
  Z.of_nat (length [x8f; xe6]) <> 5.
Proof. repeat split; [vm_compute; reflexivity .. | cbn; lia]. Qed.

(** C4 (amended).  Both requests poll inbound datagrams, one per turn of
    the loop.  [set_angles_with_ack] takes as its answer the first frame
    that decodes with a valid checksum, has command id 0x0E, has the ack bit
    (bit 1 of ctrl) set and carries at least 6 payload bytes, and returns
    the three angles decoded from those bytes.  [request_attitude] takes the
    first frame that decodes with a valid checksum, has command id 0x0D and
    carries at least 12 payload bytes, whatever its ack bit.  Every other
    datagram is dropped and polling goes on inside the same window.  The
    wait ends without an answer as soon as the window has elapsed at the
    loop test or the socket read times out. *)
Theorem poll_outcome :
  (forall raw : bytes,
      (answers_attitude raw /\
       exists ctrl rseq data v a,
         parse_packet raw = Ok (Some (ctrl, rseq, 0x0D, data)) /\
         unpack_hhhhhh (slice 0 12 data) = Ok v /\ decode_angles v = Ok a /\
         verdict attitude_reply raw = Ok (Some a)) \/
      (~ answers_attitude raw /\ verdict attitude_reply raw = Ok None)) /\
  (forall raw : bytes,
      (answers_angles raw /\
       exists ctrl rseq data v a,
         parse_packet raw = Ok (Some (ctrl, rseq, 0x0E, data)) /\
         unpack_hhh (slice 0 6 data) = Ok v /\ decode_angles v = Ok a /\
         verdict angles_ack raw = Ok (Some a)) \/
      (~ answers_angles raw /\ verdict angles_ack raw = Ok None)) /\
  (forall (A : Type) (body : Z * Z * Z * bytes -> result (option A))
          (t0 : float) (pre : list turn),
      Forall (skipped body t0) pre ->
      poll body t0 pre = Ok Pending /\
      forall (t : turn) (post : list turn),
        (forall raw x,
            in_window t0 t = true -> rx t = Datagram raw ->
            verdict body raw = Ok (Some x) ->
            poll body t0 (pre ++ t :: post) = Ok (Reply x)) /\
        (in_window t0 t = false \/ rx t = SocketTimeout ->
         poll body t0 (pre ++ t :: post) = Ok NoReply)) /\
  (forall (seq : Z) (t0 : float) (turns : list turn),
      0 <= seq <= 65535 ->
      exists pkt r,
        build_packet 0x0D [] seq true = Ok pkt /\
        poll attitude_reply t0 turns = Ok r /\
        request_attitude seq t0 turns = Ok {| sent := pkt; answer := r |}) /\
  (forall (seq : Z) (yaw_deg pitch_deg t0 : float) (turns : list turn),
      0 <= seq <= 65535 ->
      exists pkt r,
        poll angles_ack t0 turns = Ok r /\
        set_angles_with_ack seq yaw_deg pitch_deg t0 turns
        = Ok ({| sent := pkt; answer := r |},
              (clamp yaw_deg YAW_MIN YAW_MAX,
               clamp pitch_deg PITCH_MIN PITCH_MAX))).
Proof.
  split; [exact verdict_attitude|]. split; [exact verdict_angles|].
  split; [|split].
  - intros A body t0 pre Hpre. split.
    + rewrite <- (app_nil_r pre). now rewrite poll_skip.
    + intros t post. split.
      * intros raw x Hw Hrx Hv. rewrite poll_skip by exact Hpre.
        now apply (poll_reply body t0 t post raw x).
      * intros H. rewrite poll_skip by exact Hpre. now apply poll_timeout.
  - intros seq t0 turns Hs. unfold request_attitude.
    destruct (parse_fields_build 0x0D [] seq true) as (pkt & Hb & _);
      [lia | cbn; lia | exact Hs |].
    rewrite Hb. cbn [bind].
    destruct (poll_total attitude_reply t0 turns attitude_reply_total)
      as (r & Hr).
    exists pkt, r. rewrite Hr. now repeat split.
  - intros seq yaw pitch t0 turns Hs.
    destruct (set_angles_with_ack_run seq yaw pitch t0 turns Hs)
      as (_ & _ & y & p & data & pkt & r & _ & _ & _ & _ & _ & _ & _ & _ & Hr & H).
    exists pkt, r. split; assumption.
Qed.

(** C4, as stated, fails for [request_attitude]: a streamed attitude frame,
    ack bit clear, is taken as the answer instead of being dropped.  It also
    fails for [set_angles_with_ack]: an acknowledgement with the right
    command id and the ack bit set is dropped when its payload is shorter
    than six bytes. *)
Lemma request_attitude_takes_stream_frame :
  (parse_packet stream_frame
   = Ok (Some (0, 3, 0x0D,
               [x64; x00; xce; xff; x00; x00; x00; x00; x00; x00; x00; x00])) /\
   Z.testbit 0 1 = false /\
   request_attitude 7 0
     [{| now := 0x1p-4; rx := Datagram stream_frame |}]
   = Ok {| sent := sample_frame;
           answer := Reply (10%float, (-5)%float, 0%float) |}) /\
  (parse_packet short_ack_frame
   = Ok (Some (2, 9, 0x0E, [x46; x05; x7c; xfc])) /\
   Z.testbit 2 1 = true /\
   exists pkt target,
     set_angles_with_ack 7 200 (-999) 0
       [{| now := 0x1p-4; rx := Datagram short_ack_frame |}]
     = Ok ({| sent := pkt; answer := Pending |}, target)).
Proof.
  split; [repeat split; vm_compute; reflexivity|].
  split; [vm_compute; reflexivity|]. split; [reflexivity|].
  do 2 eexists. vm_compute. reflexivity.
Qed.

Lemma poll_outcome_witness :
  Forall (skipped attitude_reply 0)
    [{| now := 0x1p-5; rx := Datagram short_frame |}] /\
  poll attitude_reply 0
    ([{| now := 0x1p-5; rx := Datagram short_frame |}]
     ++ {| now := 0x1p-4; rx := Datagram stream_frame |} :: [])
  = Ok (Reply (10%float, (-5)%float, 0%float)).
Proof.
  assert (H : Forall (skipped attitude_reply 0)
                [{| now := 0x1p-5; rx := Datagram short_frame |}]).
  { constructor; [|constructor]. split; [vm_compute; reflexivity|].
    exists short_frame. split; [reflexivity | vm_compute; reflexivity]. }
  split; [exact H|].
  apply (proj1 (proj2 (proj1 (proj2 (proj2 poll_outcome))
                          _ attitude_reply 0%float _ H)
                  {| now := 0x1p-4; rx := Datagram stream_frame |} [])) with
    (raw := stream_frame); vm_compute; reflexivity.
Defined.

(** C5 (amended).  The frame is returned unmodified when [force_wide] is
    set, or there is no target, or [zoom <= 1.01].  Otherwise, for a target
    whose box has four coordinates and centre [(cx, cy)], in a frame of size
    [(w, h)] with [w, h >= 1], the crop is computed with truncation toward
    zero ([int]), not with rounding: [crop_w = clamp(int(w/zoom), 1, w)],
    [crop_h = clamp(int(h/zoom), 1, h)],
    [x1 = clamp(int(cx - crop_w/2), 0, w - crop_w)], [y1] likewise on [h],
    and the output is the rectangle [(x1, y1, x1+crop_w, y1+crop_h)], which
    lies inside the frame, resized to [(w, h)].  For a 640x480 frame, the
    box (270,190,370,290) and zoom 2.0 the rectangle is (160,120,480,360). *)
Theorem crop_and_zoom_spec :
  (forall (self : ptz) (frame : frame) (target : option target),
      force_wide self = true \/ target = None \/
      (zoom self <=? NO_ZOOM)%float = true ->
      _crop_and_zoom self (Some frame) target = Ok (Some Unmodified)) /\
  (forall (self : ptz) (frame : frame) (target : target)
          (b0 b1 b2 b3 : float) (rest : list float)
          (wf hf half_w half_h : float) (cw ch x y : Z),
      force_wide self = false ->
      (zoom self <=? NO_ZOOM)%float = false ->
      t_bbox target = b0 :: b1 :: b2 :: b3 :: rest ->
      1 <= width frame -> 1 <= height frame ->
      let w := width frame in
      let h := height frame in
      let cx := ((b0 + b2) / 2)%float in
      let cy := ((b1 + b3) / 2)%float in
      float_of_int w = Ok wf -> py_int (wf / zoom self)%float = Ok cw ->
      float_of_int h = Ok hf -> py_int (hf / zoom self)%float = Ok ch ->
      let crop_w := Z.max 1 (Z.min w cw) in
      let crop_h := Z.max 1 (Z.min h ch) in
      int_half crop_w = Ok half_w -> py_int (cx - half_w)%float = Ok x ->
      int_half crop_h = Ok half_h -> py_int (cy - half_h)%float = Ok y ->
      let x1 := Z.max 0 (Z.min (w - crop_w) x) in
      let y1 := Z.max 0 (Z.min (h - crop_h) y) in
      _crop_and_zoom self (Some frame) (Some target)
      = Ok (Some (Resized x1 y1 (x1 + crop_w) (y1 + crop_h) w h)) /\
      1 <= crop_w <= w /\ 1 <= crop_h <= h /\
      0 <= x1 /\ x1 + crop_w <= w /\ 0 <= y1 /\ y1 + crop_h <= h) /\
  _crop_and_zoom (zoomed 2 7) (Some vga) (Some centred)
  = Ok (Some (Resized 160 120 480 360 640 480)).
Proof.
  split; [|split; [|vm_compute; reflexivity]].
  - intros self frame target H. unfold _crop_and_zoom.
    destruct target as [t|]; [|reflexivity].
    destruct H as [H|[H|H]]; [now rewrite H | discriminate |].
    rewrite H. now rewrite orb_true_r.
  - intros self frame target b0 b1 b2 b3 rest wf hf half_w half_h cw ch x y
           Hfw Hz Hb Hw Hh w h cx cy Hwf Hcw Hhf Hch crop_w crop_h
           Hhw Hx Hhh Hy x1 y1.
    assert (Bw : 1 <= crop_w <= w) by (unfold crop_w; lia).
    assert (Bh : 1 <= crop_h <= h) by (unfold crop_h; lia).
    assert (Bx : 0 <= x1 /\ x1 + crop_w <= w) by (unfold x1; lia).
    assert (By : 0 <= y1 /\ y1 + crop_h <= h) by (unfold y1; lia).
    split; [|tauto].
    unfold _crop_and_zoom. rewrite Hfw, Hz, Hb. cbn [orb length Nat.ltb Nat.leb].
    cbn [index nth_error bind]. fold w h cx cy.
    rewrite Hwf. cbn [bind]. rewrite (truediv_zoomed wf _ Hz). cbn [bind].
    rewrite Hcw. cbn [bind].
    rewrite Hhf. cbn [bind]. rewrite (truediv_zoomed hf _ Hz). cbn [bind].
    rewrite Hch. cbn [bind]. fold crop_w crop_h.
    rewrite Hhw. cbn [bind]. rewrite Hx. cbn [bind].
    rewrite Hhh. cbn [bind]. rewrite Hy. cbn [bind]. fold x1 y1.
    rewrite (extent_inside h y1 crop_h), (extent_inside w x1 crop_w) by lia.
    reflexivity.
Qed.

(** C5, as stated, fails at zoom 1.5 on the same frame and box: the code
    truncates 640/1.5 to 426 and 320 - 213.0 to 107, where the rounding of
    the claim gives 427 and 106. *)
Lemma crop_truncates_not_rounds :
  (force_wide (zoomed 0x1.8p+0 7) = false /\
   (zoom (zoomed 0x1.8p+0 7) <=? NO_ZOOM)%float = false) /\
  _crop_and_zoom (zoomed 0x1.8p+0 7) (Some vga) (Some centred)
  = Ok (Some (Resized 107 80 533 400 640 480)) /\
  spec_crop 640 480 0x1.8p+0 320 240 = Ok (106, 80, 533, 400) /\
  (107, 80, 533, 400) <> (106, 80, 533, 400).
Proof.
  repeat split; try (vm_compute; reflexivity). intros H. discriminate.
Qed.

Lemma crop_and_zoom_spec_witness :
  (force_wide (zoomed 2 7) = false /\
   (zoom (zoomed 2 7) <=? NO_ZOOM)%float = false /\
   t_bbox centred = [270; 190; 370; 290]%float /\
   1 <= width vga /\ 1 <= height vga /\
   float_of_int 640 = Ok 640%float /\ py_int (640 / 2)%float = Ok 320 /\
   float_of_int 480 = Ok 480%float /\ py_int (480 / 2)%float = Ok 240 /\
   int_half 320 = Ok 160%float /\
   py_int ((270 + 370) / 2 - 160)%float = Ok 160 /\
   int_half 240 = Ok 120%float /\
   py_int ((190 + 290) / 2 - 120)%float = Ok 120) /\
  _crop_and_zoom (zoomed 2 7) (Some vga) (Some centred)
  = Ok (Some (Resized 160 120 (160 + 320) (120 + 240) 640 480)).
Proof.
  split; [repeat split; vm_compute; congruence|].
  apply (proj1 (proj2 crop_and_zoom_spec) (zoomed 2 7) vga centred
           270%float 190%float 370%float 290%float []
           640%float 480%float 160%float 120%float 320 240 160 120);
    vm_compute; congruence.
Defined.

(** C6. An identity is the target's id, or its position in the list when
    the id is absent.  On an event with [target_delta <> 0] and a non-empty
    list: if the active identity is not among this frame's identities it
    becomes the first identity of the list; otherwise it becomes the identity
    found [target_delta] places further, circularly, counting from the first
    place where the active identity occurs.  With identities 3, 7, 9 and
    active 7 one step gives 9 and the next gives 3; with identities 2, 5 and
    active 7 the handler picks 2.  (The zoom delta of the same event has to
    be an integer that converts to a float, which every integer below 2^53 in
    magnitude does.) *)
Theorem joystick_cycles_target :
  (forall (targets : list target) (i : nat) (t : target),
      nth_error targets i = Some t ->
      nth_error (identities targets) i
      = Some (match t_id t with Some tid => tid | None => Z.of_nat i end)) /\
  (forall (targets : list target) (u : updates) (self : ptz),
      target_delta u <> 0 -> targets <> [] ->
      Z.abs (zoom_delta u) < 2 ^ 53 ->
      let ids := identities targets in
      exists self' first,
        _apply_joystick targets (Some u) self = (self', Ok tt) /\
        nth_error ids 0 = Some first /\
        (contains (active_target_id self) ids = false ->
         active_target_id self' = Some first) /\
        (contains (active_target_id self) ids = true ->
         exists a i tid,
           active_target_id self = Some a /\
           nth_error ids i = Some a /\
           (forall j, (j < i)%nat -> nth_error ids j <> Some a) /\
           nth_error ids
             (Z.to_nat
                ((Z.of_nat i + target_delta u) mod Z.of_nat (length ids)))
           = Some tid /\
           active_target_id self' = Some tid)) /\
  (identities three_targets = [3; 7; 9] /\
   exists s1 s2,
     _apply_joystick three_targets (Some next_target) (following 7)
     = (s1, Ok tt) /\
     active_target_id s1 = Some 9 /\
     _apply_joystick three_targets (Some next_target) s1 = (s2, Ok tt) /\
     active_target_id s2 = Some 3) /\
  (identities two_targets = [2; 5] /\
   exists s1,
     _apply_joystick two_targets (Some next_target) (following 7)
     = (s1, Ok tt) /\
     active_target_id s1 = Some 2).
Proof.
  split; [|split; [|split]].
  - intros targets i t H. unfold identities.
    rewrite (nth_error_identities_from 0 targets i t H). reflexivity.
  - intros targets u self Hd Ht Hz ids.
    destruct (joystick_wide_zoom_run u self Hz) as (s1 & Hrun & Hact).
    destruct (apply_joystick_split u targets self s1 Hrun) as [Happ _].
    destruct (joystick_target_run u targets s1 Hd Ht)
      as (first & Hfirst & [[Hc Hr]|[Hc Hr]]); fold ids in Hfirst, Hc, Hr.
    + exists (set_active_target_id (Some first) s1), first.
      rewrite Happ, Hr.
      split; [reflexivity|]. split; [exact Hfirst|]. split.
      * intros _. reflexivity.
      * rewrite <- Hact. congruence.
    + destruct Hr as (a & i & tid & Ha & Hp & Hn & Hmin & Hnew & Hr).
      exists (set_force_wide false (set_active_target_id (Some tid) s1)), first.
      rewrite Happ, Hr.
      split; [reflexivity|]. split; [exact Hfirst|]. split.
      * rewrite <- Hact. congruence.
      * intros _. exists a, i, tid. rewrite <- Hact.
        split; [exact Ha|]. split; [exact Hn|]. split; [exact Hmin|].
        split; [exact Hnew | reflexivity].
  - split; [reflexivity|]. do 2 eexists.
    split; [vm_compute; reflexivity|]. split; [reflexivity|].
    split; [vm_compute; reflexivity|]. reflexivity.
  - split; [reflexivity|]. eexists.
    split; [vm_compute; reflexivity|]. reflexivity.
Qed.

Lemma joystick_cycles_target_witness :
  (target_delta next_target <> 0 /\ three_targets <> [] /\
   Z.abs (zoom_delta next_target) < 2 ^ 53) /\
  exists self' first,
    _apply_joystick three_targets (Some next_target) (following 7)
    = (self', Ok tt) /\
    nth_error (identities three_targets) 0 = Some first.
Proof.
  assert (H1 : target_delta next_target <> 0) by (cbn; lia).
  assert (H2 : three_targets <> []) by discriminate.
  assert (H3 : Z.abs (zoom_delta next_target) < 2 ^ 53) by (cbn; lia).
  split; [now repeat split|].
  destruct (proj1 (proj2 joystick_cycles_target)
              three_targets next_target (following 7) H1 H2 H3)
    as (s' & first & Hrun & Hfirst & _).
  exists s', first. split; assumption.
Defined.

(** C7 (amended).  With [zoom_min <= zoom_max], the invariant
    [zoom_min <= zoom <= zoom_max] holds after initialization and in the
    state that every joystick update leaves (wide reset, zoom adjustment,
    target cycling; also when the update raises), and the three
    configuration values are never changed.  When moreover
    [zoom_step >= 0], an event with [zoom_delta = +1] and no [wide], taken
    from a zoom equal to [zoom_max], ends normally and leaves the zoom equal
    to [zoom_max]. *)
Theorem zoom_invariant :
  (forall zmin zmax zstep : float,
      (zmin <=? zmax)%float = true -> zoom_in_range (init zmin zmax zstep)) /\
  (forall (targets : list target) (joystick : option updates) (self : ptz),
      (zoom_min self <=? zoom_max self)%float = true ->
      zoom_in_range self ->
      let self' := fst (_apply_joystick targets joystick self) in
      zoom_in_range self' /\
      zoom_min self' = zoom_min self /\ zoom_max self' = zoom_max self /\
      zoom_step self' = zoom_step self) /\
  (forall (targets : list target) (u : updates) (self : ptz),
      (zoom_min self <=? zoom_max self)%float = true ->
      (0 <=? zoom_step self)%float = true ->
      (zoom self =? zoom_max self)%float = true ->
      zoom_delta u = 1 -> wide u = false ->
      snd (_apply_joystick targets (Some u) self) = Ok tt /\
      (zoom (fst (_apply_joystick targets (Some u) self)) =? zoom_max self)%float
      = true).
Proof.
  split; [|split].
  - intros zmin zmax zstep H. split; cbn; [eapply leb_refl_l | ]; eassumption.
  - exact zoom_in_range_step.
  - intros targets u self Hc Hs Hz Hd Hw.
    unfold _apply_joystick, seq.
    rewrite joystick_wide_run, Hw, joystick_zoom_run, Hd.
    cbn [Z.eqb]. change (float_of_int 1) with (Ok 1%float). cbv beta iota.
    set (s2 := set_zoom _ _).
    destruct (joystick_target u targets s2) as [s3 r] eqn:Ht.
    pose proof (joystick_target_ok u targets s2) as Hok.
    pose proof (joystick_target_zoom u targets s2) as (Ez & _).
    rewrite Ht in Hok, Ez. cbn [fst snd] in *. split; [exact Hok|].
    rewrite Ez. unfold s2. cbn [zoom set_zoom].
    now apply zoom_stays_at_max.
Qed.

(** C7, as stated, fails: with the step -0.1 (and [zoom_min = 1 <= 3 =
    zoom_max]) one [zoom_delta = +1] event takes the zoom from 3.0 to 2.9;
    and with the default step an event that carries [wide] together with
    [zoom_delta = +1] takes it from 3.0 to 1.1. *)
Lemma zoom_leaves_max :
  ((1 <=? 3)%float = true /\
   zoom (fst (_apply_joystick [] (Some zoom_in)
                (set_zoom 3 (init 1 3 (-0x1.999999999999ap-4)))))
   = 0x1.7333333333333p+1%float /\
   (0x1.7333333333333p+1 =? 3)%float = false) /\
  (zoom (fst (_apply_joystick []
                (Some {| target_delta := 0; zoom_delta := 1; wide := true |})
                (zoomed 3 7)))
   = 0x1.199999999999ap+0%float /\
   (0x1.199999999999ap+0 =? 3)%float = false).
Proof. repeat split; vm_compute; reflexivity. Qed.

Lemma zoom_invariant_witness :
  ((zoom_min (zoomed 3 7) <=? zoom_max (zoomed 3 7))%float = true /\
   (0 <=? zoom_step (zoomed 3 7))%float = true /\
   (zoom (zoomed 3 7) =? zoom_max (zoomed 3 7))%float = true /\
   zoom_delta zoom_in = 1 /\ wide zoom_in = false) /\
  snd (_apply_joystick three_targets (Some zoom_in) (zoomed 3 7)) = Ok tt /\
  (zoom (fst (_apply_joystick three_targets (Some zoom_in) (zoomed 3 7)))
   =? zoom_max (zoomed 3 7))%float = true.
Proof.
  split; [repeat split; vm_compute; reflexivity|].
  apply (proj2 (proj2 zoom_invariant) three_targets zoom_in (zoomed 3 7));
    vm_compute; reflexivity.
Defined.

(** C8 (amended). Without a manual delta: an empty list selects nothing;
    when some detection's identity (its id, or its position when the id is
    absent) equals the active identity, the first such detection is
    selected; otherwise, the area of a box being its width times its height,
    [(x2 - x1) * (y2 - y1)]: when some detection has an area above zero, the
    selected detection has an area above zero, no detection has a larger
    area, and no detection before it has an area as large, so that ties go
    to the earliest; and when no detection has an area above zero, nothing
    is selected. *)
Theorem select_active_target_spec :
  (forall self : ptz, _select_active_target self [] = Ok None) /\
  (forall (targets : list target) (i : nat) (t : target),
      nth_error targets i = Some t ->
      nth_error (identities targets) i
      = Some (match t_id t with Some tid => tid | None => Z.of_nat i end)) /\
  (forall (self : ptz) (targets : list target) (a : Z) (i : nat) (t : target),
      active_target_id self = Some a ->
      nth_error targets i = Some t ->
      nth_error (identities targets) i = Some a ->
      (forall j, (j < i)%nat -> nth_error (identities targets) j <> Some a) ->
      _select_active_target self targets = Ok (Some t)) /\
  (forall (self : ptz) (targets : list target),
      contains (active_target_id self) (identities targets) = false ->
      Forall (fun t => (4 <= length (t_bbox t))%nat) targets ->
      (_select_active_target self targets = Ok None /\
       forall j t' a',
         nth_error targets j = Some t' -> spec_area (t_bbox t') = Some a' ->
         (0 <? a')%float = false) \/
      (exists i t a,
          nth_error targets i = Some t /\ spec_area (t_bbox t) = Some a /\
          (0 <? a)%float = true /\
          _select_active_target self targets = Ok (Some t) /\
          forall j t' a',
            nth_error targets j = Some t' -> spec_area (t_bbox t') = Some a' ->
            (a <? a')%float = false /\
            ((j < i)%nat -> (a <=? a')%float = false))) /\
  (_select_active_target (following 9) three_targets
   = Ok (Some (tracked 9 200 30 240 80)) /\
   _select_active_target (following 4) three_targets
   = Ok (Some (tracked 7 100 20 160 120)) /\
   _select_active_target (following 4) tied_targets
   = Ok (Some (tracked 1 0 0 10 10)) /\
   _select_active_target (following 4) flat_and_tall
   = Ok (Some (tracked 2 0 0 9 100))).
Proof.
  split; [reflexivity|].
  split; [|split; [|split; [|repeat split; vm_compute; reflexivity]]].
  - intros targets i t H. unfold identities.
    rewrite (nth_error_identities_from 0 targets i t H). reflexivity.
  - intros self targets a i t Ha Ht Hid Hmin.
    unfold _select_active_target. rewrite Ha.
    rewrite (find_active_first targets 0 a i t Ht Hid Hmin).
    destruct targets; [destruct i; discriminate | reflexivity].
  - intros self targets Hc Hall.
    assert (E : _select_active_target self targets = get_primary_target targets).
    { unfold _select_active_target.
      rewrite (find_active_none targets 0 _ Hc). now destruct targets. }
    rewrite E. now apply get_primary_target_max.
Qed.

Lemma select_active_target_spec_witness :
  (contains (active_target_id (following 4)) (identities three_targets) = false /\
   Forall (fun t => (4 <= length (t_bbox t))%nat) three_targets) /\
  exists i t a,
    nth_error three_targets i = Some t /\ spec_area (t_bbox t) = Some a /\
    (0 <? a)%float = true /\
    _select_active_target (following 4) three_targets = Ok (Some t).
Proof.
  assert (H2 : contains (active_target_id (following 4))
                 (identities three_targets) = false) by reflexivity.
  assert (H3 : Forall (fun t => (4 <= length (t_bbox t))%nat) three_targets)
    by (repeat constructor).
  split; [now split|].
  destruct (proj1 (proj2 (proj2 (proj2 select_active_target_spec)))
              (following 4) three_targets H2 H3)
    as [[Hn _]|(i & t & a & Hn & Ha & Hp & Hr & _)].
  - vm_compute in Hn. discriminate.
  - exists i, t, a. now repeat split.
Defined.

(** C8, as stated, fails on a list that is not empty: when no identity
    matches and no box has an area above zero, nothing is selected, although
    the claim selects the detection of largest area.  So it is for a single
    box without width, and for a single box with [x1 < x2] and [y1 < y2]
    whose area, 2^-1200, is rounded to zero. *)
Lemma select_nothing_without_area :
  (empty_box <> [] /\
   contains (active_target_id (following 4)) (identities empty_box) = false /\
   spec_area [5; 5; 5; 9]%float = Some 0%float /\
   _select_active_target (following 4) empty_box = Ok None) /\
  (tiny_box <> [] /\
   contains (active_target_id (following 4)) (identities tiny_box) = false /\
   (0 <? 0x1p-600)%float = true /\
   spec_area [0; 0; 0x1p-600; 0x1p-600]%float = Some 0%float /\
   _select_active_target (following 4) tiny_box = Ok None).
Proof.
  split; (split; [discriminate|]); repeat split; vm_compute; reflexivity.
Qed.

(** C9. Take any buffer that [parse_packet] accepts.  Inverting one bit of
    one byte before the two trailing checksum bytes (sync marker included)
    makes [parse_packet] return [None]. *)
Theorem flipped_frame_rejected
  (raw : bytes) (f : Z * Z * Z * bytes) (pos k : nat) :
  parse_packet raw = Ok (Some f) ->
  (pos < length raw - 2)%nat ->
  (k < 8)%nat ->
  parse_packet (flip_bit raw pos k) = Ok None.
Proof.
  intros Hok Hpos Hk.
  destruct (parse_fields_spec raw) as [[_ Hp]|[Hn _]].
  { unfold parse_packet in Hok. rewrite Hp in Hok. discriminate. }
  destruct (accepted_frame raw Hn) as [Hlen Hcrc].
  destruct (parse_fields_spec (flip_bit raw pos k)) as [[_ Hp]|[Hn' _]].
  { unfold parse_packet. now rewrite Hp. }
  exfalso.
  destruct (accepted_frame _ Hn') as [_ Hcrc'].
  unfold suffix, drop_last in Hcrc, Hcrc'.
  rewrite length_flip_bit in Hcrc'.
  rewrite skipn_flip_bit, firstn_flip_bit in Hcrc' by lia.
  rewrite Hcrc in Hcrc'. injection Hcrc' as Hcrc'.
  symmetry in Hcrc'. revert Hcrc'. apply crc16_xmodem_flip; [|exact Hk].
  rewrite length_firstn. lia.
Qed.

Lemma flipped_frame_rejected_witness :
  (parse_packet sample_frame = Ok (Some (1, 7, 0x0D, [])) /\
   (3 < length sample_frame - 2)%nat /\ (2 < 8)%nat) /\
  parse_packet (flip_bit sample_frame 3 2) = Ok None.
Proof.
  assert (H : parse_packet sample_frame = Ok (Some (1, 7, 0x0D, [])))
    by (vm_compute; reflexivity).
  split.
  - split; [exact H | cbn; lia].
  - apply (flipped_frame_rejected sample_frame (1, 7, 0x0D, []) 3 2 H); cbn; lia.
Defined.

(** C10. On an event with [target_delta <> 0] and a non-empty list, taken
    from the state [s1] that the wide reset and the zoom adjustment of the
    same call leave: when the active identity is among this frame's
    identities, cycling also sets [force_wide] to false; when it is absent,
    the handler stores the first identity and returns, and [force_wide] and
    [zoom] stay as they are in [s1], hence as they were on entry when the
    event carries neither [wide] nor a zoom delta. *)
Theorem joystick_cycle_leaves_wide
  (targets : list target) (u : updates) (self s1 : ptz) :
  (joystick_wide u ;;; joystick_zoom u) self = (s1, Ok tt) ->
  target_delta u <> 0 ->
  targets <> [] ->
  exists self',
    _apply_joystick targets (Some u) self = (self', Ok tt) /\
    (contains (active_target_id self) (identities targets) = true ->
     force_wide self' = false /\ zoom self' = zoom s1) /\
    (contains (active_target_id self) (identities targets) = false ->
     force_wide self' = force_wide s1 /\ zoom self' = zoom s1 /\
     (wide u = false -> zoom_delta u = 0 ->
      force_wide self' = force_wide self /\ zoom self' = zoom self)).
Proof.
  intros Hrun Hd Ht.
  destruct (apply_joystick_split u targets self s1 Hrun) as [Happ Hact].
  destruct (joystick_target_run u targets s1 Hd Ht)
    as (first & Hfirst & [[Hc Hr]|[Hc Hr]]).
  - exists (set_active_target_id (Some first) s1).
    rewrite Happ, Hr. split; [reflexivity|]. split.
    + rewrite <- Hact. congruence.
    + intros _. split; [reflexivity|]. split; [reflexivity|]. intros Hw Hz.
      unfold seq in Hrun. rewrite joystick_wide_run, joystick_zoom_run in Hrun.
      rewrite Hw, Hz in Hrun. cbn in Hrun. injection Hrun as <-. now split.
  - destruct Hr as (a & i & tid & Ha & Hp & Hn & Hmin & Hnew & Hr).
    exists (set_force_wide false (set_active_target_id (Some tid) s1)).
    rewrite Happ, Hr. split; [reflexivity|]. split.
    + intros _. now split.
    + rewrite <- Hact. congruence.
Qed.

Lemma joystick_cycle_leaves_wide_witness :
  ((joystick_wide next_target ;;; joystick_zoom next_target) (following 7)
   = (following 7, Ok tt) /\
   target_delta next_target <> 0 /\ two_targets <> []) /\
  exists self',
    _apply_joystick two_targets (Some next_target) (following 7)
    = (self', Ok tt) /\
    (contains (active_target_id (following 7)) (identities two_targets) = true ->
     force_wide self' = false /\ zoom self' = zoom (following 7)) /\
    (contains (active_target_id (following 7)) (identities two_targets) = false ->
     force_wide self' = force_wide (following 7) /\
     zoom self' = zoom (following 7) /\
     (wide next_target = false -> zoom_delta next_target = 0 ->
      force_wide self' = force_wide (following 7) /\
      zoom self' = zoom (following 7))).
Proof.
  assert (H1 : (joystick_wide next_target ;;; joystick_zoom next_target)
                 (following 7) = (following 7, Ok tt)) by reflexivity.
  assert (H2 : target_delta next_target <> 0) by (cbn; lia).
  assert (H3 : two_targets <> []) by discriminate.
  split; [now repeat split|].
  exact (joystick_cycle_leaves_wide two_targets next_target
           (following 7) (following 7) H1 H2 H3).
Defined.

(* ================================================================== *)
(** * Further properties *)

(** ** More on the frame codec *)

(** X1. The checksum can be computed in pieces: the checksum of [a ++ b]
    from a seed is the checksum of [b] seeded with the checksum of [a] from
    that seed, which is what the [init] argument of [crc16_xmodem] is for. *)
Theorem crc16_xmodem_app (a b : bytes) (init : Z) :
  crc16_xmodem (a ++ b) init = crc16_xmodem b (crc16_xmodem a init).
Proof.
  unfold crc16_xmodem. rewrite fold_left_app.
  assert (W : word16 (fold_left crc_byte a (Z.land init 0xFFFF)))
    by (apply fold_crc_byte_word, land_0xFFFF_word).
  now rewrite !(word16_land _ W).
Qed.

Lemma pack_B_raises (v : Z) :
  ~ 0 <= v <= 255 -> pack_B v = Raised StructError.
Proof.
  intros H. unfold pack_B.
  destruct (0 <=? v) eqn:E1; destruct (v <=? 255) eqn:E2; cbn; try reflexivity.
  lia.
Qed.

Lemma pack_H_raises (v : Z) :
  ~ 0 <= v <= 65535 -> pack_H v = Raised StructError.
Proof.
  intros H. unfold pack_H.
  destruct (0 <=? v) eqn:E1; destruct (v <=? 65535) eqn:E2; cbn; try reflexivity.
  lia.
Qed.

Lemma build_packet_raises (cmd_id : Z) (data : bytes) (seq : Z) (need_ack : bool) :
  ~ (0 <= cmd_id <= 255 /\ Z.of_nat (length data) <= 65535 /\ 0 <= seq <= 65535) ->
  build_packet cmd_id data seq need_ack = Raised StructError.
Proof.
  intros H. unfold build_packet, pack_BHHB.
  rewrite pack_B_ok by (destruct need_ack; lia). cbn [bind].
  destruct (Z_le_dec (Z.of_nat (length data)) 65535) as [Hd|Hd].
  2:{ rewrite pack_H_raises by lia. reflexivity. }
  rewrite pack_H_ok by lia. cbn [bind].
  destruct (Z_le_dec 0 seq) as [Hs|Hs]; [destruct (Z_le_dec seq 65535) as [Hs'|Hs']|].
  2,3: rewrite pack_H_raises by lia; reflexivity.
  rewrite pack_H_ok by lia. cbn [bind].
  rewrite pack_B_raises by lia. reflexivity.
Qed.

Lemma slice_payload (hdr data tail : bytes) :
  length hdr = 8%nat ->
  slice 8 (8 + length data) ((hdr ++ data) ++ tail) = data.
Proof.
  intros H. unfold slice. rewrite <- app_assoc.
  rewrite skipn_app, <- H, skipn_all, Nat.sub_diag. cbn [skipn app].
  replace (length hdr + length data - length hdr)%nat with (length data) by lia.
  rewrite firstn_app, Nat.sub_diag, firstn_all. cbn [firstn]. apply app_nil_r.
Qed.

(** X2. [build_packet] either raises [struct.error], which it does exactly
    when the command id is not a byte, the sequence number does not fit 16
    bits or the payload is longer than 65535 bytes, or returns a frame of
    [len(data) + 10] bytes that starts with the sync marker and carries the
    payload at offset 8. *)
Theorem build_packet_spec
  (cmd_id : Z) (data : bytes) (seq : Z) (need_ack : bool) :
  ((0 <= cmd_id <= 255 /\ Z.of_nat (length data) <= 65535 /\
    0 <= seq <= 65535) /\
   exists pkt,
     build_packet cmd_id data seq need_ack = Ok pkt /\
     length pkt = (length data + 10)%nat /\
     slice 0 2 pkt = STX /\
     slice 8 (8 + length data) pkt = data /\
     unpack_H (suffix 2 pkt) = Ok (crc16_xmodem (drop_last 2 pkt) 0)) \/
  (~ (0 <= cmd_id <= 255 /\ Z.of_nat (length data) <= 65535 /\
      0 <= seq <= 65535) /\
   build_packet cmd_id data seq need_ack = Raised StructError).
Proof.
  destruct (Z_le_dec 0 cmd_id); [destruct (Z_le_dec cmd_id 255);
    [destruct (Z_le_dec (Z.of_nat (length data)) 65535);
     [destruct (Z_le_dec 0 seq); [destruct (Z_le_dec seq 65535)|]|]|]|].
  2-6: right; (split; [lia | apply build_packet_raises; lia]).
  left. split; [lia|].
  pose proof (build_packet_ok cmd_id data seq need_ack) as Hb.
  cbv zeta in Hb. rewrite Hb by lia. clear Hb.
  eexists. split; [reflexivity|].
  set (hdr := [x55; x66; _; _; _; _; _; _]).
  set (crc := crc16_xmodem (hdr ++ data) 0).
  set (tail := [byte_of (Z.land crc 255); byte_of (Z.shiftr crc 8)]).
  split; [|split; [|split]].
  - rewrite !length_app. cbn. lia.
  - reflexivity.
  - now apply slice_payload.
  - change 2%nat with (length tail).
    rewrite suffix_app, drop_last_app. fold crc. unfold tail.
    apply unpack_pack_H. apply crc16_xmodem_range.
Qed.

Lemma pack_unpack_H (a b : byte) (v : Z) :
  unpack_H [a; b] = Ok v ->
  0 <= v <= 65535 /\ byte_of (Z.land v 255) = a /\ byte_of (Z.shiftr v 8) = b.
Proof.
  intros H.
  assert (E : v = Z.lor (byte_val a) (Z.shiftl (byte_val b) 8))
    by (unfold unpack_H in H; congruence).
  split.
  { destruct (unpack_H_total [a; b] eq_refl) as (v' & Hv & R). congruence. }
  clear H. subst v.
  pose proof (byte_val_range a) as Ra. pose proof (byte_val_range b) as Rb.
  assert (La : Z.land (Z.lor (byte_val a) (Z.shiftl (byte_val b) 8)) 255
               = byte_val a).
  { apply Z.bits_inj'. intros n Hn.
    change 255 with (Z.ones 8).
    rewrite Z.land_spec, Z.lor_spec, Z.shiftl_spec by lia.
    destruct (Z_lt_dec n 8) as [L|L].
    - rewrite Z.ones_spec_low by lia. rewrite (Z.testbit_neg_r _ (n - 8)) by lia.
      now rewrite orb_false_r, andb_true_r.
    - rewrite Z.ones_spec_high by lia. rewrite andb_false_r.
      symmetry. apply Z.bits_above_log2; [lia|].
      destruct (Z.eq_dec (byte_val a) 0) as [->|Z0]; [cbn; lia|].
      apply Z.log2_lt_pow2; [lia|].
      apply Z.lt_le_trans with (2 ^ 8); [lia|].
      apply Z.pow_le_mono_r; lia. }
  assert (Lb : Z.shiftr (Z.lor (byte_val a) (Z.shiftl (byte_val b) 8)) 8
               = byte_val b).
  { rewrite Z.shiftr_lor, Z.shiftr_shiftl_l, Z.sub_diag, Z.shiftl_0_r by lia.
    rewrite Z.shiftr_div_pow2 by lia. rewrite Z.div_small by lia.
    apply Z.lor_0_l. }
  rewrite La, Lb. now rewrite !byte_of_val.
Qed.

Lemma firstn_suffix {A} (l : list A) (n : nat) :
  l = drop_last n l ++ suffix n l.
Proof. unfold drop_last, suffix. now rewrite firstn_skipn. Qed.

Lemma exact_frame (raw : bytes) (f : fields) :
  parse_fields raw = Ok (Some f) ->
  length raw = (length (f_data f) + 10)%nat ->
  exists c k0 k1,
    raw = ([x55; x66; c;
            byte_of (Z.land (Z.of_nat (length (f_data f))) 255);
            byte_of (Z.shiftr (Z.of_nat (length (f_data f))) 8);
            byte_of (Z.land (f_seq f) 255); byte_of (Z.shiftr (f_seq f) 8);
            byte_of (f_cmd_id f)] ++ f_data f) ++ [k0; k1] /\
    f_ctrl f = byte_val c /\
    0 <= f_seq f <= 65535 /\ 0 <= f_cmd_id f <= 255 /\
    Z.of_nat (length (f_data f)) <= 65535.
Proof.
  intros Hp Hlen.
  destruct (parse_fields_spec raw) as [[_ Hn]|[Hn Hx]]; [congruence|].
  destruct Hx as (cb & dl & sq & mb & H2 & H3 & H5 & H7 & Hf).
  rewrite Hf in Hp. injection Hp as <-.
  cbv beta iota delta [f_data f_seq f_cmd_id f_ctrl] in *.
  destruct (accepted_frame raw Hn) as [H10 Hcrc].
  destruct raw as [|b0 [|b1 [|b2 [|b3 [|b4 [|b5 [|b6 [|b7 rest]]]]]]]];
    try (cbn in H10; lia).
  assert (Hs : forall m, slice 8 (8 + m)
                (b0 :: b1 :: b2 :: b3 :: b4 :: b5 :: b6 :: b7 :: rest)
              = firstn m rest).
  { intros m. unfold slice. cbn [skipn]. f_equal. lia. }
  assert (Hs' : forall m, slice 8 (S (S (S (S (S (S (S (S m))))))))
                (b0 :: b1 :: b2 :: b3 :: b4 :: b5 :: b6 :: b7 :: rest)
              = firstn m rest) by exact Hs.
  rewrite ?Hs, ?Hs' in *. clear Hs Hs'.
  assert (Hstx : slice 0 2 (b0 :: b1 :: b2 :: b3 :: b4 :: b5 :: b6 :: b7 :: rest)
                 = STX).
  { destruct (list_eq_dec Byte.byte_eq_dec
                (slice 0 2 (b0 :: b1 :: b2 :: b3 :: b4 :: b5 :: b6 :: b7 :: rest))
                STX) as [E|E]; [exact E|].
    exfalso. apply Hn. right. left. exact E. }
  cbn in Hstx. injection Hstx as -> ->.
  cbn in H2, H7. injection H2 as <-. injection H7 as <-.
  change (slice 3 5 _) with [b3; b4] in H3.
  change (slice 5 7 _) with [b5; b6] in H5.
  destruct (pack_unpack_H _ _ _ H3) as (Rd & <- & <-).
  destruct (pack_unpack_H _ _ _ H5) as (Rs & <- & <-).
  set (n := Z.to_nat dl) in *.
  cbn [length] in Hlen, H10. rewrite length_firstn in Hlen.
  assert (En : n = (length rest - 2)%nat) by lia.
  assert (Edl : Z.of_nat (length (firstn n rest)) = dl).
  { rewrite length_firstn. unfold n in *. lia. }
  rewrite Edl.
  destruct (length_2_inv (suffix 2 rest)) as (k0 & k1 & Hk).
  { unfold suffix. rewrite length_skipn. lia. }
  exists b2, k0, k1.
  split; [|pose proof (byte_val_range b7); repeat split; lia].
  rewrite byte_of_val. cbn [app]. do 8 f_equal.
  rewrite <- Hk, En. apply (firstn_suffix rest 2).
Qed.

(** X3. Decoding then encoding.  A frame that [parse_packet] accepts, whose
    control byte is 0 or 1 and which is exactly 10 bytes longer than its
    payload, is the frame that [build_packet] builds from the decoded command
    id, payload and sequence number. *)
Theorem parse_build_roundtrip
  (raw : bytes) (ctrl seq cmd_id : Z) (data : bytes) :
  parse_packet raw = Ok (Some (ctrl, seq, cmd_id, data)) ->
  length raw = (length data + 10)%nat ->
  ctrl <= 1 ->
  build_packet cmd_id data seq (ctrl =? 1) = Ok raw.
Proof.
  intros Hp Hlen Hc. unfold parse_packet in Hp.
  destruct (parse_fields raw) as [[f|]|] eqn:Hf; try discriminate.
  cbn in Hp. injection Hp as <- <- <- <-.
  destruct (exact_frame raw f Hf Hlen) as (c & k0 & k1 & Hraw & Ec & Rs & Rc & Rd).
  pose proof (build_packet_ok (f_cmd_id f) (f_data f) (f_seq f) (f_ctrl f =? 1)
                Rc Rd Rs) as Hb.
  cbv zeta in Hb. rewrite Hb. clear Hb.
  assert (Hctrl : byte_of (if f_ctrl f =? 1 then 1 else 0) = c).
  { rewrite Ec in *. pose proof (byte_val_range c).
    assert (E : byte_val c = 0 \/ byte_val c = 1) by lia.
    destruct E as [E|E]; rewrite E; cbn [Z.eqb Pos.eqb];
      rewrite <- (byte_of_val c), E; reflexivity. }
  rewrite Hctrl.
  destruct (parse_fields_spec raw) as [[_ Hn]|[Hn _]]; [congruence|].
  destruct (accepted_frame raw Hn) as [_ Hcrc].
  set (body := [x55; x66; c; _; _; _; _; _] ++ f_data f) in *.
  rewrite Hraw in Hcrc.
  change 2%nat with (length [k0; k1]) in Hcrc.
  rewrite suffix_app, drop_last_app in Hcrc.
  destruct (pack_unpack_H _ _ _ Hcrc) as (_ & <- & <-).
  now rewrite Hraw.
Qed.

Lemma parse_build_roundtrip_witness :
  (parse_packet sample_frame = Ok (Some (1, 7, 0x0D, [])) /\
   length sample_frame = (length (@nil byte) + 10)%nat /\ 1 <= 1) /\
  build_packet 0x0D [] 7 (1 =? 1) = Ok sample_frame.
Proof.
  assert (H : parse_packet sample_frame = Ok (Some (1, 7, 0x0D, [])))
    by (vm_compute; reflexivity).
  split; [split; [exact H | split; [reflexivity | lia]]|].
  apply (parse_build_roundtrip sample_frame 1 7 0x0D [] H); [reflexivity | lia].
Defined.

Lemma build_packet_fits (cmd_id : Z) (data : bytes) (seq : Z) (need_ack : bool)
  (pkt : bytes) :
  build_packet cmd_id data seq need_ack = Ok pkt ->
  0 <= cmd_id <= 255 /\ Z.of_nat (length data) <= 65535 /\ 0 <= seq <= 65535.
Proof.
  intros H.
  destruct (Z_le_dec 0 cmd_id); [destruct (Z_le_dec cmd_id 255);
    [destruct (Z_le_dec (Z.of_nat (length data)) 65535);
     [destruct (Z_le_dec 0 seq); [destruct (Z_le_dec seq 65535)|]|]|]|];
    try lia;
    rewrite build_packet_raises in H by lia; discriminate.
Qed.

(** X4. Two calls of [build_packet] that return the same frame were given
    the same command id, payload, sequence number and flag. *)
Theorem build_packet_injective
  (cmd_id cmd_id' : Z) (data data' : bytes) (seq seq' : Z)
  (need_ack need_ack' : bool) (pkt : bytes) :
  build_packet cmd_id data seq need_ack = Ok pkt ->
  build_packet cmd_id' data' seq' need_ack' = Ok pkt ->
  cmd_id = cmd_id' /\ data = data' /\ seq = seq' /\ need_ack = need_ack'.
Proof.
  intros H H'.
  destruct (build_packet_fits _ _ _ _ _ H) as (Hc & Hd & Hs).
  destruct (build_packet_fits _ _ _ _ _ H') as (Hc' & Hd' & Hs').
  destruct (parse_fields_build cmd_id data seq need_ack Hc Hd Hs)
    as (p & Hb & Hp).
  destruct (parse_fields_build cmd_id' data' seq' need_ack' Hc' Hd' Hs')
    as (p' & Hb' & Hp').
  assert (p = pkt) by congruence. assert (p' = pkt) by congruence. subst p p'.
  rewrite Hp in Hp'. injection Hp' as Ea _ Es Ec Ed.
  repeat split; try assumption.
  destruct need_ack, need_ack'; (reflexivity || discriminate).
Qed.

Lemma build_packet_injective_witness :
  (build_packet 0x0D [] 7 true = Ok sample_frame /\
   build_packet 0x0D [] 7 true = Ok sample_frame) /\
  0x0D = 0x0D /\ @nil byte = [] /\ 7 = 7 /\ true = true.
Proof.
  assert (H : build_packet 0x0D [] 7 true = Ok sample_frame)
    by (vm_compute; reflexivity).
  split; [now split|].
  exact (build_packet_injective 0x0D 0x0D [] [] 7 7 true true sample_frame H H).
Defined.

(** ** Corrupted bytes *)

Lemma byte_val_inj (b b' : byte) : byte_val b = byte_val b' -> b = b'.
Proof. intros H. rewrite <- (byte_of_val b), <- (byte_of_val b'). now f_equal. Qed.

Lemma crc_byte_subst (c : Z) (b b' : byte) :
  b <> b' ->
  exists d, word16 d /\ d <> 0 /\ crc_byte c b' = Z.lxor (crc_byte c b) d.
Proof.
  intros Hne.
  set (x := Z.lxor (byte_val b) (byte_val b')).
  pose proof (byte_val_range b) as Rb. pose proof (byte_val_range b') as Rb'.
  assert (Hw : forall z, 0 <= z < 256 -> Z.land z 255 = z).
  { intros z Hz. change 255 with (Z.ones 8). rewrite Z.land_ones by lia.
    apply Z.mod_small. exact Hz. }
  assert (Rx : 0 <= x < 256).
  { unfold x. rewrite <- (Hw _ Rb), <- (Hw _ Rb'), <- land_lxor_distr.
    apply land_255_range. }
  assert (Nx : x <> 0).
  { unfold x. intros H. apply Z.lxor_eq in H. now apply Hne, byte_val_inj. }
  assert (Eb' : byte_val b' = Z.lxor (byte_val b) x).
  { unfold x. now rewrite <- Z.lxor_assoc, Z.lxor_nilpotent, Z.lxor_0_l. }
  set (e := Z.shiftl x 8).
  assert (He : word16 e /\ e <> 0).
  { unfold e, word16. rewrite Z.shiftl_mul_pow2 by lia.
    change (2 ^ 8) with 256. lia. }
  destruct He as [We Ne].
  exists (Nat.iter 8 crc_shift e). split; [now apply iter_crc_shift_word|].
  split; [intros H; apply Ne; now apply (iter_crc_shift_zero 8)|].
  unfold crc_byte. rewrite Eb'.
  rewrite <- iter_crc_shift_lxor. f_equal.
  rewrite Z.shiftl_lxor, land_lxor_distr.
  fold e. rewrite (word16_land e We). symmetry. apply Z.lxor_assoc.
Qed.

(** Replacing one of the checksummed bytes changes the checksum. *)
Lemma crc16_xmodem_subst (pre post : bytes) (b b' : byte) (init : Z) :
  b <> b' ->
  crc16_xmodem (pre ++ b' :: post) init <> crc16_xmodem (pre ++ b :: post) init.
Proof.
  intros Hne. unfold crc16_xmodem.
  rewrite !fold_left_app. cbn [fold_left].
  set (c := fold_left crc_byte pre (Z.land init 0xFFFF)).
  assert (Hc : word16 c) by apply fold_crc_byte_word, land_0xFFFF_word.
  destruct (crc_byte_subst c b b' Hne) as (d & Hd & Hnz & ->).
  destruct (fold_crc_byte_lxor post (crc_byte c b) d Hd Hnz)
    as (d' & Hd' & Hnz' & ->).
  assert (Hf : word16 (fold_left crc_byte post (crc_byte c b)))
    by (apply fold_crc_byte_word, crc_byte_word, Hc).
  rewrite (word16_land _ (word16_lxor _ _ Hf Hd')), (word16_land _ Hf).
  now apply lxor_nonzero_neq.
Qed.

Lemma unpack_H_inj (bs bs' : bytes) (v : Z) :
  unpack_H bs = Ok v -> unpack_H bs' = Ok v -> bs = bs'.
Proof.
  intros H H'.
  destruct bs as [|a [|b [|? ?]]]; try discriminate.
  destruct bs' as [|a' [|b' [|? ?]]]; try discriminate.
  destruct (pack_unpack_H _ _ _ H) as (_ & <- & <-).
  destruct (pack_unpack_H _ _ _ H') as (_ & <- & <-).
  reflexivity.
Qed.

(** X5. A frame that [parse_packet] accepts is no longer accepted once any
    one of its bytes, the two checksum bytes included, has been replaced by
    a different byte. *)
Theorem corrupted_byte_rejected
  (pre post : bytes) (b b' : byte) (f : Z * Z * Z * bytes) :
  parse_packet (pre ++ b :: post) = Ok (Some f) ->
  b <> b' ->
  parse_packet (pre ++ b' :: post) = Ok None.
Proof.
  intros Hok Hne.
  destruct (parse_fields_spec (pre ++ b :: post)) as [[_ Hp]|[Hn _]].
  { unfold parse_packet in Hok. rewrite Hp in Hok. discriminate. }
  destruct (accepted_frame _ Hn) as [Hlen Hcrc].
  destruct (parse_fields_spec (pre ++ b' :: post)) as [[_ Hp]|[Hn' _]].
  { unfold parse_packet. now rewrite Hp. }
  exfalso.
  destruct (accepted_frame _ Hn') as [_ Hcrc'].
  rewrite length_app in Hlen. cbn [length] in Hlen.
  unfold suffix, drop_last in Hcrc, Hcrc'.
  rewrite !length_app in Hcrc, Hcrc'. cbn [length] in Hcrc, Hcrc'.
  set (cut := (length pre + S (length post) - 2)%nat) in *.
  rewrite !skipn_app, !firstn_app in Hcrc, Hcrc'.
  destruct (Nat.le_gt_cases 2 (length post)) as [L|L].
  - (* the byte lies before the checksum *)
    replace (cut - length pre)%nat with (S (length post - 2)) in Hcrc, Hcrc'
      by (unfold cut; lia).
    rewrite !skipn_all2, !firstn_all2 in Hcrc, Hcrc' by (unfold cut; lia).
    cbn [skipn firstn app] in Hcrc, Hcrc'.
    rewrite Hcrc in Hcrc'. injection Hcrc' as Hcrc'.
    revert Hcrc'. apply not_eq_sym. now apply crc16_xmodem_subst.
  - (* the byte is one of the two checksum bytes *)
    replace (cut - length pre)%nat with 0%nat in Hcrc, Hcrc'
      by (unfold cut; lia).
    cbn [skipn firstn] in Hcrc, Hcrc'. rewrite !app_nil_r in Hcrc, Hcrc'.
    pose proof (unpack_H_inj _ _ _ Hcrc Hcrc') as E.
    apply app_inv_head in E. injection E as E. congruence.
Qed.

Lemma corrupted_byte_rejected_witness :
  (parse_packet ([x55; x66; x01; x00; x00; x07; x00; x0d; x78] ++ x80 :: [])
   = Ok (Some (1, 7, 0x0D, [])) /\ x80 <> x81) /\
  parse_packet ([x55; x66; x01; x00; x00; x07; x00; x0d; x78] ++ x81 :: [])
  = Ok None.
Proof.
  assert (H : parse_packet
                ([x55; x66; x01; x00; x00; x07; x00; x0d; x78] ++ x80 :: [])
              = Ok (Some (1, 7, 0x0D, []))) by (vm_compute; reflexivity).
  assert (N : x80 <> x81) by discriminate.
  split; [now split|].
  exact (corrupted_byte_rejected _ [] x80 x81 _ H N).
Defined.

(** ** What a decoded frame holds *)

(** X6. The values that [parse_packet] returns are those of the wire
    format: the control byte and the command id are bytes, the sequence
    number fits 16 bits, and the payload is the part of the buffer that
    starts at offset 8, at most 65535 bytes long and never reaching past the
    end of the buffer. *)
Theorem parse_packet_ranges
  (raw : bytes) (ctrl seq cmd_id : Z) (data : bytes) :
  parse_packet raw = Ok (Some (ctrl, seq, cmd_id, data)) ->
  0 <= ctrl <= 255 /\ 0 <= seq <= 65535 /\ 0 <= cmd_id <= 255 /\
  Z.of_nat (length data) <= 65535 /\ (length data + 8 <= length raw)%nat /\
  exists rest, raw = firstn 8 raw ++ data ++ rest.
Proof.
  intros H. unfold parse_packet in H.
  destruct (parse_fields_spec raw) as [[_ Hp]|[Hn Hx]].
  { rewrite Hp in H. discriminate. }
  destruct Hx as (cb & dl & sq & mb & H2 & H3 & H5 & H7 & Hf).
  rewrite Hf in H. cbn [bind option_map f_ctrl f_seq f_cmd_id f_data] in H.
  injection H as <- <- <- <-.
  destruct (accepted_frame raw Hn) as [H10 _].
  destruct (unpack_H_total (slice 3 5 raw)) as (v & Hv & Rv).
  { rewrite length_slice. lia. }
  destruct (unpack_H_total (slice 5 7 raw)) as (w & Hw & Rw).
  { rewrite length_slice. lia. }
  assert (v = dl) by congruence. assert (w = sq) by congruence. subst v w.
  pose proof (byte_val_range cb). pose proof (byte_val_range mb).
  split; [lia|]. split; [lia|]. split; [lia|].
  rewrite length_slice. split; [lia|]. split; [lia|].
  exists (skipn (Z.to_nat dl) (skipn 8 raw)).
  assert (E : slice 8 (8 + Z.to_nat dl) raw
              = firstn (Z.to_nat dl) (skipn 8 raw)).
  { unfold slice. f_equal. lia. }
  change (slice 8 (S (S (S (S (S (S (S (S (Z.to_nat dl))))))))) raw)
    with (slice 8 (8 + Z.to_nat dl) raw).
  rewrite E, (firstn_skipn (Z.to_nat dl) (skipn 8 raw)), (firstn_skipn 8 raw).
  reflexivity.
Qed.

Lemma parse_packet_ranges_witness :
  parse_packet stream_frame
  = Ok (Some (0, 3, 0x0D,
              [x64; x00; xce; xff; x00; x00; x00; x00; x00; x00; x00; x00])) /\
  0 <= 0 <= 255 /\ 0 <= 3 <= 65535 /\ 0 <= 0x0D <= 255 /\
  Z.of_nat (length [x64; x00; xce; xff; x00; x00; x00; x00; x00; x00; x00; x00])
  <= 65535 /\
  (length [x64; x00; xce; xff; x00; x00; x00; x00; x00; x00; x00; x00] + 8
   <= length stream_frame)%nat /\
  exists rest,
    stream_frame
    = firstn 8 stream_frame
      ++ [x64; x00; xce; xff; x00; x00; x00; x00; x00; x00; x00; x00] ++ rest.
Proof.
  assert (H : parse_packet stream_frame
              = Ok (Some (0, 3, 0x0D,
                          [x64; x00; xce; xff; x00; x00;
                           x00; x00; x00; x00; x00; x00])))
    by (vm_compute; reflexivity).
  split; [exact H|].
  exact (parse_packet_ranges stream_frame 0 3 0x0D _ H).
Defined.

(** ** Every outcome of the polling loop *)

Lemma verdict_total {A} (body : Z * Z * Z * bytes -> result (option A))
  (raw : bytes) :
  (forall f, exists r, body f = Ok r) -> exists r, verdict body raw = Ok r.
Proof.
  intros Hb. unfold verdict.
  destruct (parse_packet_total raw) as ([f|] & ->); cbn [bind]; [apply Hb | eauto].
Qed.

Lemma poll_cons {A} (body : Z * Z * Z * bytes -> result (option A))
  (t0 : float) (t : turn) (rest : list turn) :
  skipped body t0 t -> poll body t0 (t :: rest) = poll body t0 rest.
Proof.
  intros H. apply (poll_skip body t0 [t] rest). now constructor.
Qed.

(** X7. The three ways in which a polling loop ends, read backwards.  For
    a loop body that does not raise, as those of both requests: an answer
    was decoded from a datagram received inside the window, every datagram
    before it having been dropped; the wait ended without an answer at the
    first turn that was outside the window or on which the socket timed out;
    and a loop that is still waiting has dropped everything it received. *)
Theorem poll_outcome_explained {A}
  (body : Z * Z * Z * bytes -> result (option A))
  (t0 : float) (turns : list turn) :
  (forall f, exists r, body f = Ok r) ->
  (forall x,
      poll body t0 turns = Ok (Reply x) ->
      exists pre t post raw,
        turns = pre ++ t :: post /\ Forall (skipped body t0) pre /\
        in_window t0 t = true /\ rx t = Datagram raw /\
        verdict body raw = Ok (Some x)) /\
  (poll body t0 turns = Ok NoReply ->
   exists pre t post,
     turns = pre ++ t :: post /\ Forall (skipped body t0) pre /\
     (in_window t0 t = false \/ rx t = SocketTimeout)) /\
  (poll body t0 turns = Ok Pending -> Forall (skipped body t0) turns) /\
  (forall e, poll body t0 turns <> Raised e).
Proof.
  intros Hb.
  induction turns as [|t rest IH].
  { cbn. repeat split; try discriminate. constructor. }
  destruct IH as (IH1 & IH2 & IH3 & IH4).
  destruct (in_window t0 t) eqn:Hw.
  2:{ rewrite (poll_timeout body t0 t rest) by (now left).
      split; [discriminate|]. split; [|split; discriminate].
      intros _. exists [], t, rest. repeat split; [constructor | now left]. }
  destruct (rx t) as [raw|] eqn:Hrx.
  2:{ rewrite (poll_timeout body t0 t rest) by (now right).
      split; [discriminate|]. split; [|split; discriminate].
      intros _. exists [], t, rest. repeat split; [constructor | now right]. }
  destruct (verdict_total body raw Hb) as ([x|] & Hv).
  - rewrite (poll_reply body t0 t rest raw x Hw Hrx Hv).
    split; [|split; [discriminate|split; discriminate]].
    intros y E. injection E as <-.
    exists [], t, rest, raw. repeat split; try assumption. constructor.
  - assert (Hs : skipped body t0 t) by (split; [exact Hw | eauto]).
    rewrite (poll_cons body t0 t rest Hs).
    split; [|split; [|split]].
    + intros y E. destruct (IH1 y E) as (pre & u & post & r & -> & Hp & Hrest).
      exists (t :: pre), u, post, r. split; [reflexivity|].
      split; [now constructor | exact Hrest].
    + intros E. destruct (IH2 E) as (pre & u & post & -> & Hp & Hrest).
      exists (t :: pre), u, post. split; [reflexivity|].
      split; [now constructor | exact Hrest].
    + intros E. constructor; [exact Hs | now apply IH3].
    + exact IH4.
Qed.

Lemma poll_outcome_explained_witness :
  (forall f, exists r, attitude_reply f = Ok r) /\
  (forall x,
      poll attitude_reply 0
        [{| now := 0x1p-5; rx := Datagram short_frame |};
         {| now := 0x1p-4; rx := Datagram stream_frame |}] = Ok (Reply x) ->
      exists pre t post raw,
        [{| now := 0x1p-5; rx := Datagram short_frame |};
         {| now := 0x1p-4; rx := Datagram stream_frame |}] = pre ++ t :: post /\
        Forall (skipped attitude_reply 0) pre /\
        in_window 0 t = true /\ rx t = Datagram raw /\
        verdict attitude_reply raw = Ok (Some x)).
Proof.
  split; [exact attitude_reply_total|].
  exact (proj1 (poll_outcome_explained attitude_reply 0%float
                  [{| now := 0x1p-5; rx := Datagram short_frame |};
                   {| now := 0x1p-4; rx := Datagram stream_frame |}]
                  attitude_reply_total)).
Defined.

(** ** Tenths of a degree, there and back *)

Lemma all_from_spec (P : Z -> bool) (n : nat) (i j : Z) :
  all_from P i n = true -> i <= j < i + Z.of_nat n -> P j = true.
Proof.
  revert i. induction n as [|n IH]; intros i H R; [lia|].
  cbn [all_from] in H. apply andb_true_iff in H. destruct H as [H1 H2].
  destruct (Z.eq_dec i j) as [->|N]; [exact H1|].
  apply (IH (i + 1)); [exact H2 | lia].
Qed.

Lemma tenths_round_all :
  all_from (fun i =>
              match tenths i with
              | Ok f =>
                match py_round (f * 10) with
                | Ok j => j =? i
                | Raised _ => false
                end
              | Raised _ => false
              end) (-32768) (Z.to_nat 65536) = true.
Proof. vm_compute. reflexivity. Qed.

Lemma tenths_in_range_all :
  all_from (fun i =>
              match tenths i with
              | Ok f =>
                PrimFloat.Leibniz.eqb (clamp f YAW_MIN YAW_MAX) f &&
                (negb ((-900 <=? i) && (i <=? 450)) ||
                 PrimFloat.Leibniz.eqb (clamp f PITCH_MIN PITCH_MAX) f)
              | Raised _ => false
              end) (-1350) (Z.to_nat 2701) = true.
Proof. vm_compute. reflexivity. Qed.

Lemma tenths_round (i : Z) :
  -32768 <= i <= 32767 ->
  exists f, tenths i = Ok f /\ py_round (f * 10) = Ok i.
Proof.
  intros R.
  pose proof (all_from_spec _ _ _ i tenths_round_all) as H.
  cbv beta in H.
  destruct (tenths i) as [f|]; [|now discriminate H; lia].
  exists f. split; [reflexivity|].
  destruct (py_round (f * 10)) as [j|]; [|now discriminate H; lia].
  f_equal. apply Z.eqb_eq, H. lia.
Qed.

(** X8. The angle decoding of the replies and the angle encoding of the
    command agree: for every signed 16-bit count [i] of tenths of a degree,
    [i / 10.0] is a float and [round((i / 10.0) * 10.0)] is [i] again. *)
Theorem tenths_roundtrip (i : Z) :
  -32768 <= i <= 32767 ->
  exists f, tenths i = Ok f /\ py_round (f * 10) = Ok i.
Proof.
  intros R.
  pose proof (all_from_spec _ _ _ i tenths_round_all) as H.
  cbv beta in H.
  destruct (tenths i) as [f|]; [|now discriminate H; lia].
  exists f. split; [reflexivity|].
  destruct (py_round (f * 10)) as [j|]; [|now discriminate H; lia].
  f_equal. apply Z.eqb_eq, H. lia.
Qed.

Lemma tenths_roundtrip_witness :
  -32768 <= -900 <= 32767 /\
  exists f, tenths (-900) = Ok f /\ py_round (f * 10) = Ok (-900).
Proof. split; [lia | apply (tenths_roundtrip (-900)); lia]. Defined.

Lemma tenths_in_range (i : Z) :
  -1350 <= i <= 1350 ->
  exists f, tenths i = Ok f /\
    clamp f YAW_MIN YAW_MAX = f /\
    (-900 <= i <= 450 -> clamp f PITCH_MIN PITCH_MAX = f).
Proof.
  intros R.
  pose proof (all_from_spec _ _ _ i tenths_in_range_all) as H.
  cbv beta in H.
  destruct (tenths i) as [f|]; [|now discriminate H; lia].
  exists f. split; [reflexivity|].
  assert (H' := H ltac:(lia)). clear H.
  apply andb_true_iff in H'. destruct H' as [H1 H2].
  split; [now apply FloatAxioms.Leibniz.eqb_spec|].
  intros R'. apply orb_true_iff in H2. destruct H2 as [H2|H2].
  - apply negb_true_iff, andb_false_iff in H2. destruct H2 as [H2|H2]; lia.
  - now apply FloatAxioms.Leibniz.eqb_spec.
Qed.

(** X9. An angle command whose yaw and pitch are whole tenths of a degree
    inside the gimbal's range is transmitted exactly: for [i] in
    [-1350, 1350] and [j] in [-900, 450], [set_angles_with_ack] called with
    [i / 10.0] and [j / 10.0] sends the payload [struct.pack("<hh", i, j)]
    and reports the two angles unchanged. *)
Theorem set_angles_exact
  (seq i j : Z) (t0 : float) (turns : list turn) :
  0 <= seq <= 65535 -> -1350 <= i <= 1350 -> -900 <= j <= 450 ->
  exists yaw pitch data pkt r,
    tenths i = Ok yaw /\ tenths j = Ok pitch /\
    pack_hh i j = Ok data /\
    parse_packet pkt = Ok (Some (1, seq, 0x0E, data)) /\
    set_angles_with_ack seq yaw pitch t0 turns
    = Ok ({| sent := pkt; answer := r |}, (yaw, pitch)).
Proof.
  intros Hs Hi Hj.
  destruct (tenths_in_range i Hi) as (yaw & Ty & Cy & _).
  destruct (tenths_in_range j ltac:(lia)) as (pitch & Tp & _ & Cp).
  specialize (Cp Hj).
  destruct (tenths_round i ltac:(lia)) as (yaw' & Ty' & Ry).
  destruct (tenths_round j ltac:(lia)) as (pitch' & Tp' & Rp).
  assert (yaw' = yaw) by congruence. assert (pitch' = pitch) by congruence.
  subst yaw' pitch'.
  destruct (set_angles_with_ack_run seq yaw pitch t0 turns Hs)
    as (_ & _ & y & p & data & pkt & r & Hy & _ & Hp & _ & Hd & _ & _ & Hpk & _ & Hr).
  rewrite Cy in Hy, Hr. rewrite Cp in Hp, Hr.
  assert (y = i) by congruence. assert (p = j) by congruence. subst y p.
  exists yaw, pitch, data, pkt, r. repeat split; assumption.
Qed.

Lemma set_angles_exact_witness :
  (0 <= 7 <= 65535 /\ -1350 <= 1234 <= 1350 /\ -900 <= -455 <= 450) /\
  exists yaw pitch data pkt r,
    tenths 1234 = Ok yaw /\ tenths (-455) = Ok pitch /\
    pack_hh 1234 (-455) = Ok data /\
    parse_packet pkt = Ok (Some (1, 7, 0x0E, data)) /\
    set_angles_with_ack 7 yaw pitch 0 []
    = Ok ({| sent := pkt; answer := r |}, (yaw, pitch)).
Proof.
  split; [lia|]. apply (set_angles_exact 7 1234 (-455) 0%float []); lia.
Defined.

(** ** Clamping, again *)

Lemma ltb_nan_l (v x : float) : (v =? v)%float = false -> (v <? x)%float = false.
Proof. intros H. float_order. Qed.

Lemma clamp_not_below (v lo hi : float) :
  (lo <? hi)%float = true -> (v <? hi)%float = false -> clamp v lo hi = hi.
Proof. intros H1 H2. unfold clamp, py_max, py_min. now rewrite H2, H1. Qed.

(** X10. [clamp] is idempotent, whatever the bounds; and with [a < b] every
    value that is not below [b], a NaN included, is clamped to [b].  So
    [set_angles_with_ack] answers a NaN yaw or pitch by commanding the upper
    end of the range, 135.0 or 45.0 degrees. *)
Theorem clamp_idempotent :
  (forall v a b : float, clamp (clamp v a b) a b = clamp v a b) /\
  (forall v a b : float,
      (a <? b)%float = true -> (v <? b)%float = false -> clamp v a b = b) /\
  (forall (seq : Z) (yaw_deg pitch_deg t0 : float) (turns : list turn),
      0 <= seq <= 65535 ->
      (yaw_deg =? yaw_deg)%float = false ->
      (pitch_deg =? pitch_deg)%float = false ->
      exists pkt r,
        parse_packet pkt = Ok (Some (1, seq, 0x0E, [x46; x05; xc2; x01])) /\
        set_angles_with_ack seq yaw_deg pitch_deg t0 turns
        = Ok ({| sent := pkt; answer := r |}, (YAW_MAX, PITCH_MAX))).
Proof.
  split; [|split; [exact clamp_not_below|]].
  - intros v a b. unfold clamp.
    destruct (py_max_min_cases a b v) as [(H1 & H2 & ->)|[(H1 & H2 & ->)|(H1 & ->)]].
    + unfold py_max, py_min. now rewrite H2, H1.
    + unfold py_max, py_min. destruct (a <? b)%float eqn:E.
      * replace (a <? a)%float with false; [reflexivity|].
        clear - E. symmetry. float_order.
      * now rewrite E.
    + unfold py_max, py_min. destruct (a <? b)%float eqn:E.
      * replace (b <? b)%float with false by (clear - E; symmetry; float_order).
        now rewrite E.
      * rewrite E. now rewrite E.
  - intros seq yaw pitch t0 turns Hs Hy Hp.
    destruct (set_angles_with_ack_run seq yaw pitch t0 turns Hs)
      as (_ & _ & y & p & data & pkt & r & Ry & _ & Rp & _ & Hd & _ & _ & Hpk & _ & Hr).
    rewrite (clamp_not_below yaw YAW_MIN YAW_MAX) in Ry, Hr
      by (reflexivity || now apply ltb_nan_l).
    rewrite (clamp_not_below pitch PITCH_MIN PITCH_MAX) in Rp, Hr
      by (reflexivity || now apply ltb_nan_l).
    assert (y = 1350) by (vm_compute in Ry; congruence).
    assert (p = 450) by (vm_compute in Rp; congruence).
    subst y p. vm_compute in Hd. injection Hd as <-.
    exists pkt, r. split; assumption.
Qed.

Lemma next_seq_mod (seq : Z) : next_seq seq = (seq + 1) mod 65536.
Proof.
  unfold next_seq. change 0xFFFF with (Z.ones 16).
  now rewrite Z.land_ones by lia.
Qed.

Lemma request_attitude_run (seq : Z) (t0 : float) (turns : list turn) :
  0 <= seq <= 65535 ->
  exists e, request_attitude seq t0 turns = Ok e.
Proof.
  intros Hs. unfold request_attitude.
  destruct (parse_fields_build 0x0D [] seq true) as (pkt & Hb & _);
    [lia | cbn; lia | exact Hs |].
  rewrite Hb. cbn [bind].
  destruct (poll_total attitude_reply t0 turns attitude_reply_total) as (r & ->).
  cbn [bind]. eauto.
Qed.

Lemma main_pass_run (seq : Z) (yaw pitch : float) (w1 w2 w3 : wait) :
  0 <= seq <= 65535 ->
  exists p,
    main_pass seq yaw pitch w1 w2 w3 = Ok ((seq + 3) mod 65536, p) /\
    sent_angles p = (clamp yaw YAW_MIN YAW_MAX, clamp pitch PITCH_MIN PITCH_MAX).
Proof.
  intros Hs. unfold main_pass.
  destruct (request_attitude_run seq (w_t0 w1) (w_turns w1) Hs) as (b & ->).
  cbn [bind]. rewrite !next_seq_mod.
  assert (H1 : 0 <= (seq + 1) mod 65536 <= 65535)
    by (pose proof (Z.mod_pos_bound (seq + 1) 65536); lia).
  destruct (set_angles_with_ack_run ((seq + 1) mod 65536) yaw pitch
              (w_t0 w2) (w_turns w2) H1)
    as (_ & _ & y & p & data & pkt & r & _ & _ & _ & _ & _ & _ & _ & _ & _ & ->).
  cbn [bind].
  assert (H2 : 0 <= ((seq + 1) mod 65536 + 1) mod 65536 <= 65535)
    by (pose proof (Z.mod_pos_bound ((seq + 1) mod 65536 + 1) 65536); lia).
  destruct (request_attitude_run _ (w_t0 w3) (w_turns w3) H2) as (a & ->).
  cbn [bind].
  match goal with |- exists p, Ok (_, ?q) = _ /\ _ => exists q end.
  split; [|reflexivity].
  replace ((((seq + 1) mod 65536 + 1) mod 65536 + 1) mod 65536)
    with ((seq + 3) mod 65536); [reflexivity|].
  rewrite Zplus_mod_idemp_l.
  replace (((seq + 1) mod 65536 + 1 + 1)) with ((seq + 1) mod 65536 + 2) by lia.
  rewrite Zplus_mod_idemp_l. apply (f_equal (fun z => z mod 65536)). lia.
Qed.

(** X11. The sequence number of a session stays a 16-bit number, so that no
    request of [main] raises: starting from 0, any number of passes, with
    any angles (NaN and infinities included) and whatever the socket
    delivers, ends normally; after [n] passes the sequence number is [3 * n]
    modulo 65536, and each pass reports the clamped angles as sent. *)
Theorem main_passes_run
  (inputs : list (float * float * (wait * wait * wait))) :
  exists passes,
    main_passes 0 inputs
    = Ok ((3 * Z.of_nat (length inputs)) mod 65536, passes) /\
    map sent_angles passes
    = map (fun i => (clamp (fst (fst i)) YAW_MIN YAW_MAX,
                     clamp (snd (fst i)) PITCH_MIN PITCH_MAX)) inputs.
Proof.
  assert (G : forall seq, 0 <= seq <= 65535 ->
            exists passes,
              main_passes seq inputs
              = Ok ((seq + 3 * Z.of_nat (length inputs)) mod 65536, passes) /\
              map sent_angles passes
              = map (fun i => (clamp (fst (fst i)) YAW_MIN YAW_MAX,
                               clamp (snd (fst i)) PITCH_MIN PITCH_MAX)) inputs).
  { induction inputs as [|[[yaw pitch] [[w1 w2] w3]] rest IH]; intros seq Hs.
    - exists []. split; [|reflexivity]. cbn [main_passes length].
      replace (seq + 3 * Z.of_nat 0) with seq by lia.
      now rewrite Z.mod_small by lia.
    - cbn [main_passes].
      destruct (main_pass_run seq yaw pitch w1 w2 w3 Hs) as (p & -> & Hp).
      cbn [bind fst snd].
      destruct (IH ((seq + 3) mod 65536)) as (ps & -> & Hps).
      { pose proof (Z.mod_pos_bound (seq + 3) 65536). lia. }
      cbn [bind fst snd]. exists (p :: ps). split.
      + replace ((seq + 3) mod 65536 + 3 * Z.of_nat (length rest))
          with ((seq + 3) mod 65536 + (3 * Z.of_nat (length rest))) by lia.
        rewrite Zplus_mod_idemp_l.
        replace (seq + 3 + 3 * Z.of_nat (length rest))
          with (seq + 3 * Z.of_nat (length ((yaw, pitch, (w1, w2, w3)) :: rest)))
          by (cbn [length]; lia).
        reflexivity.
      + cbn [map fst snd]. now rewrite Hp, Hps. }
  destruct (G 0 ltac:(lia)) as (ps & H & Hm).
  exists ps. split; [exact H | exact Hm].
Qed.

(** ** Rounded values are values of the format *)

Lemma bounded_of_normal (m : positive) (e : Z) :
  -1074 <= e <= 971 -> Zpos m < 2 ^ 53 -> (e = -1074 \/ 2 ^ 52 <= Zpos m) ->
  bounded prec emax m e = true.
Proof.
  intros He Hm Hn. unfold bounded, canonical_mantissa.
  apply andb_true_iff. split; [|apply Z.leb_le; change (emax - prec) with 971; lia].
  apply Z.eqb_eq. rewrite fexp_eq.
  pose proof (digits2_pos_le_53 m Hm) as Hd.
  destruct Hn as [->|Hn]; [lia|].
  pose proof (digits_ge_53 m Hn). lia.
Qed.

Lemma rounds_to_valid (s : bool) (m2 e1 : Z) (r : spec_float) :
  -1074 <= e1 -> rounds_to s m2 e1 r -> valid_binary r = true.
Proof.
  intros He [[_ ->]|(m & e & _ & Hle & Hm & Hn & ->)]; [reflexivity|].
  destruct (e <=? 971) eqn:E; [|reflexivity].
  apply Z.leb_le in E. cbn [valid_binary].
  apply bounded_of_normal; [lia | exact Hm | exact Hn].
Qed.

Lemma binary_round_valid (s : bool) (p : positive) (e : Z) :
  -1074 <= e -> valid_binary (binary_round prec emax s p e) = true.
Proof.
  intros He.
  destruct (binary_round_cases s p e He) as (mz & ez & -> & Hez & Hf & _).
  destruct (binary_round_aux_exact s mz ez Hf) as (m2 & _ & _ & H).
  eapply rounds_to_valid; [|exact H]. rewrite fexp_eq. lia.
Qed.

Lemma float_of_int_positive (n : Z) (f : float) :
  0 < n -> float_of_int n = Ok f -> (0 <? f)%float = true.
Proof.
  intros Hn H. unfold float_of_int in H.
  destruct n as [|p|p]; try lia. cbn [binary_normalize] in H.
  assert (B : bounded prec emax 4503599627370496 (-52) = true) by reflexivity.
  assert (S : scaled (Zpos 4503599627370496) (-52) <= scaled (Zpos p) 0).
  { unfold scaled. change (-52 + 2200) with 2148. change (0 + 2200) with (52 + 2148).
    rewrite Z.pow_add_r by lia.
    change (Zpos 4503599627370496) with (2 ^ 52).
    assert (0 < 2 ^ 2148) by (apply Z.pow_pos_nonneg; lia).
    assert (0 < 2 ^ 52) by (apply Z.pow_pos_nonneg; lia).
    revert H0 H1. generalize (2 ^ 2148) (2 ^ 52). intros a b Ha Hb. nia. }
  pose proof (binary_round_valid false p 0 ltac:(lia)) as V.
  destruct (binary_round_lower false p 4503599627370496 0 (-52)
              ltac:(lia) B S) as [Hr|(m & e & Hr & Hs)]; rewrite Hr in H, V.
  - discriminate.
  - injection H as H. change (SF2Prim (S754_finite false m e) = f) in H.
    subst f. rewrite ltb_key, fkey_zero. unfold fkey.
    rewrite Prim2SF_SF2Prim by exact V.
    cbn [sf_key cond_Zopp]. cbn in V.
    pose proof (mag_key_pos m e V) as Hk. unfold mag_key in Hk.
    apply Z.ltb_lt. lia.
Qed.

(** ** More on target cycling *)

Lemma position_nodup (ids : list Z) (k : nat) (a : Z) :
  NoDup ids -> nth_error ids k = Some a -> position a ids = Ok k.
Proof.
  revert k. induction ids as [|b ids IH]; intros k Hn Hk.
  - destruct k; discriminate.
  - inversion Hn as [|? ? Hb Hn']; subst. destruct k as [|k].
    + cbn in Hk. injection Hk as ->. cbn. now rewrite Z.eqb_refl.
    + cbn in Hk. cbn [position].
      destruct (b =? a) eqn:E.
      * apply Z.eqb_eq in E. subst b. exfalso. apply Hb.
        eapply nth_error_In; eassumption.
      * rewrite (IH k Hn' Hk). reflexivity.
Qed.

Lemma contains_nth (ids : list Z) (k : nat) (a : Z) :
  nth_error ids k = Some a -> contains (Some a) ids = true.
Proof.
  intros H. cbn. apply existsb_exists. exists a.
  split; [eapply nth_error_In; eassumption | apply Z.eqb_refl].
Qed.

(** What [joystick_target] does to the active identity, in one
    statement: it ends normally and the new identity is in the list. *)
Lemma joystick_target_lands (u : updates) (targets : list target) (self : ptz) :
  target_delta u <> 0 -> targets <> [] ->
  exists self' k tid,
    joystick_target u targets self = (self', Ok tt) /\
    nth_error (identities targets) k = Some tid /\
    active_target_id self' = Some tid.
Proof.
  intros Hd Ht.
  destruct (joystick_target_run u targets self Hd Ht)
    as (first & Hfirst & [[Hc Hr]|[Hc Hr]]).
  - exists (set_active_target_id (Some first) self), 0%nat, first.
    now repeat split.
  - destruct Hr as (a & i & tid & Ha & Hp & Hn & Hmin & Hnew & Hr).
    eexists _, _, tid. split; [exact Hr|]. split; [exact Hnew | reflexivity].
Qed.

(** X12. Right after a cycling event the selection follows the joystick: on
    an event with [target_delta <> 0] and a non-empty detection list,
    [_select_active_target] on the state that [_apply_joystick] leaves
    returns a detection of this frame whose identity is the new active
    identity, and never falls back on the largest box. *)
Theorem cycling_then_selection
  (targets : list target) (u : updates) (self : ptz) :
  target_delta u <> 0 -> targets <> [] ->
  Z.abs (zoom_delta u) < 2 ^ 53 ->
  exists self' j t tid,
    _apply_joystick targets (Some u) self = (self', Ok tt) /\
    active_target_id self' = Some tid /\
    nth_error targets j = Some t /\
    nth_error (identities targets) j = Some tid /\
    _select_active_target self' targets = Ok (Some t).
Proof.
  intros Hd Ht Hz.
  destruct (joystick_wide_zoom_run u self Hz) as (s1 & Hrun & _).
  destruct (apply_joystick_split u targets self s1 Hrun) as [Happ _].
  destruct (joystick_target_lands u targets s1 Hd Ht)
    as (self' & k & tid & Hr & Hk & Ha).
  destruct (position_spec tid (identities targets)) as (j & _ & Hj & Hmin).
  { exact (contains_nth _ _ _ Hk). }
  assert (Hlt : (j < length targets)%nat).
  { unfold identities in Hj.
    rewrite <- (length_identities_from 0 targets).
    apply nth_error_Some. congruence. }
  destruct (nth_error targets j) as [t|] eqn:Et;
    [|apply nth_error_None in Et; lia].
  exists self', j, t, tid.
  rewrite Happ. split; [exact Hr|]. split; [exact Ha|].
  split; [exact Et|]. split; [exact Hj|].
  unfold _select_active_target. rewrite Ha.
  rewrite (find_active_first targets 0 tid j t Et Hj Hmin).
  destruct targets; [contradiction | reflexivity].
Qed.

Lemma cycling_then_selection_witness :
  (target_delta next_target <> 0 /\ three_targets <> [] /\
   Z.abs (zoom_delta next_target) < 2 ^ 53) /\
  exists self' j t tid,
    _apply_joystick three_targets (Some next_target) (following 4)
    = (self', Ok tt) /\
    active_target_id self' = Some tid /\
    nth_error three_targets j = Some t /\
    nth_error (identities three_targets) j = Some tid /\
    _select_active_target self' three_targets = Ok (Some t).
Proof.
  assert (H1 : target_delta next_target <> 0) by (cbn; lia).
  assert (H2 : three_targets <> []) by discriminate.
  assert (H3 : Z.abs (zoom_delta next_target) < 2 ^ 53) by (cbn; lia).
  split; [now repeat split|].
  exact (cycling_then_selection three_targets next_target (following 4)
           H1 H2 H3).
Defined.

(** X13. Cycling composes.  When the identities of the frame are pairwise
    distinct and the active identity is the one at place [i], an event with
    target delta [d1] followed by an event with target delta [d2] on the same
    detections leaves the identity at place [(i + d1 + d2) mod n] active, as
    a single event with delta [d1 + d2] would; so a step back undoes a step
    forward, and [n] steps forward come back to the start. *)
Theorem cycling_composes
  (targets : list target) (u1 u2 : updates) (self : ptz) (i : nat) (a : Z) :
  NoDup (identities targets) ->
  active_target_id self = Some a ->
  nth_error (identities targets) i = Some a ->
  target_delta u1 <> 0 -> target_delta u2 <> 0 ->
  Z.abs (zoom_delta u1) < 2 ^ 53 -> Z.abs (zoom_delta u2) < 2 ^ 53 ->
  let n := Z.of_nat (length (identities targets)) in
  exists s1 s2,
    _apply_joystick targets (Some u1) self = (s1, Ok tt) /\
    _apply_joystick targets (Some u2) s1 = (s2, Ok tt) /\
    active_target_id s2
    = nth_error (identities targets)
        (Z.to_nat ((Z.of_nat i + target_delta u1 + target_delta u2) mod n)) /\
    ((target_delta u1 + target_delta u2) mod n = 0 ->
     active_target_id s2 = active_target_id self).
Proof.
  intros Hnd Ha Hi Hd1 Hd2 Hz1 Hz2 n.
  assert (Ht : targets <> []).
  { intros ->. destruct i; discriminate. }
  assert (Hn : 0 < n).
  { unfold n. destruct (identities targets); [destruct i; discriminate|].
    cbn [length]. lia. }
  (* first event *)
  destruct (joystick_wide_zoom_run u1 self Hz1) as (m1 & Hrun1 & Hact1).
  destruct (apply_joystick_split u1 targets self m1 Hrun1) as [Happ1 _].
  destruct (joystick_target_run u1 targets m1 Hd1 Ht)
    as (first & _ & [[Hc _]|[_ Hr]]).
  { rewrite Hact1, Ha, (contains_nth _ _ _ Hi) in Hc. discriminate. }
  destruct Hr as (a1 & i1 & tid1 & Ha1 & Hp1 & _ & _ & Hnew1 & Hr1).
  assert (a1 = a) by congruence. subst a1.
  rewrite (position_nodup _ _ _ Hnd Hi) in Hp1. injection Hp1 as <-.
  set (s1 := set_force_wide false (set_active_target_id (Some tid1) m1)) in *.
  fold n in Hnew1.
  set (k := (Z.of_nat i + target_delta u1) mod n) in *.
  (* second event *)
  destruct (joystick_wide_zoom_run u2 s1 Hz2) as (m2 & Hrun2 & Hact2).
  destruct (apply_joystick_split u2 targets s1 m2 Hrun2) as [Happ2 _].
  destruct (joystick_target_run u2 targets m2 Hd2 Ht)
    as (first2 & _ & [[Hc _]|[_ Hr]]).
  { rewrite Hact2 in Hc. unfold s1 in Hc. cbn [active_target_id set_force_wide
      set_active_target_id] in Hc.
    rewrite (contains_nth _ _ _ Hnew1) in Hc. discriminate. }
  destruct Hr as (a2 & i2 & tid2 & Ha2 & Hp2 & _ & _ & Hnew2 & Hr2).
  rewrite Hact2 in Ha2. unfold s1 in Ha2.
  cbn [active_target_id set_force_wide set_active_target_id] in Ha2.
  injection Ha2 as <-.
  rewrite (position_nodup _ _ _ Hnd Hnew1) in Hp2. injection Hp2 as <-.
  fold n in Hnew2.
  assert (Hk : 0 <= k < n) by (apply Z.mod_pos_bound; exact Hn).
  rewrite Z2Nat.id in Hnew2 by lia.
  assert (E : (k + target_delta u2) mod n
              = (Z.of_nat i + target_delta u1 + target_delta u2) mod n).
  { unfold k. now rewrite Zplus_mod_idemp_l. }
  rewrite E in Hnew2.
  exists s1, (set_force_wide false (set_active_target_id (Some tid2) m2)).
  rewrite Happ1, Happ2. split; [exact Hr1|]. split; [exact Hr2|].
  cbn [active_target_id set_force_wide set_active_target_id].
  split; [now rewrite Hnew2|].
  intros H0. rewrite <- Hnew2, Ha, <- Hi. f_equal.
  rewrite <- Z.add_assoc, Z.add_mod, H0, Z.add_0_r, Z.mod_mod by lia.
  rewrite Z.mod_small; [apply Nat2Z.id|].
  split; [lia|]. unfold n. apply Nat2Z.inj_lt.
  apply nth_error_Some. congruence.
Qed.

Lemma cycling_composes_witness :
  (NoDup (identities three_targets) /\
   active_target_id (following 7) = Some 7 /\
   nth_error (identities three_targets) 1 = Some 7 /\
   target_delta next_target <> 0 /\
   Z.abs (zoom_delta next_target) < 2 ^ 53) /\
  exists s1 s2,
    _apply_joystick three_targets (Some next_target) (following 7)
    = (s1, Ok tt) /\
    _apply_joystick three_targets (Some next_target) s1 = (s2, Ok tt) /\
    active_target_id s2
    = nth_error (identities three_targets)
        (Z.to_nat ((Z.of_nat 1 + target_delta next_target
                    + target_delta next_target)
                   mod Z.of_nat (length (identities three_targets)))) /\
    ((target_delta next_target + target_delta next_target)
     mod Z.of_nat (length (identities three_targets)) = 0 ->
     active_target_id s2 = active_target_id (following 7)).
Proof.
  assert (H0 : NoDup (identities three_targets)).
  { cbn. repeat constructor; cbn; intros H; repeat destruct H as [H|H];
      try discriminate; exact H. }
  assert (H1 : active_target_id (following 7) = Some 7) by reflexivity.
  assert (H2 : nth_error (identities three_targets) 1 = Some 7) by reflexivity.
  assert (H3 : target_delta next_target <> 0) by (cbn; lia).
  assert (H4 : Z.abs (zoom_delta next_target) < 2 ^ 53) by (cbn; lia).
  split; [now repeat split|].
  exact (cycling_composes three_targets next_target next_target
           (following 7) 1 7 H0 H1 H2 H3 H3 H4 H4).
Defined.

(** ** The wide view *)

Lemma joystick_target_idle (u : updates) (targets : list target) (self : ptz) :
  target_delta u = 0 \/ targets = [] ->
  joystick_target u targets self = (self, Ok tt).
Proof.
  intros [H| ->]; unfold joystick_target.
  - rewrite H. reflexivity.
  - cbn. rewrite andb_false_r. reflexivity.
Qed.

(** X14. A press on the middle of the stick gives the wide view: after an
    event that carries [wide] and no zoom delta, and that does not cycle
    (no target delta, or no detection, or an active identity that is not in
    the frame), [force_wide] is set, the zoom is back at [zoom_min], and
    [_crop_and_zoom] returns every frame unmodified, whatever the zoom and
    the target were before.  When the same event also carries a zoom delta,
    the zoom adjustment clears [force_wide] again. *)
Theorem wide_event_passes_frames :
  (forall (targets : list target) (u : updates) (self : ptz),
      wide u = true -> zoom_delta u = 0 ->
      target_delta u = 0 \/ targets = [] \/
      contains (active_target_id self) (identities targets) = false ->
      exists self',
        _apply_joystick targets (Some u) self = (self', Ok tt) /\
        force_wide self' = true /\ zoom self' = zoom_min self /\
        forall (frame : frame) (target : option target),
          _crop_and_zoom self' (Some frame) target = Ok (Some Unmodified)) /\
  (forall (targets : list target) (u : updates) (self : ptz),
      wide u = true -> zoom_delta u <> 0 -> target_delta u = 0 ->
      Z.abs (zoom_delta u) < 2 ^ 53 ->
      exists self',
        _apply_joystick targets (Some u) self = (self', Ok tt) /\
        force_wide self' = false).
Proof.
  split.
  - intros targets u self Hw Hz Hc.
    assert (Hrun : (joystick_wide u ;;; joystick_zoom u) self
                   = (set_zoom (zoom_min self) (set_force_wide true self), Ok tt)).
    { unfold seq. rewrite joystick_wide_run, Hw, joystick_zoom_run, Hz.
      reflexivity. }
    destruct (apply_joystick_split u targets self _ Hrun) as [Happ Hact].
    set (s1 := set_zoom (zoom_min self) (set_force_wide true self)) in *.
    assert (Hpass : forall s, force_wide s = true ->
              forall (frame : frame) (target : option target),
                _crop_and_zoom s (Some frame) target = Ok (Some Unmodified)).
    { intros s Hs frame [t|]; [|reflexivity].
      unfold _crop_and_zoom. now rewrite Hs. }
    destruct (Z.eq_dec (target_delta u) 0) as [Hd|Hd].
    { exists s1. rewrite Happ, joystick_target_idle by (now left).
      split; [reflexivity|]. split; [reflexivity|]. split; [reflexivity|].
      now apply Hpass. }
    destruct targets as [|t0 rest].
    { exists s1. rewrite Happ, joystick_target_idle by (now right).
      split; [reflexivity|]. split; [reflexivity|]. split; [reflexivity|].
      now apply Hpass. }
    destruct Hc as [Hc|[Hc|Hc]]; [contradiction | discriminate |].
    destruct (joystick_target_run u (t0 :: rest) s1 Hd ltac:(discriminate))
      as (first & _ & [[_ Hr]|[Hc' _]]).
    + exists (set_active_target_id (Some first) s1). rewrite Happ, Hr.
      split; [reflexivity|]. split; [reflexivity|]. split; [reflexivity|].
      now apply Hpass.
    + rewrite Hact, Hc in Hc'. discriminate.
  - intros targets u self Hw Hz Hd Hb.
    destruct (float_of_int_small (zoom_delta u) Hb) as (d & Hf).
    eexists. split.
    + unfold _apply_joystick, seq.
      rewrite joystick_wide_run, Hw, joystick_zoom_run, Hf.
      apply Z.eqb_neq in Hz. rewrite Hz.
      rewrite joystick_target_idle by (now left). reflexivity.
    + reflexivity.
Qed.

Lemma wide_event_passes_frames_witness :
  (wide {| target_delta := 0; zoom_delta := 0; wide := true |} = true /\
   zoom_delta {| target_delta := 0; zoom_delta := 0; wide := true |} = 0) /\
  exists self',
    _apply_joystick three_targets
      (Some {| target_delta := 0; zoom_delta := 0; wide := true |})
      (zoomed 2 7) = (self', Ok tt) /\
    force_wide self' = true /\ zoom self' = zoom_min (zoomed 2 7) /\
    forall (frame : frame) (target : option target),
      _crop_and_zoom self' (Some frame) target = Ok (Some Unmodified).
Proof.
  split; [now split|].
  apply (proj1 wide_event_passes_frames three_targets
           {| target_delta := 0; zoom_delta := 0; wide := true |} (zoomed 2 7));
    [reflexivity | reflexivity | now left].
Defined.

(** ** Selection on any detection list *)

Lemma bbox_area_total (bbox : list float) :
  (4 <= length bbox)%nat -> exists a, bbox_area bbox = Ok a.
Proof.
  intros H. destruct bbox as [|x0 [|x1 [|x2 [|x3 rest]]]]; cbn in H; try lia.
  eexists. reflexivity.
Qed.

Lemma primary_loop_some (objs : list target) (largest : float) (x : target) :
  Forall (fun t => (4 <= length (t_bbox t))%nat) objs ->
  exists t, primary_loop objs largest (Some x) = Ok (Some t) /\
            (t = x \/ In t objs).
Proof.
  intros H. revert largest x.
  induction H as [|obj objs Hb _ IH]; intros largest x.
  - exists x. split; [reflexivity | now left].
  - cbn [primary_loop]. destruct (bbox_area_total _ Hb) as (a & ->).
    cbn [bind]. destruct (largest <? a)%float.
    + destruct (IH a obj) as (t & Hr & Hor). exists t.
      split; [exact Hr|]. right. destruct Hor as [->|Ht]; [now left | now right].
    + destruct (IH largest x) as (t & Hr & Hor). exists t.
      split; [exact Hr|]. destruct Hor as [->|Ht]; [now left | right; now right].
Qed.

Lemma primary_loop_none (objs : list target) (largest : float) :
  Forall (fun t => (4 <= length (t_bbox t))%nat) objs ->
  exists r, primary_loop objs largest None = Ok r /\
    (forall t, r = Some t -> In t objs) /\
    (r = None <->
     Forall (fun t => forall a, bbox_area (t_bbox t) = Ok a ->
                                (largest <? a)%float = false) objs).
Proof.
  intros H. induction H as [|obj objs Hb Hall IH].
  - exists None. split; [reflexivity|]. split; [discriminate|].
    split; [constructor | reflexivity].
  - cbn [primary_loop]. destruct (bbox_area_total _ Hb) as (a & Ha).
    rewrite Ha. cbn [bind]. destruct (largest <? a)%float eqn:E.
    + destruct (primary_loop_some objs a obj Hall) as (t & Hr & Ht).
      exists (Some t). split; [exact Hr|]. split.
      * intros t' Et. injection Et as <-. destruct Ht as [->|Ht];
          [now left | now right].
      * split; [discriminate|]. intros F. inversion F as [|? ? F1 _]; subst.
        specialize (F1 a Ha). congruence.
    + destruct IH as (r & Hr & Hin & Hnone).
      exists r. split; [exact Hr|]. split.
      * intros t' Et. right. now apply Hin.
      * rewrite Hnone. split.
        -- intros F. constructor; [|exact F].
           intros a' Ha'. congruence.
        -- intros F. now inversion F.
Qed.

Lemma find_active_some (active : option Z) (idx : Z) (targets : list target)
  (t : target) :
  find_active active idx targets = Some t ->
  In t targets /\ contains active (identities_from idx targets) = true.
Proof.
  revert idx. induction targets as [|x rest IH]; intros idx H; [discriminate|].
  cbn [find_active] in H. cbn [identities_from].
  destruct active as [a|].
  - cbn [contains existsb] in *.
    rewrite (Z.eqb_sym a). destruct (_ =? a) eqn:E.
    + injection H as <-. split; [now left | reflexivity].
    + destruct (IH _ H) as [Hin Hc]. split; [now right | exact Hc].
  - destruct (IH _ H) as [Hin Hc]. discriminate.
Qed.

(** X15. [_select_active_target] on any detection list whose boxes have
    their four coordinates: it ends normally; what it selects is one of the
    detections; and it selects nothing exactly when no detection carries the
    active identity and no box has an area above zero, which is the case of
    the empty list, and also of a list of degenerate or NaN boxes. *)
Theorem select_active_target_total (self : ptz) (targets : list target) :
  Forall (fun t => (4 <= length (t_bbox t))%nat) targets ->
  exists r,
    _select_active_target self targets = Ok r /\
    (forall t, r = Some t -> In t targets) /\
    (r = None <->
     contains (active_target_id self) (identities targets) = false /\
     Forall (fun t => forall a, bbox_area (t_bbox t) = Ok a ->
                                (0 <? a)%float = false) targets).
Proof.
  intros H. unfold _select_active_target.
  destruct targets as [|x rest].
  { exists None. split; [reflexivity|]. split; [discriminate|].
    split; [intros _; split; [now destruct (active_target_id self) | constructor]
           | reflexivity]. }
  destruct (find_active (active_target_id self) 0 (x :: rest)) as [t|] eqn:Ef.
  - destruct (find_active_some _ _ _ _ Ef) as [Hin Hc].
    exists (Some t). split; [reflexivity|]. split.
    + intros t' Et. now injection Et as <-.
    + split; [discriminate|]. unfold identities. intros [Hc' _]. congruence.
  - unfold get_primary_target.
    destruct (primary_loop_none (x :: rest) 0%float H) as (r & Hr & Hin & Hnone).
    exists r. split; [exact Hr|]. split; [exact Hin|].
    rewrite Hnone. split; [|tauto].
    intros F. split; [|exact F].
    destruct (contains (active_target_id self) (identities (x :: rest))) eqn:Ec;
      [|reflexivity].
    exfalso. destruct (active_target_id self) as [a|]; [|discriminate].
    destruct (position_spec a (identities (x :: rest)) Ec) as (i & _ & Hi & Hmin).
    assert (Hlt : (i < length (x :: rest))%nat).
    { rewrite <- (length_identities_from 0 (x :: rest)).
      apply nth_error_Some. unfold identities in Hi. congruence. }
    destruct (nth_error (x :: rest) i) as [t|] eqn:Et;
      [|apply nth_error_None in Et; lia].
    rewrite (find_active_first (x :: rest) 0 a i t Et Hi Hmin) in Ef.
    discriminate.
Qed.

Lemma select_active_target_total_witness :
  Forall (fun t => (4 <= length (t_bbox t))%nat) [tracked 1 5 5 5 9] /\
  exists r,
    _select_active_target (following 4) [tracked 1 5 5 5 9] = Ok r /\
    (forall t, r = Some t -> In t [tracked 1 5 5 5 9]) /\
    (r = None <->
     contains (active_target_id (following 4))
       (identities [tracked 1 5 5 5 9]) = false /\
     Forall (fun t => forall a, bbox_area (t_bbox t) = Ok a ->
                                (0 <? a)%float = false) [tracked 1 5 5 5 9]).
Proof.
  assert (H : Forall (fun t => (4 <= length (t_bbox t))%nat)
                [tracked 1 5 5 5 9]) by (repeat constructor).
  split; [exact H|].
  exact (select_active_target_total (following 4) [tracked 1 5 5 5 9] H).
Defined.

(** ** The crop, for every input *)

Ltac crop_step H :=
  match type of H with
  | context [bind ?r _] =>
    let E := fresh "E" in
    destruct r eqn:E; cbn [bind] in H
  end.

Lemma crop_axis (n c p : Z) :
  let cw := Z.max 1 (Z.min n c) in
  let x := Z.max 0 (Z.min (n - cw) p) in
  extent n x (x + cw) <> 0 ->
  0 <= x /\ x < x + cw /\ x + cw <= n.
Proof.
  intros cw x H.
  assert (C1 : 1 <= cw) by (unfold cw; lia).
  assert (X0 : 0 <= x) by (unfold x; lia).
  assert (N : 1 <= n).
  { destruct (Z_le_dec 1 n) as [L|L]; [exact L|]. exfalso. apply H.
    assert (x = 0) by (unfold x; lia). unfold extent. lia. }
  assert (C2 : cw <= n) by (unfold cw; lia).
  assert (X1 : x <= n - cw) by (unfold x; lia).
  lia.
Qed.

Lemma crop_and_zoom_cases (self : ptz) (frame : frame) (target : option target) :
  match _crop_and_zoom self (Some frame) target with
  | Ok None => False
  | Ok (Some Unmodified) => True
  | Ok (Some (Resized x1 y1 x2 y2 w h)) =>
    w = width frame /\ h = height frame /\
    0 <= x1 /\ x1 < x2 /\ x2 <= w /\ 0 <= y1 /\ y1 < y2 /\ y2 <= h /\
    force_wide self = false /\ (zoom self <=? NO_ZOOM)%float = false /\
    exists t, target = Some t /\ (4 <= length (t_bbox t))%nat
  | Raised e => e = ValueError \/ e = OverflowError
  end.
Proof.
  destruct (_crop_and_zoom self (Some frame) target) as [r|e] eqn:H.
  - unfold _crop_and_zoom in H.
    destruct target as [t|]; [|injection H as <-; exact I].
    destruct (force_wide self) eqn:Hw; cbn [orb] in H;
      [injection H as <-; exact I|].
    destruct (zoom self <=? NO_ZOOM)%float eqn:Hz; [injection H as <-; exact I|].
    destruct (length (t_bbox t) <? 4)%nat eqn:Hl; [injection H as <-; exact I|].
    apply Nat.ltb_ge in Hl.
    destruct (t_bbox t) as [|b0 [|b1 [|b2 [|b3 rest]]]] eqn:Hb;
      cbn in Hl; try lia.
    cbn [index nth_error bind] in H.
    repeat (first [rewrite (truediv_zoomed _ _ Hz) in H; cbn [bind] in H
                  | crop_step H; [|discriminate]]).
    match type of H with
    | (if ?c then _ else _) = _ => destruct c eqn:Hx
    end; injection H as <-; [exact I|].
    apply orb_false_iff in Hx. destruct Hx as [Hy Hx].
    apply Z.eqb_neq in Hy, Hx.
    apply crop_axis in Hy, Hx.
    split; [reflexivity|]. split; [reflexivity|].
    split; [apply Hx|]. split; [apply Hx|]. split; [apply Hx|].
    split; [apply Hy|]. split; [apply Hy|]. split; [apply Hy|].
    split; [reflexivity|]. split; [reflexivity|].
    exists t. split; [reflexivity|]. rewrite Hb. exact Hl.
  - unfold _crop_and_zoom in H.
    destruct target as [t|]; [|discriminate].
    destruct (force_wide self) eqn:Hw; cbn [orb] in H; [discriminate|].
    destruct (zoom self <=? NO_ZOOM)%float eqn:Hz; [discriminate|].
    destruct (length (t_bbox t) <? 4)%nat eqn:Hl; [discriminate|].
    apply Nat.ltb_ge in Hl.
    destruct (t_bbox t) as [|b0 [|b1 [|b2 [|b3 rest]]]]; cbn in Hl; try lia.
    cbn [index nth_error bind] in H.
    repeat (first [rewrite (truediv_zoomed _ _ Hz) in H; cbn [bind] in H |
            crop_step H;
            [|injection H as <-;
              repeat match goal with
                | E : float_of_int _ = Raised _ |- _ =>
                  unfold float_of_int in E;
                  destruct (binary_normalize _ _ _ _ _); inversion E; auto
                | E : int_half _ = Raised _ |- _ =>
                  unfold int_half in E;
                  destruct (binary_normalize _ _ _ _ _); inversion E; auto
                | E : py_int ?x = Raised _ |- _ =>
                  unfold py_int in E;
                  destruct (Prim2SF x); inversion E; auto
                end]]).
    match type of H with
    | (if ?c then _ else _) = _ => destruct c
    end; discriminate.
Qed.

(** X16. The geometry of [_crop_and_zoom], for every frame, state and
    target.  A frame that is [None] gives [None], and no other does.  When
    the frame is resized, the rectangle that was cropped is not empty and
    lies inside the frame, [force_wide] is off, the zoom is above 1.01 and
    the target has its four coordinates.  The computation can only fail in a
    conversion, on a NaN or an overflow ([ValueError], [OverflowError]): the
    box is never indexed out of range and the division by the zoom is never
    a division by zero. *)
Theorem crop_stays_in_frame
  (self : ptz) (frame : option frame) (target : option target) :
  (_crop_and_zoom self frame target = Ok None <-> frame = None) /\
  (forall fr x1 y1 x2 y2 w h,
      frame = Some fr ->
      _crop_and_zoom self frame target = Ok (Some (Resized x1 y1 x2 y2 w h)) ->
      w = width fr /\ h = height fr /\
      0 <= x1 /\ x1 < x2 /\ x2 <= w /\ 0 <= y1 /\ y1 < y2 /\ y2 <= h /\
      force_wide self = false /\ (zoom self <=? NO_ZOOM)%float = false /\
      exists t, target = Some t /\ (4 <= length (t_bbox t))%nat) /\
  (forall e,
      _crop_and_zoom self frame target = Raised e ->
      e = ValueError \/ e = OverflowError).
Proof.
  destruct frame as [fr|].
  2:{ split; [split; reflexivity|]. split; [discriminate|].
      cbn. discriminate. }
  pose proof (crop_and_zoom_cases self fr target) as C.
  destruct (_crop_and_zoom self (Some fr) target) as [[r|]|e].
  - split; [split; discriminate|]. split; [|discriminate].
    intros fr' x1 y1 x2 y2 w h E H. injection E as <-. injection H as ->.
    exact C.
  - contradiction.
  - split; [split; discriminate|]. split; [discriminate|].
    intros e' H. injection H as <-. exact C.
Qed.

Lemma crop_stays_in_frame_witness :
  (Some vga = Some vga /\
   _crop_and_zoom (zoomed 2 7) (Some vga) (Some centred)
   = Ok (Some (Resized 160 120 480 360 640 480))) /\
  640 = width vga /\ 480 = height vga /\
  0 <= 160 /\ 160 < 480 /\ 480 <= 640 /\ 0 <= 120 /\ 120 < 360 /\ 360 <= 480 /\
  force_wide (zoomed 2 7) = false /\
  (zoom (zoomed 2 7) <=? NO_ZOOM)%float = false /\
  exists t, Some centred = Some t /\ (4 <= length (t_bbox t))%nat.
Proof.
  assert (H : _crop_and_zoom (zoomed 2 7) (Some vga) (Some centred)
              = Ok (Some (Resized 160 120 480 360 640 480)))
    by (vm_compute; reflexivity).
  split; [now split|].
  exact (proj1 (proj2 (crop_stays_in_frame (zoomed 2 7) (Some vga)
                         (Some centred)))
           vga 160 120 480 360 640 480 eq_refl H).
Defined.

(** ** Signs of rounded results *)

Lemma shr_1_m_nonneg (mrs : shr_record) :
  0 <= shr_m mrs -> 0 <= shr_m (shr_1 mrs).
Proof.
  destruct mrs as [m r s]. cbn [shr_m]. intros H.
  destruct m as [|[p|p|]|p]; cbn; lia.
Qed.

Lemma shr_m_nonneg (mrs : shr_record) (e n : Z) :
  0 <= shr_m mrs -> 0 <= shr_m (fst (shr mrs e n)).
Proof.
  intros H. unfold shr. destruct n as [|p|p]; cbn [fst]; try exact H.
  rewrite iter_pos_nat. induction (Pos.to_nat p) as [|k IH]; [exact H|].
  rewrite Nat.iter_succ. now apply shr_1_m_nonneg.
Qed.

Lemma shr_fexp_m_nonneg (m e : Z) (l : location) :
  0 <= m -> 0 <= shr_m (fst (shr_fexp prec emax m e l)).
Proof.
  intros H. unfold shr_fexp. apply shr_m_nonneg.
  destruct l as [|[| |]]; exact H.
Qed.

Lemma round_nearest_even_nonneg (m : Z) (l : location) :
  0 <= m -> 0 <= round_nearest_even m l.
Proof.
  intros H. unfold round_nearest_even.
  destruct l as [|[| |]]; try lia. destruct (Z.even m); lia.
Qed.

Lemma binary_round_aux_nonneg (s : bool) (mx ex : Z) (lx : location) :
  0 <= mx ->
  let r := binary_round_aux prec emax s mx ex lx in
  r = S754_zero s \/ r = S754_infinity s \/ exists m e, r = S754_finite s m e.
Proof.
  intros H. cbv zeta. unfold binary_round_aux.
  pose proof (shr_fexp_m_nonneg mx ex lx H) as H1.
  destruct (shr_fexp prec emax mx ex lx) as [mrs' e'].
  cbn [fst] in H1.
  pose proof (shr_fexp_m_nonneg
                (round_nearest_even (shr_m mrs') (loc_of_shr_record mrs'))
                e' loc_Exact
                (round_nearest_even_nonneg _ _ H1)) as H2.
  destruct (shr_fexp prec emax _ e' loc_Exact) as [mrs'' e''].
  cbn [fst] in H2.
  destruct (shr_m mrs'') as [|m|m]; [now left | | lia].
  destruct (e'' <=? emax - prec); [right; right; eauto | right; now left].
Qed.

Lemma leb_zero_nonneg (x : float) :
  (0 <=? x)%float = true <-> nonneg_sf (Prim2SF x).
Proof.
  rewrite leb_key, fkey_zero. unfold fkey.
  pose proof (Prim2SF_valid x) as V.
  destruct (Prim2SF x) as [s|s| |s m e]; cbn [sf_key nonneg_sf cond_Zopp].
  - split; [trivial | reflexivity].
  - destruct s; cbn [cond_Zopp].
    + split; [|contradiction]. intros H. apply Z.leb_le in H. lia.
    + split; [trivial | reflexivity].
  - split; [discriminate | contradiction].
  - cbn in V. pose proof (mag_key_pos m e V) as Hk. unfold mag_key in Hk.
    destruct s; cbn [cond_Zopp].
    + split; [|contradiction]. intros H. apply Z.leb_le in H. lia.
    + split; [trivial|]. intros _. apply Z.leb_le. lia.
Qed.

Lemma nonneg_of_forms (r : spec_float) :
  r = S754_zero false \/ r = S754_infinity false \/
  (exists m e, r = S754_finite false m e) ->
  nonneg_sf r.
Proof. intros [->|[->|(m & e & ->)]]; exact I. Qed.

Lemma mul_nonneg (a c : float) :
  (0 <=? a)%float = true -> (0 <? c)%float = true -> clock c ->
  (0 <=? a * c)%float = true.
Proof.
  intros Ha Hc Hf. apply leb_zero_nonneg. apply leb_zero_nonneg in Ha.
  assert (Hc' : (0 <=? c)%float = true) by (clear - Hc; float_order).
  apply leb_zero_nonneg in Hc'.
  assert (Hnz : (c =? 0)%float = false) by (clear - Hc; float_order).
  rewrite eqb_key, fkey_zero in Hnz. unfold fkey in Hnz.
  rewrite mul_spec. unfold SF64mul, clock in *.
  destruct (Prim2SF c) as [sc|sc| |sc mc ec]; try contradiction.
  { cbn [sf_key] in Hnz. discriminate. }
  destruct sc; [contradiction|].
  destruct (Prim2SF a) as [sa|sa| |sa ma ea]; try contradiction; cbn [SFmul].
  - destruct sa; exact I.
  - destruct sa; [contradiction | exact I].
  - destruct sa; [contradiction|]. cbn [xorb].
    apply nonneg_of_forms. apply binary_round_aux_nonneg. lia.
Qed.

Lemma binary_round_forms (s : bool) (p : positive) (e : Z) :
  let r := binary_round prec emax s p e in
  r = S754_zero s \/ r = S754_infinity s \/ exists m e', r = S754_finite s m e'.
Proof.
  cbv zeta. unfold binary_round.
  destruct (shl_align p e _) as [mz ez].
  apply binary_round_aux_nonneg. lia.
Qed.

Lemma add_nonneg (a b : float) :
  (0 <=? a)%float = true -> (0 <=? b)%float = true ->
  (0 <=? a + b)%float = true.
Proof.
  intros Ha Hb. apply leb_zero_nonneg. apply leb_zero_nonneg in Ha, Hb.
  rewrite add_spec. unfold SF64add.
  destruct (Prim2SF a) as [sa|sa| |sa ma ea]; try contradiction;
    destruct (Prim2SF b) as [sb|sb| |sb mb eb]; try contradiction;
    cbn [SFadd nonneg_sf] in *.
  - destruct sa, sb; exact I.
  - exact Hb.
  - exact Hb.
  - exact Ha.
  - destruct sa, sb; try contradiction; exact I.
  - exact Ha.
  - exact Ha.
  - exact Hb.
  - destruct sa, sb; try contradiction. cbn [cond_Zopp].
    destruct (Z.pos _ + Z.pos _) as [|p|p] eqn:E; try lia;
      cbn [binary_normalize].
    apply nonneg_of_forms. apply binary_round_forms.
Qed.

Lemma inverse_nonneg (dt : float) :
  (0 <? dt)%float = true -> (0 <=? 1 / dt)%float = true.
Proof.
  intros H. apply leb_zero_nonneg.
  assert (Hd : (0 <=? dt)%float = true) by (clear - H; float_order).
  apply leb_zero_nonneg in Hd.
  assert (Hnz : (dt =? 0)%float = false) by (clear - H; float_order).
  rewrite eqb_key, fkey_zero in Hnz. unfold fkey in Hnz.
  rewrite div_spec. unfold SF64div.
  change (Prim2SF 1) with (S754_finite false 4503599627370496 (-52)).
  destruct (Prim2SF dt) as [s|s| |s m e]; try contradiction.
  - cbn [sf_key] in Hnz. discriminate.
  - destruct s; [contradiction | exact I].
  - destruct s; [contradiction|]. cbn [SFdiv xorb].
    unfold SFdiv_core_binary.
    set (e' := Z.min _ _). set (sh := _ - e').
    set (m' := match sh with Z0 => _ | Zpos _ => _ | Zneg _ => _ end).
    assert (Hm' : 0 <= m').
    { unfold m'. destruct sh; try lia. apply Z.shiftl_nonneg. lia. }
    pose proof (Z.div_pos m' (Zpos m) Hm' ltac:(lia)) as Hq.
    unfold Z.div in Hq.
    destruct (Z.div_eucl m' (Zpos m)) as [q r].
    apply nonneg_of_forms. apply binary_round_aux_nonneg. exact Hq.
Qed.

Lemma sub_clock_not_nan (x y : float) :
  clock x -> clock y -> ((x - y) =? (x - y))%float = true.
Proof.
  intros Hx Hy. rewrite eqb_key. unfold fkey, clock in *.
  rewrite sub_spec. unfold SF64sub.
  assert (G : forall r, r <> S754_nan ->
              match sf_key r with
              | Some a => a =? a
              | None => false
              end = true).
  { intros r Hr. destruct r; cbn [sf_key]; try apply Z.eqb_refl. congruence. }
  destruct (sf_key (SFsub prec emax (Prim2SF x) (Prim2SF y))) as [k|] eqn:E;
    [apply Z.eqb_refl|].
  exfalso.
  assert (N : SFsub prec emax (Prim2SF x) (Prim2SF y) = S754_nan).
  { destruct (SFsub _ _ _ _); cbn in E; try discriminate. reflexivity. }
  clear E G.
  destruct (Prim2SF x) as [sx|sx| |sx mx ex]; try contradiction;
    destruct (Prim2SF y) as [sy|sy| |sy my ey]; try contradiction;
    cbn [SFsub] in N.
  - destruct sx, sy; discriminate.
  - discriminate.
  - discriminate.
  - destruct (cond_Zopp sx _ - cond_Zopp sy _) as [|p|p];
      cbn [binary_normalize] in N; try discriminate.
    + destruct (binary_round_forms false p (Z.min ex ey))
        as [H|[H|(m & e & H)]]; congruence.
    + destruct (binary_round_forms true p (Z.min ex ey))
        as [H|[H|(m & e & H)]]; congruence.
Qed.

(** ** The frame rate *)

Lemma inverse_defined (dt : float) :
  (dt <=? 0)%float = false -> truediv 1 dt = Ok (1 / dt)%float.
Proof.
  intros H. unfold truediv.
  replace (dt =? 0)%float with false; [reflexivity|].
  symmetry. clear - H. float_order.
Qed.

Lemma update_fps_total (now : float) (self : fps_state) :
  exists self', _update_fps now self = Ok self'.
Proof.
  unfold _update_fps. destruct (_last_ts self) as [last|]; [|eauto].
  cbv zeta. destruct (now - last <=? 0)%float eqn:E; [eauto|].
  rewrite (inverse_defined _ E). cbn [bind].
  destruct (_fps self <=? 0)%float; eauto.
Qed.

(** X17. The frame rate stays a number.  [_update_fps] never raises, whatever
    the clock returns, for the division is guarded by [dt <= 0]; a first call
    only records the time; a clock that has not advanced leaves both fields
    as they are; and as long as the clock returns finite readings the rate
    is never negative and never a NaN, from [__init__] on. *)
Theorem update_fps_invariant :
  fps_ok fps_init /\
  (forall (now : float) (self : fps_state),
      exists self', _update_fps now self = Ok self') /\
  (forall (now : float) (self : fps_state),
      _last_ts self = None ->
      _update_fps now self
      = Ok {| _fps := _fps self; _last_ts := Some now |}) /\
  (forall (now last : float) (self : fps_state),
      _last_ts self = Some last -> (now - last <=? 0)%float = true ->
      _update_fps now self = Ok self) /\
  (forall (now : float) (self self' : fps_state),
      clock now -> fps_ok self ->
      _update_fps now self = Ok self' -> fps_ok self').
Proof.
  split; [|split; [exact update_fps_total|split; [|split]]].
  - split; [reflexivity | discriminate].
  - intros now self H. unfold _update_fps. now rewrite H.
  - intros now last self H E. unfold _update_fps. rewrite H. cbv zeta.
    now rewrite E.
  - intros now self self' Hnow [Hf Hl] H. unfold _update_fps in H.
    destruct (_last_ts self) as [last|] eqn:El.
    2:{ injection H as <-. split; [exact Hf|].
        cbn [_last_ts]. intros l E. now injection E as <-. }
    cbv zeta in H. destruct (now - last <=? 0)%float eqn:E.
    { injection H as <-. split; [exact Hf|]. rewrite El. exact Hl. }
    rewrite (inverse_defined _ E) in H. cbn [bind] in H.
    assert (Hdt : (0 <? now - last)%float = true).
    { pose proof (sub_clock_not_nan now last Hnow (Hl last eq_refl)) as N.
      clear - E N. float_order. }
    pose proof (inverse_nonneg _ Hdt) as Hi.
    assert (Hts : forall l, Some now = Some l -> clock l)
      by (intros l E'; now injection E' as <-).
    destruct (_fps self <=? 0)%float; injection H as <-;
      (split; [cbn [_fps] | exact Hts]).
    + exact Hi.
    + apply add_nonneg; apply mul_nonneg; try assumption;
        reflexivity || exact I.
Qed.

Lemma update_fps_invariant_witness :
  (clock 0x1.8p+1 /\ fps_ok {| _fps := 0; _last_ts := Some 1%float |} /\
   _update_fps 0x1.8p+1 {| _fps := 0; _last_ts := Some 1%float |}
   = Ok {| _fps := 0x1p-1; _last_ts := Some 0x1.8p+1%float |}) /\
  fps_ok {| _fps := 0x1p-1; _last_ts := Some 0x1.8p+1%float |}.
Proof.
  assert (H1 : clock 0x1.8p+1) by exact I.
  assert (H2 : fps_ok {| _fps := 0; _last_ts := Some 1%float |}).
  { split; [reflexivity|]. intros l E. injection E as <-. exact I. }
  assert (H3 : _update_fps 0x1.8p+1 {| _fps := 0; _last_ts := Some 1%float |}
               = Ok {| _fps := 0x1p-1; _last_ts := Some 0x1.8p+1%float |})
    by (vm_compute; reflexivity).
  split; [exact (conj H1 (conj H2 H3))|].
  exact (proj2 (proj2 (proj2 (proj2 update_fps_invariant))) _ _ _ H1 H2 H3).
Defined.

(** ** Zooming in *)

Lemma float_of_int_clock (n : Z) (f : float) :
  0 < n -> float_of_int n = Ok f -> clock f.
Proof.
  intros Hn H. unfold float_of_int in H.
  destruct n as [|p|p]; try lia. cbn [binary_normalize] in H.
  pose proof (binary_round_valid false p 0 ltac:(lia)) as V.
  destruct (binary_round_forms false p 0) as [Hr|[Hr|(m & e & Hr)]];
    rewrite Hr in H, V; try discriminate.
  - injection H as H. change (SF2Prim (S754_zero false) = f) in H. subst f.
    unfold clock. now rewrite Prim2SF_SF2Prim.
  - injection H as H. change (SF2Prim (S754_finite false m e) = f) in H.
    subst f. unfold clock. now rewrite Prim2SF_SF2Prim.
Qed.

Lemma mul_nonneg_l (c a : float) :
  (0 <? c)%float = true -> clock c -> (0 <=? a)%float = true ->
  (0 <=? c * a)%float = true.
Proof.
  intros Hc Hf Ha. apply leb_zero_nonneg. apply leb_zero_nonneg in Ha.
  assert (Hc' : (0 <=? c)%float = true) by (clear - Hc; float_order).
  apply leb_zero_nonneg in Hc'.
  assert (Hnz : (c =? 0)%float = false) by (clear - Hc; float_order).
  rewrite eqb_key, fkey_zero in Hnz. unfold fkey in Hnz.
  rewrite mul_spec. unfold SF64mul, clock in *.
  destruct (Prim2SF c) as [sc|sc| |sc mc ec]; try contradiction.
  { cbn [sf_key] in Hnz. discriminate. }
  destruct sc; [contradiction|].
  destruct (Prim2SF a) as [sa|sa| |sa ma ea]; try contradiction; cbn [SFmul].
  - destruct sa; exact I.
  - destruct sa; [contradiction | exact I].
  - destruct sa; [contradiction|]. cbn [xorb].
    apply nonneg_of_forms. apply binary_round_aux_nonneg. lia.
Qed.

Lemma clamp_above (zmin zmax z s : float) :
  (zmin <=? z)%float = true -> (z <=? zmax)%float = true ->
  (s <? z)%float = false ->
  (z <=? py_max zmin (py_min zmax s))%float = true.
Proof.
  intros H1 H2 H3. unfold py_max, py_min.
  destruct (s <? zmax)%float eqn:E1.
  - destruct (zmin <? s)%float eqn:E2; clear - H1 H2 H3 E1 E2; float_order.
  - destruct (zmin <? zmax)%float eqn:E2; clear - H1 H2 H3 E1 E2; float_order.
Qed.

Lemma joystick_target_narrow (u : updates) (targets : list target) (self : ptz) :
  force_wide self = false ->
  force_wide (fst (joystick_target u targets self)) = false.
Proof.
  intros H.
  destruct (Z.eq_dec (target_delta u) 0) as [Hd|Hd].
  { rewrite joystick_target_idle by (now left). exact H. }
  destruct targets as [|t rest].
  { rewrite joystick_target_idle by (now right). exact H. }
  destruct (joystick_target_run u (t :: rest) self Hd ltac:(discriminate))
    as (first & _ & [[_ Hr]|[_ (a & i & tid & _ & _ & _ & _ & _ & Hr)]]);
    rewrite Hr; [exact H | reflexivity].
Qed.

(** X18. Pressing up never zooms out.  With a zoom step that is not
    negative, an event without [wide] whose zoom delta is positive leaves the
    zoom at least where it was, whatever else the event carries; the zoom
    state being in its range [zoom_min <= zoom <= zoom_max]. *)
Theorem zoom_in_never_zooms_out
  (targets : list target) (u : updates) (self : ptz) :
  zoom_in_range self ->
  (0 <=? zoom_step self)%float = true ->
  wide u = false -> 0 < zoom_delta u < 2 ^ 53 ->
  exists self',
    _apply_joystick targets (Some u) self = (self', Ok tt) /\
    (zoom self <=? zoom self')%float = true /\
    (force_wide self' = false).
Proof.
  intros [R1 R2] Hs Hw Hd.
  destruct (float_of_int_small (zoom_delta u) ltac:(lia)) as (d & Hf).
  pose proof (float_of_int_positive _ _ (proj1 Hd) Hf) as Hpos.
  pose proof (float_of_int_clock _ _ (proj1 Hd) Hf) as Hfin.
  pose proof (mul_nonneg_l d (zoom_step self) Hpos Hfin Hs) as Ht.
  pose proof (add_nonneg_not_lt (zoom self) (d * zoom_step self) Ht) as Hadd.
  unfold _apply_joystick, seq.
  rewrite joystick_wide_run, Hw, joystick_zoom_run, Hf.
  replace (zoom_delta u =? 0) with false by (symmetry; apply Z.eqb_neq; lia).
  set (s2 := set_zoom _ _).
  destruct (joystick_target u targets s2) as [s3 r] eqn:Ej.
  pose proof (joystick_target_ok u targets s2) as Hok.
  pose proof (joystick_target_zoom u targets s2) as (Ez & _).
  rewrite Ej in Hok, Ez. cbn [fst snd] in Hok, Ez. subst r.
  exists s3. split; [reflexivity|]. split.
  - rewrite Ez. unfold s2. cbn [zoom set_zoom set_force_wide zoom_min zoom_max].
    now apply clamp_above.
  - pose proof (joystick_target_narrow u targets s2 eq_refl) as Hn.
    now rewrite Ej in Hn.
Qed.

Lemma zoom_in_never_zooms_out_witness :
  (zoom_in_range (zoomed 2 7) /\
   (0 <=? zoom_step (zoomed 2 7))%float = true /\
   wide zoom_in = false /\ 0 < zoom_delta zoom_in < 2 ^ 53) /\
  exists self',
    _apply_joystick three_targets (Some zoom_in) (zoomed 2 7) = (self', Ok tt) /\
    (zoom (zoomed 2 7) <=? zoom self')%float = true /\
    force_wide self' = false.
Proof.
  assert (H1 : zoom_in_range (zoomed 2 7)) by (split; reflexivity).
  assert (H2 : (0 <=? zoom_step (zoomed 2 7))%float = true) by reflexivity.
  assert (H3 : wide zoom_in = false) by reflexivity.
  assert (H4 : 0 < zoom_delta zoom_in < 2 ^ 53) by (cbn; lia).
  split; [exact (conj H1 (conj H2 (conj H3 H4)))|].
  exact (zoom_in_never_zooms_out three_targets zoom_in (zoomed 2 7) H1 H2 H3 H4).
Defined.

(** ** The radar *)

Import VisualRadar.

Lemma truediv_by_size (x : float) (n : Z) (f : float) :
  0 < n -> float_of_int n = Ok f -> truediv x f = Ok (x / f)%float.
Proof.
  intros Hn Hf. unfold truediv.
  pose proof (float_of_int_positive n f Hn Hf) as H.
  replace (f =? 0)%float with false; [reflexivity|].
  symmetry. clear - H. float_order.
Qed.

Lemma float_of_int_raises (n : Z) (e : exn) :
  float_of_int n = Raised e -> e = OverflowError.
Proof.
  unfold float_of_int.
  destruct (binary_normalize prec emax n 0 false); congruence.
Qed.

Lemma py_int_raises (x : float) (e : exn) :
  py_int x = Raised e -> e = ValueError \/ e = OverflowError.
Proof.
  unfold py_int. destruct (Prim2SF x); intros H; inversion H; auto.
Qed.

Lemma map_to_matrix_spec (x y : float) (frame_w frame_h : Z) :
  match _map_to_matrix x y frame_w frame_h with
  | Ok (col, row) => 0 <= col <= 7 /\ 0 <= row <= 7
  | Raised e => e = ValueError \/ e = OverflowError
  end.
Proof.
  unfold _map_to_matrix.
  destruct ((frame_w <=? 0) || (frame_h <=? 0)) eqn:Hc; [lia|].
  apply orb_false_iff in Hc. destruct Hc as [Hw Hh].
  apply Z.leb_gt in Hw, Hh.
  destruct (float_of_int frame_w) as [wf|] eqn:Ew;
    [|right; now apply (float_of_int_raises frame_w)].
  cbn [bind]. rewrite (truediv_by_size x frame_w wf Hw Ew). cbn [bind].
  destruct (py_int (x / wf * 7)) as [c|] eqn:Ec;
    [|now apply (py_int_raises _ _ Ec)].
  cbn [bind].
  destruct (float_of_int frame_h) as [hf|] eqn:Eh;
    [|right; now apply (float_of_int_raises frame_h)].
  cbn [bind]. rewrite (truediv_by_size y frame_h hf Hh Eh). cbn [bind].
  destruct (py_int (y / hf * 7)) as [r|] eqn:Er;
    [|now apply (py_int_raises _ _ Er)].
  cbn [bind]. lia.
Qed.

(** X19. [_map_to_matrix] returns a cell of the 8x8 matrix, whatever the
    coordinates: both numbers lie between 0 and 7.  A frame without width or
    height maps everything to the cell (0, 0).  The call can only fail in
    [int], on a coordinate that is a NaN or too large; the division cannot
    fail, since the size of the frame is checked first. *)
Theorem map_to_matrix_cell (x y : float) (frame_w frame_h : Z) :
  (forall col row,
      _map_to_matrix x y frame_w frame_h = Ok (col, row) ->
      0 <= col <= 7 /\ 0 <= row <= 7) /\
  (frame_w <= 0 \/ frame_h <= 0 ->
   _map_to_matrix x y frame_w frame_h = Ok (0, 0)) /\
  (forall e,
      _map_to_matrix x y frame_w frame_h = Raised e ->
      e = ValueError \/ e = OverflowError).
Proof.
  pose proof (map_to_matrix_spec x y frame_w frame_h) as S.
  split; [|split].
  - intros col row H. now rewrite H in S.
  - intros H. unfold _map_to_matrix.
    replace ((frame_w <=? 0) || (frame_h <=? 0)) with true; [reflexivity|].
    symmetry. apply orb_true_iff.
    destruct H; [left | right]; now apply Z.leb_le.
  - intros e H. now rewrite H in S.
Qed.

Lemma length_replace_nth {A} (l : list A) (n : nat) (c : A) :
  length (replace_nth l n c) = length l.
Proof.
  revert n. induction l as [|a l IH]; intros [|n]; cbn; try reflexivity.
  now rewrite IH.
Qed.

Lemma in_replace_nth {A} (l : list A) (n : nat) (c x : A) :
  In x (replace_nth l n c) -> In x l \/ x = c.
Proof.
  revert n. induction l as [|a l IH]; intros [|n]; cbn; try tauto.
  - intros [->|H]; auto.
  - intros [->|H]; auto. destruct (IH n H); auto.
Qed.

Lemma draw_spec (targets : list target) (idx : Z) (active_id : option Z)
  (frame_w frame_h : Z) (pixels : list colour) :
  length pixels = 64%nat ->
  (forall c, In c pixels -> shown c) ->
  match draw targets idx active_id frame_w frame_h pixels with
  | Ok pixels' =>
    length pixels' = 64%nat /\
    (forall c, In c pixels' -> shown c) /\
    (In red pixels' ->
     In red pixels \/
     contains active_id (identities_from idx targets) = true)
  | Raised e => e = ValueError \/ e = OverflowError
  end.
Proof.
  revert idx pixels.
  induction targets as [|t rest IH]; intros idx pixels Hlen Hcol.
  - cbn. auto.
  - cbn [draw identities_from].
    assert (Hmono : forall b,
               contains active_id (identities_from (idx + 1) rest) = true ->
               contains active_id (b :: identities_from (idx + 1) rest) = true).
    { intros b. destruct active_id as [a|]; cbn; [|discriminate].
      intros ->. apply orb_true_r. }
    destruct (length (t_bbox t) <? 4)%nat eqn:Hb.
    { specialize (IH (idx + 1) pixels Hlen Hcol).
      destruct (draw rest (idx + 1) active_id frame_w frame_h pixels);
        [|exact IH].
      destruct IH as (H1 & H2 & H3). split; [exact H1|]. split; [exact H2|].
      intros Hr. destruct (H3 Hr); [now left | right; now apply Hmono]. }
    apply Nat.ltb_ge in Hb.
    destruct (t_bbox t) as [|b0 [|b1 [|b2 [|b3 more]]]]; cbn in Hb; try lia.
    cbn [index nth_error bind].
    set (cx := ((b0 + b2) / 2)%float). set (cy := ((b1 + b3) / 2)%float).
    pose proof (map_to_matrix_spec cx cy frame_w frame_h) as Hcell.
    destruct (_map_to_matrix cx cy frame_w frame_h) as [[col row]|e];
      [|exact Hcell].
    cbn [bind]. destruct Hcell as [Rc Rr].
    set (key := match t_id t with Some k => k | None => idx end).
    set (lit := match active_id with Some a => key =? a | None => false end).
    unfold setitem. rewrite Hlen.
    replace ((0 <=? row * 8 + col) && (row * 8 + col <? Z.of_nat 64))
      with true by (symmetry; apply andb_true_iff; split;
                    [apply Z.leb_le | apply Z.ltb_lt]; lia).
    cbn [bind].
    set (px := replace_nth pixels _ _).
    assert (Hlen' : length px = 64%nat)
      by (unfold px; now rewrite length_replace_nth).
    assert (Hcol' : forall c, In c px -> shown c).
    { intros c Hc. unfold px in Hc. apply in_replace_nth in Hc.
      destruct Hc as [Hc| ->]; [now apply Hcol|].
      unfold shown. destruct lit; auto. }
    specialize (IH (idx + 1) px Hlen' Hcol').
    destruct (draw rest (idx + 1) active_id frame_w frame_h px); [|exact IH].
    destruct IH as (H1 & H2 & H3). split; [exact H1|]. split; [exact H2|].
    intros Hr. destruct (H3 Hr) as [Hin|Hc]; [|right; now apply Hmono].
    unfold px in Hin. apply in_replace_nth in Hin.
    destruct Hin as [Hin|Hin]; [now left | right].
    destruct lit eqn:Hlit; [|discriminate].
    unfold lit in Hlit. destruct active_id as [act|]; [|discriminate].
    cbn [contains existsb]. fold key. rewrite Z.eqb_sym, Hlit. reflexivity.
Qed.

(** X20. What [update] hands to the Sense HAT is always a full matrix: 64
    pixels, each of them black, white or red; and a pixel is red only when a
    detection of the frame carries the active identity.  The assignment
    [pixels[row * 8 + col]] never raises [IndexError]: the call fails only
    when [int] does, on a box with a NaN or a huge coordinate.  A radar that
    is disabled or has no hat does nothing. *)
Theorem update_pixels
  (enabled has_hat : bool) (targets : list target) (active_id : option Z)
  (frame_w frame_h : Z) :
  (enabled = false \/ has_hat = false ->
   update enabled has_hat targets active_id frame_w frame_h = Ok None) /\
  (forall pixels,
      update enabled has_hat targets active_id frame_w frame_h
      = Ok (Some pixels) ->
      length pixels = 64%nat /\
      (forall c, In c pixels -> c = black \/ c = white \/ c = red) /\
      (In red pixels -> contains active_id (identities targets) = true)) /\
  (forall e,
      update enabled has_hat targets active_id frame_w frame_h = Raised e ->
      e = ValueError \/ e = OverflowError).
Proof.
  unfold update. split; [|split].
  - intros [->| ->]; [reflexivity | now rewrite orb_true_r].
  - intros pixels H.
    destruct (negb enabled || negb has_hat); [discriminate|].
    pose proof (draw_spec targets 0 active_id frame_w frame_h (repeat black 64))
      as D.
    destruct (draw targets 0 active_id frame_w frame_h (repeat black 64))
      as [px|]; [|discriminate].
    cbn [bind] in H. injection H as <-.
    destruct D as (H1 & H2 & H3).
    + apply repeat_length.
    + intros c Hc. apply repeat_spec in Hc. left. exact Hc.
    + split; [exact H1|]. split; [exact H2|].
      intros Hr. destruct (H3 Hr) as [Hin|Hc]; [|exact Hc].
      apply repeat_spec in Hin. discriminate.
  - intros e H.
    destruct (negb enabled || negb has_hat); [discriminate|].
    pose proof (draw_spec targets 0 active_id frame_w frame_h (repeat black 64))
      as D.
    destruct (draw targets 0 active_id frame_w frame_h (repeat black 64))
      as [px|e']; [discriminate|].
    cbn [bind] in H. injection H as <-.
    apply D; [apply repeat_length|].
    intros c Hc. apply repeat_spec in Hc. left. exact Hc.
Qed.

(** ** The joystick *)

Import JoystickController.

Lemma handle_counts (st : updates) (e : event) :
  JoystickController.handle st e
  = {| target_delta :=
         target_delta st + presses "right" [e] - presses "left" [e];
       zoom_delta := zoom_delta st + presses "up" [e] - presses "down" [e];
       wide := wide st || (0 <? presses "middle" [e]) |}.
Proof.
  destruct e as [a d], st as [td zd w].
  unfold JoystickController.handle, presses.
  cbn [filter action direction target_delta zoom_delta wide].
  destruct (String.eqb a "pressed"); cbn [negb andb length].
  2:{ rewrite orb_false_r. f_equal; lia. }
  destruct (String.eqb_spec d "left") as [->|N1];
    [cbn; rewrite orb_false_r; f_equal; lia|].
  destruct (String.eqb_spec d "right") as [->|N2];
    [cbn; rewrite orb_false_r; f_equal; lia|].
  destruct (String.eqb_spec d "up") as [->|N3];
    [cbn; rewrite orb_false_r; f_equal; lia|].
  destruct (String.eqb_spec d "down") as [->|N4];
    [cbn; rewrite orb_false_r; f_equal; lia|].
  destruct (String.eqb_spec d "middle") as [->|N5];
    [cbn; rewrite orb_true_r; f_equal; lia|].
  cbn. rewrite orb_false_r. f_equal; lia.
Qed.

Lemma presses_cons (d : String.string) (e : event) (events : list event) :
  presses d (e :: events) = presses d [e] + presses d events.
Proof.
  unfold presses. cbn [filter].
  destruct (_ && _); cbn [length]; lia.
Qed.

Lemma presses_range (d : String.string) (events : list event) :
  0 <= presses d events <= Z.of_nat (length events).
Proof.
  unfold presses. pose proof (filter_length_le
    (fun e => String.eqb (action e) "pressed" && String.eqb (direction e) d)
    events). lia.
Qed.

Lemma fold_handle_counts (events : list event) (st : updates) :
  fold_left JoystickController.handle events st
  = {| target_delta :=
         target_delta st + presses "right" events - presses "left" events;
       zoom_delta := zoom_delta st + presses "up" events - presses "down" events;
       wide := wide st || (0 <? presses "middle" events) |}.
Proof.
  revert st. induction events as [|e events IH]; intros st.
  - destruct st; cbn. rewrite orb_false_r. f_equal; lia.
  - cbn [fold_left]. rewrite IH, handle_counts.
    cbn [target_delta zoom_delta wide].
    rewrite (presses_cons "right" e events), (presses_cons "left" e events),
      (presses_cons "up" e events), (presses_cons "down" e events),
      (presses_cons "middle" e events).
    pose proof (presses_range "middle" [e]).
    pose proof (presses_range "middle" events).
    assert (W : (0 <? presses "middle" [e] + presses "middle" events)
                = (0 <? presses "middle" [e]) || (0 <? presses "middle" events)).
    { destruct (0 <? presses "middle" [e]) eqn:A,
               (0 <? presses "middle" events) eqn:B; cbn; lia. }
    rewrite W, orb_assoc. f_equal; lia.
Qed.

(** X21. What [poll] returns for a batch of events is a count: the target
    delta is the number of presses to the right minus the number of presses
    to the left, the zoom delta the number of presses up minus the number of
    presses down, and [wide] tells whether the middle was pressed; events
    that are not presses, and presses in any other direction, count for
    nothing.  A disabled controller, or one without a hat, reports no
    input. *)
Theorem poll_counts :
  (forall events : list event,
      JoystickController.poll true (Some events)
      = {| target_delta := presses "right" events - presses "left" events;
           zoom_delta := presses "up" events - presses "down" events;
           wide := 0 <? presses "middle" events |}) /\
  (forall (enabled : bool) (hat : option (list event)),
      enabled = false \/ hat = None ->
      JoystickController.poll enabled hat = JoystickController.idle).
Proof.
  split.
  - intros events. unfold JoystickController.poll. cbn [negb].
    rewrite fold_handle_counts. reflexivity.
  - intros enabled hat [->| ->]; [|reflexivity].
    now destruct hat.
Qed.

Lemma presses_none (d : String.string) (events : list event) :
  Forall (fun e => action e <> "pressed"%string) events ->
  presses d events = 0.
Proof.
  intros H. unfold presses.
  induction H as [|e events He _ IH]; [reflexivity|].
  cbn [filter]. apply String.eqb_neq in He. rewrite He. exact IH.
Qed.

(** X22. The joystick cannot make the pipeline fail: whatever batch of
    fewer than 2^53 events [poll] reads, [_apply_joystick] on what it returns
    ends normally, for every detection list and every state.  And it leaves
    the state as it is when the controller is disabled or has no hat, or
    when no event of the batch is a press. *)
Theorem joystick_input_safe :
  (forall (enabled : bool) (events : list event) (targets : list target)
          (self : ptz),
      Z.of_nat (length events) < 2 ^ 53 ->
      snd (_apply_joystick targets
             (Some (JoystickController.poll enabled (Some events))) self)
      = Ok tt) /\
  (forall (enabled : bool) (hat : option (list event))
          (targets : list target) (self : ptz),
      enabled = false \/ hat = None \/
      (exists events,
          hat = Some events /\
          Forall (fun e => action e <> "pressed"%string) events) ->
      _apply_joystick targets (Some (JoystickController.poll enabled hat)) self
      = (self, Ok tt)).
Proof.
  split.
  - intros enabled events targets self Hlen.
    set (u := JoystickController.poll enabled (Some events)).
    assert (Hz : Z.abs (zoom_delta u) < 2 ^ 53).
    { unfold u, JoystickController.poll. destruct enabled; cbn [negb].
      - rewrite fold_handle_counts. cbn [zoom_delta JoystickController.idle].
        pose proof (presses_range "up" events).
        pose proof (presses_range "down" events). lia.
      - cbn. lia. }
    destruct (joystick_wide_zoom_run u self Hz) as (s1 & Hrun & _).
    destruct (apply_joystick_split u targets self s1 Hrun) as [-> _].
    apply joystick_target_ok.
  - intros enabled hat targets self H.
    assert (E : JoystickController.poll enabled hat = JoystickController.idle).
    { destruct H as [->|[->|(events & -> & Hn)]].
      - now destruct hat.
      - reflexivity.
      - unfold JoystickController.poll.
        destruct enabled; [|reflexivity]. cbn [negb].
        rewrite fold_handle_counts. cbn [target_delta zoom_delta wide
                                           JoystickController.idle].
        now rewrite !presses_none by exact Hn. }
    rewrite E. reflexivity.
Qed.

Lemma joystick_input_safe_witness :
  Z.of_nat (length [{| action := "pressed"; direction := "up" |};
                    {| action := "released"; direction := "up" |};
                    {| action := "pressed"; direction := "right" |}])
  < 2 ^ 53 /\
  snd (_apply_joystick three_targets
         (Some (JoystickController.poll true
                  (Some [{| action := "pressed"; direction := "up" |};
                         {| action := "released"; direction := "up" |};
                         {| action := "pressed"; direction := "right" |}])))
         (following 7))
  = Ok tt.
Proof.
  split; [cbn; lia|].
  apply (proj1 joystick_input_safe). cbn. lia.
Defined.
